(** * Customer migration (migrate.py): a shallow embedding and its properties

    The script reads a customer export (an XML tree) and a mapping table (a
    CSV file read by pandas), rewrites every customer the table names, and
    writes a delta document and an audit log.

    Conventions of the embedding.
    - Text is a Rocq [string] read as a sequence of code points below 256;
      [is_space], [is_word] and [lower] follow Python's tables on that range.
    - An XML element is a rose tree (tag in Clark notation, attributes in
      document order, text, children); tails, comments and processing
      instructions are not represented, and texts are taken to be ones XML
      can carry, so that the copy of line 257 (serialise, then parse) is the
      record itself.
    - A cell of the mapping table is the Python value the loop reads from the
      row: a string, an integer, a boolean, a float, NaN (what pandas yields
      for an empty field) or None. How pandas infers column types is not
      modelled; [astype(str)] on a column is taken to agree with [str] on the
      cells.
    - A Python exception ends the run before either artifact is written, so
      fallible steps live in the [result] monad.
    - The source tree is mutated in place by the script; the embedding threads
      it through the loop state ([st_root]), and what is done to the object
      [find] returned is done to the tree at the place of the first match.
    - One shape of document is left out: a [user] element inside another
      [user] element, where the loop over the accounts would visit objects
      that an earlier iteration moved or detached ([OutsideModel]). *)

From Stdlib Require Import ZArith NArith String Ascii List Bool Lia.
From stdpp Require Import base option list strings pretty gmap.

Local Open Scope string_scope.
Local Open Scope Z_scope.
Local Open Scope list_scope.

(** ** Python text primitives *)

Module Text.

Definition code (c : ascii) : N := N_of_ascii c.

Definition between (lo hi : N) (c : ascii) : bool :=
  ((lo <=? code c) && (code c <=? hi))%N.

(** [str.isspace] on one character: what [str.strip()] removes. *)
Definition is_space (c : ascii) : bool :=
  between 9 13 c || between 28 32 c || (code c =? 133)%N || (code c =? 160)%N.

(** The class [\w] of [re] on a [str] pattern: alphanumeric or underscore. *)
Definition is_word (c : ascii) : bool :=
  between 48 57 c || between 65 90 c || (code c =? 95)%N || between 97 122 c
  || (code c =? 170)%N || between 178 179 c || (code c =? 181)%N
  || between 185 186 c || between 188 190 c
  || between 192 214 c || between 216 246 c || between 248 255 c.

(** [str.lower] on one character. *)
Definition lower_char (c : ascii) : ascii :=
  if between 65 90 c || between 192 214 c || between 216 222 c
  then ascii_of_N (code c + 32) else c.

Fixpoint lower (s : string) : string :=
  match s with
  | EmptyString => EmptyString
  | String c r => String (lower_char c) (lower r)
  end.

Fixpoint lstrip (s : string) : string :=
  match s with
  | EmptyString => EmptyString
  | String c r => if is_space c then lstrip r else s
  end.

Fixpoint rstrip (s : string) : string :=
  match s with
  | EmptyString => EmptyString
  | String c r =>
      match rstrip r with
      | EmptyString => if is_space c then EmptyString else String c EmptyString
      | r' => String c r'
      end
  end.

(** [s.strip()] *)
Definition strip (s : string) : string := rstrip (lstrip s).

Definition dquote : ascii := "034"%char.

Fixpoint has_dquote (s : string) : bool :=
  match s with
  | EmptyString => false
  | String c r => Ascii.eqb c dquote || has_dquote r
  end.

(** [\b] between two neighbouring positions; [None] is the edge of the
    string. *)
Definition word_at (c : option ascii) : bool :=
  match c with Some c => is_word c | None => false end.

Definition boundary (before after : option ascii) : bool :=
  xorb (word_at before) (word_at after).

Definition head_char (s : string) : option ascii :=
  match s with EmptyString => None | String c _ => Some c end.

(** [re.match(r"-\b[1-9]D\b", s)]: the pattern is tried at the start of
    [s] only, and nothing forces it to reach the end of [s]. *)
Definition match_delivery_day (s : string) : bool :=
  match s with
  | String c0 (String c1 (String c2 rest)) =>
      Ascii.eqb c0 "-"%char
      && boundary (Some c0) (Some c1)
      && between 49 57 c1
      && Ascii.eqb c2 "D"%char
      && boundary (Some c2) (head_char rest)
  | _ => false
  end.

End Text.

(** ** Cells of the mapping table *)

Inductive cell : Type :=
  | CNone
  | CNaN
  | CStr (s : string)
  | CInt (z : Z)
  | CBool (b : bool)
  | CFloat (repr : string).   (* a float other than NaN, by the text [str] prints *)

Module Cell.

(** [str(v)] *)
Definition str (v : cell) : string :=
  match v with
  | CNone => "None"
  | CNaN => "nan"
  | CStr s => s
  | CInt z => pretty z
  | CBool true => "True"
  | CBool false => "False"
  | CFloat r => r
  end.

(** [v is None] *)
Definition is_none (v : cell) : bool :=
  match v with CNone => true | _ => false end.

(** [pd.isna(v)] on a scalar *)
Definition isna (v : cell) : bool :=
  match v with CNone | CNaN => true | _ => false end.

(** [v == ""] *)
Definition eq_empty (v : cell) : bool :=
  match v with CStr EmptyString => true | _ => false end.

End Cell.

(** ** Outcomes of fallible steps *)

Inductive exn : Type :=
  | NameError      (* a variable read before any assignment *)
  | TypeError      (* lxml's [set] given None *)
  | ValueError     (* lxml's [remove] given an element that is not a child *)
  | SyntaxError    (* ElementPath refusing a path expression *)
  | IndexError.    (* [iloc[0]] on an empty selection *)

(** [OutsideModel] marks the one shape of document the embedding does not
    follow: a [user] element nested inside another [user] element. *)
Inductive result (A : Type) : Type :=
  | Ret (a : A)
  | Raise (e : exn)
  | OutsideModel.
Arguments Ret {A} a.
Arguments Raise {A} e.
Arguments OutsideModel {A}.

#[global] Instance result_ret : MRet result := fun A a => Ret a.
#[global] Instance result_bind : MBind result := fun A B f m =>
  match m with
  | Ret a => f a
  | Raise e => Raise e
  | OutsideModel => OutsideModel
  end.
#[global] Instance result_fmap : FMap result := fun A B f m =>
  match m with
  | Ret a => Ret (f a)
  | Raise e => Raise e
  | OutsideModel => OutsideModel
  end.

(** ** XML trees and the ElementPath queries the script uses *)

Module Xml.

#[local] Set Warnings "-register-all".

Inductive elem : Type :=
  Elem { tag : string;
         attrib : list (string * string);
         text : option string;
         children : list elem }.

(** [attrib.get(k)] and [attrib[k] = v] on an ordered attribute list. *)
Fixpoint attr_get (k : string) (a : list (string * string)) : option string :=
  match a with
  | [] => None
  | (k', v) :: r => if String.eqb k' k then Some v else attr_get k r
  end.

Fixpoint attr_set (k v : string) (a : list (string * string))
  : list (string * string) :=
  match a with
  | [] => [(k, v)]
  | (k', v') :: r =>
      if String.eqb k' k then (k, v) :: r else (k', v') :: attr_set k v r
  end.

Definition get (k : string) (e : elem) : option string := attr_get k (attrib e).

Definition set_attr (k v : string) (e : elem) : elem :=
  Elem (tag e) (attr_set k v (attrib e)) (text e) (children e).

Definition set_text (x : option string) (e : elem) : elem :=
  Elem (tag e) (attrib e) x (children e).

Definition set_children (ks : list elem) (e : elem) : elem :=
  Elem (tag e) (attrib e) (text e) ks.

(** [etree.SubElement(e, ...)] / [e.append(k)]: the new child goes last. *)
Definition append_child (k : elem) (e : elem) : elem :=
  set_children (children e ++ [k]) e.

(** [e.iter()]: the element and its descendants in document order. *)
Fixpoint iter (e : elem) : list elem :=
  match e with
  | Elem _ _ _ ks => e :: flat_map iter ks
  end.

(** The proper descendants of [e], in document order: what [.//] ranges
    over. *)
Definition descendants (e : elem) : list elem := flat_map iter (children e).

(** [e.findall('.//T[P]')] and [e.find('.//T[P]')] for a test [p] on
    elements. *)
Definition findall (p : elem -> bool) (e : elem) : list elem :=
  filter (fun x => p x = true) (descendants e).

Definition find (p : elem -> bool) (e : elem) : option elem :=
  head (findall p e).

Definition is_tag (t : string) (e : elem) : bool := String.eqb (tag e) t.

(** The predicate [[@k="v"]]. *)
Definition has_attr (k v : string) (e : elem) : bool :=
  match get k e with
  | Some v' => String.eqb v' v
  | None => false
  end.

Definition text_is (v : string) (e : elem) : bool :=
  match text e with
  | Some x => String.eqb x v
  | None => false
  end.

(** The text of every node of the tree recomputed from the node: a loop
    [for x in e.iter(): x.text = ...] that leaves the shape alone. *)
Fixpoint map_text (g : elem -> option string) (e : elem) : elem :=
  match e with
  | Elem t a x ks => Elem t a (g e) (map (map_text g) ks)
  end.

(** The same over the proper descendants only. *)
Definition map_text_below (g : elem -> option string) (e : elem) : elem :=
  set_children (map (map_text g) (children e)) e.

(** In-place update of the first proper descendant (document order) that
    satisfies [p]; [None] when there is none. *)
Fixpoint update_first (p : elem -> bool) (f : elem -> result elem) (e : elem)
  : option (result elem) :=
  match e with
  | Elem t a x ks =>
      let fix go (ks : list elem) : option (result (list elem)) :=
        match ks with
        | [] => None
        | k :: ks' =>
            if p k then Some (k' ← f k; mret (k' :: ks'))
            else match update_first p f k with
                 | Some r => Some (k' ← r; mret (k' :: ks'))
                 | None => fmap (M := option) (fmap (cons k)) (go ks')
                 end
        end in
      fmap (M := option) (fmap (Elem t a x)) (go ks)
  end.

Definition update_first_in (p : elem -> bool) (f : elem -> result elem)
  : list elem -> option (result (list elem)) :=
  fix go (ks : list elem) : option (result (list elem)) :=
    match ks with
    | [] => None
    | k :: ks' =>
        if p k then Some (k' ← f k; mret (k' :: ks'))
        else match update_first p f k with
             | Some r => Some (k' ← r; mret (k' :: ks'))
             | None => fmap (M := option) (fmap (cons k)) (go ks')
             end
    end.

(** [x = e.find(P); if x is not None: f(x)]: nothing happens without a
    match. *)
Definition update_found (p : elem -> bool) (f : elem -> result elem) (e : elem)
  : result elem :=
  match update_first p f e with
  | Some r => r
  | None => Ret e
  end.

(** [f] applied in place to every outermost proper descendant satisfying
    [p], in document order. *)
Fixpoint map_where (p : elem -> bool) (f : elem -> result elem) (e : elem)
  : result elem :=
  match e with
  | Elem t a x ks =>
      let fix go (ks : list elem) : result (list elem) :=
        match ks with
        | [] => Ret []
        | k :: ks' =>
            k' ← (if p k then f k else map_where p f k);
            ks'' ← go ks';
            mret (k' :: ks'')
        end in
      fmap (Elem t a x) (go ks)
  end.

Definition map_where_in (p : elem -> bool) (f : elem -> result elem)
  : list elem -> result (list elem) :=
  fix go (ks : list elem) : result (list elem) :=
    match ks with
    | [] => Ret []
    | k :: ks' =>
        k' ← (if p k then f k else map_where p f k);
        ks'' ← go ks';
        mret (k' :: ks'')
    end.

(** The element [find] returned is an object of the tree it was found in:
    what the script then does to it shows in that tree, at the place of the
    first match. [replace_first p c e] is [e] with that object now in state
    [c]. *)
Definition replace_first (p : elem -> bool) (c : elem) (e : elem) : elem :=
  match update_first p (fun _ => Ret c) e with
  | Some (Ret e') => e'
  | _ => e
  end.

Definition replace_first_in (p : elem -> bool) (c : elem) (ks : list elem)
  : list elem :=
  match update_first_in p (fun _ => Ret c) ks with
  | Some (Ret ks') => ks'
  | _ => ks
  end.

(** The first match among a list of siblings and their descendants. *)
Definition find_in (p : elem -> bool) (ks : list elem) : option elem :=
  head (filter (fun x => p x = true) (flat_map iter ks)).

(** [update_first] is: find the first match, run [f] on it, put the result
    back in its place. *)
Definition update_first_is_replace (p : elem -> bool) (e : elem) : Prop :=
  forall f, update_first p f e
    = match find p e with
      | None => None
      | Some c => Some (fmap (fun c' => replace_first p c' e) (f c))
      end.

(** How many elements of a list satisfy [q]. *)
Definition count (q : elem -> bool) (l : list elem) : nat :=
  length (filter (fun x => q x = true) l).

(** Same tag, same attributes, same text: only the children may differ. *)
Definition same_label (e e' : elem) : Prop :=
  tag e' = tag e /\ attrib e' = attrib e /\ text e' = text e.

(** A test that reads the tag and the attributes only. *)
Definition label_only (q : elem -> bool) : Prop :=
  forall t a x ks x' ks', q (Elem t a x ks) = q (Elem t a x' ks').

(** What the first [p]-element of [e] holds of [m]-elements, if [e] has a
    [p]-element at all. *)
Definition census (p m : elem -> bool) (e : elem) : option nat :=
  (fun g => count m (descendants g)) <$> find p e.

Definition census_in (p m : elem -> bool) (ks : list elem) : option nat :=
  (fun g => count m (descendants g)) <$> find_in p ks.

(** [e'] is as good as [e] for the two tests: same verdict on the element
    itself, as many [m]-elements below, and the same census. *)
Definition stable (p m : elem -> bool) (e e' : elem) : Prop :=
  p e' = p e /\ m e' = m e
  /\ count m (descendants e') = count m (descendants e)
  /\ census p m e' = census p m e.

(** An element a step may add or drop without a trace for the two tests. *)
Definition neutral (p m : elem -> bool) (k : elem) : Prop :=
  p k = false /\ find p k = None /\ count m (iter k) = 0%nat.

End Xml.

(** ** The script *)

Module Migrate.
Import Xml.

Definition ns_i : string :=
  "http://www.intershop.com/xml/ns/intershop/customer/impex/7.3".
Definition ns_dt : string :=
  "http://www.intershop.com/xml/ns/enfinity/6.5/core/impex-dt".
Definition ns_xsi : string := "http://www.w3.org/2001/XMLSchema-instance".

(** Clark notation [{ns}local], as lxml spells a qualified name. *)
Definition qname (ns local : string) : string := "{" +:+ ns +:+ "}" +:+ local.
Definition i_ (local : string) : string := qname ns_i local.
Definition dt_dt : string := qname ns_dt "dt".
Definition schemaLocation : string := qname ns_xsi "schemaLocation".

Definition marker : string := "CG_Mekonomen".

(** *** The mapping table *)

Record row : Type := Row {
  current_customer_id : cell;
  new_customer_id : cell;
  new_store_id : cell;
  new_store_name : cell;
  new_source_id : cell;
  mandatory_reference : cell;
  delivery_day : cell }.

(** [csv_df['current_customer_id'].astype(str)], row by row. *)
Definition current_str (r : row) : string := Cell.str (current_customer_id r).

(** [customer_ids_from_csv] *)
Definition customer_ids_from_csv (csv : list row) : gset string :=
  list_to_set (map current_str csv).

(** [csv_df.loc[csv_df['current_customer_id'].astype(str) == id].iloc[0]] *)
Definition first_row_for (csv : list row) (id : string) : result row :=
  match List.find (fun r => String.eqb (current_str r) id) csv with
  | Some r => Ret r
  | None => Raise IndexError
  end.

(** *** The audit log *)

Inductive error_reason : Type :=
  | MissingValues          (* "Missing values!" *)
  | InvalidDeliveryDay.    (* "Invalid delivery day format! - Eg: '-1D'" (the
                              closing quote of the source is U+2019) *)

Inductive status : Type :=
  | OK                     (* 'OK' *)
  | NotOK.                 (* 'Not OK' *)

Inductive reason : Type :=
  | NoReason               (* '' *)
  | FoundInSource          (* 'Found in source XML file' *)
  | NotFoundInSource       (* 'Not found in source XML' *)
  | InvalidValue (r : error_reason).
      (* 'Invalid value! Please check CSV input file (<error_reason>)' *)

Record log_row : Type := LogRow {
  log_current_id : string;
  log_new_id : string;
  log_status : status;
  log_reason : reason }.

(** *** Validation of a mapping row (lines 125-150) *)

Record verdict : Type := Verdict {
  v_error_flag : bool;
  v_error_reason : option error_reason;   (* [None]: left as it was *)
  v_delivery_day : cell }.

(** The empty-field check. *)
Definition missing_values (r : row) : bool :=
  existsb Cell.is_none
    [new_customer_id r; new_store_id r; new_store_name r; new_source_id r].

(** [delivery_day == "" or delivery_day is None or pd.isna(delivery_day)] *)
Definition blank (d : cell) : bool :=
  Cell.eq_empty d || Cell.is_none d || Cell.isna d.

Definition validate (r : row) : verdict :=
  let flag1 := missing_values r in
  let reason1 := if flag1 then Some MissingValues else None in
  let d := delivery_day r in
  if blank d then
    Verdict flag1 reason1 (CStr "-3D")
  else if negb (Text.match_delivery_day (Cell.str d)) then
    Verdict true (Some InvalidDeliveryDay) d
  else
    Verdict flag1 reason1 d.

(** The texts the delivery-day pattern accepts: '-', a digit 1-9, 'D', and
    then either the end of the text or a character outside [\w]. *)
Definition conforming (s : string) : Prop :=
  exists (c : ascii) (rest : string),
    s = String "-" (String c (String "D" rest))
    /\ Text.between 49 57 c = true
    /\ Text.word_at (Text.head_char rest) = false.

(** *** The transformation of one matched customer (lines 152-254) *)

Definition is_custom_attribute : elem -> bool := is_tag (i_ "custom-attribute").
Definition is_custom_attributes : elem -> bool := is_tag (i_ "custom-attributes").
Definition named_attribute (name : string) (e : elem) : bool :=
  is_custom_attribute e && has_attr "name" name e.
Definition is_user : elem -> bool := is_tag (i_ "user").
Definition is_user_groups : elem -> bool := is_tag (i_ "user-groups").
Definition is_user_group : elem -> bool := is_tag (i_ "user-group").
Definition is_credentials : elem -> bool := is_tag (i_ "credentials").
Definition is_last_logged_in : elem -> bool := is_tag (i_ "last-logged-in").
Definition is_profile : elem -> bool := is_tag (i_ "profile").
Definition is_creation_date : elem -> bool := is_tag (i_ "creation-date").
Definition is_last_order_date : elem -> bool := named_attribute "LastOrderDate".

(** [.//i:customer[@id="..."]] *)
Definition is_customer_with (id : string) (e : elem) : bool :=
  is_tag (i_ "customer") e && has_attr "id" id e.

Section Transform.
Variable today_date : string.
Variable current_id : string.         (* the stripped id of the record *)
Variables new_id new_store_id' new_store_name' new_source_id' : cell.
Variable mandatory_ref : cell.
Variable delivery_day' : cell.        (* after the default was substituted *)

(** Which arm of the if/elif chain of the attribute loop fires. *)
Inductive arm : Type :=
  | ArmCompany | ArmStoreId | ArmWarehouse | ArmStoreName | ArmDataArea
  | ArmSource | ArmSystem | ArmMandatory | ArmDelivery | ArmNone.

Definition arm_of (a : elem) : arm :=
  if has_attr "name" "MEK_Company" a && text_is "Mekonomen" a then ArmCompany
  else if has_attr "name" "MEK_Store_Id" a then ArmStoreId
  else if has_attr "name" "MEK_WarehouseID" a then ArmWarehouse
  else if has_attr "name" "MEK_Store_Name" a then ArmStoreName
  else if has_attr "name" "MEK_DataAreaID" a then ArmDataArea
  else if has_attr "name" "MEK_SourceID" a then ArmSource
  else if has_attr "name" "MEK_SystemID" a then ArmSystem
  else if has_attr "name" "MEK_CustomerOrderNumberMandatory" a
          && negb (Cell.is_none mandatory_ref) then ArmMandatory
  else if has_attr "name" "MEK_DefaultDeliveryday" a
          && negb (Cell.is_none delivery_day') then ArmDelivery
  else ArmNone.

Definition arm_text (a : elem) : option string :=
  match arm_of a with
  | ArmCompany => Some "Meca"
  | ArmStoreId => Some (Cell.str new_store_id')
  | ArmWarehouse => Some (Cell.str new_store_id')
  | ArmStoreName => Some (Cell.str new_store_name')
  | ArmDataArea => Some (Cell.str new_source_id')
  | ArmSource => Some (Cell.str new_source_id')
  | ArmSystem => Some "6"
  | ArmMandatory => Some (Cell.str mandatory_ref)
  | ArmDelivery => Some (Cell.str delivery_day')
  | ArmNone => text a
  end.

(** The loop over [customer.findall('.//i:custom-attribute')]. *)
Definition rewrite_text (e : elem) : option string :=
  if is_custom_attribute e then arm_text e else text e.

Definition rewrite_attributes (customer : elem) : elem :=
  map_text_below rewrite_text customer.

Definition is_arm (b : arm) (a : elem) : bool :=
  match arm_of a, b with
  | ArmMandatory, ArmMandatory | ArmDelivery, ArmDelivery => true
  | _, _ => false
  end.

Definition mek_customer_order_number_mandatory_exists (customer : elem) : bool :=
  existsb (is_arm ArmMandatory) (findall is_custom_attribute customer).

Definition mek_deliveryday_exists (customer : elem) : bool :=
  existsb (is_arm ArmDelivery) (findall is_custom_attribute customer).

(** The body shared by the two insertion blocks (lines 188-200 and
    204-216): find or create the container, then update or add the
    attribute [name] with text [value] and datatype [dt]. *)
Definition new_attribute (name value dt : string) : elem :=
  Elem (i_ "custom-attribute") [("name", name); (dt_dt, dt)] (Some value) [].

Definition put_attribute (name value dt : string) (container : elem)
  : result elem :=
  match find (named_attribute name) container with
  | Some _ =>
      update_found (named_attribute name)
        (fun a => Ret (set_attr dt_dt dt (set_text (Some value) a))) container
  | None => Ret (append_child (new_attribute name value dt) container)
  end.

Definition insert_attribute (name value dt : string) (customer : elem)
  : result elem :=
  match find is_custom_attributes customer with
  | None =>
      c ← put_attribute name value dt (Elem (i_ "custom-attributes") [] None []);
      mret (append_child c customer)
  | Some _ =>
      update_found is_custom_attributes (put_attribute name value dt) customer
  end.

(** Lines 221-225. *)
Definition replace_id (e : elem) : option string :=
  if text_is current_id e then Some (Cell.str new_id) else text e.

Definition rewrite_partner (user : elem) : elem :=
  let user1 :=
    if has_attr "business-partner-no" current_id user
    then set_attr "business-partner-no" (Cell.str new_id) user
    else user in
  map_text replace_id user1.

(** Lines 228-234. *)
Definition has_marker (user_groups : elem) : bool :=
  existsb (has_attr "id" marker) (findall is_user_group user_groups).

Definition new_group : elem := Elem (i_ "user-group") [("id", marker)] None [].

Definition add_marker (user_groups : elem) : result elem :=
  if has_marker user_groups then Ret user_groups
  else Ret (append_child new_group user_groups).

(** How many times a group-membership collection holds the marker. *)
Definition markers (user_groups : elem) : nat :=
  count (has_attr "id" marker) (findall is_user_group user_groups).

Definition add_membership (user : elem) : result elem :=
  update_found is_user_groups add_marker user.

(** Lines 237-240: [remove] wants a child, [findall] also reports deeper
    matches. *)
Definition remove_all_last_order_date (custom_attributes : elem) : result elem :=
  if forallb (fun k => negb (existsb is_last_order_date (descendants k)))
       (children custom_attributes)
  then Ret (set_children
              (filter (fun k => is_last_order_date k = false)
                 (children custom_attributes))
              custom_attributes)
  else Raise ValueError.

Definition remove_last_order_date (user : elem) : result elem :=
  update_found is_custom_attributes remove_all_last_order_date user.

(** Lines 243-247: only the first match in document order is looked at. *)
Fixpoint remove_first_child (p : elem -> bool) (ks : list elem)
  : result (list elem) :=
  match ks with
  | [] => Ret []
  | k :: ks' =>
      if p k then Ret ks'
      else if existsb p (descendants k) then Raise ValueError
      else fmap (cons k) (remove_first_child p ks')
  end.

Definition remove_first_last_logged_in (credentials : elem) : result elem :=
  ks ← remove_first_child is_last_logged_in (children credentials);
  mret (set_children ks credentials).

Definition remove_last_logged_in (user : elem) : result elem :=
  update_found is_credentials remove_first_last_logged_in user.

(** Lines 250-254. *)
Definition set_creation_date (user : elem) : result elem :=
  update_found is_profile
    (update_found is_creation_date
       (fun c => Ret (set_text (Some today_date) c))) user.

(** The body of the loop over [customer.findall('.//i:user')]. *)
Definition migrate_user (user : elem) : result elem :=
  u ← add_membership (rewrite_partner user);
  u ← remove_last_order_date u;
  u ← remove_last_logged_in u;
  set_creation_date u.

Definition nested_users (customer : elem) : bool :=
  existsb (fun u => existsb is_user (descendants u)) (findall is_user customer).

Definition migrate_users (customer : elem) : result elem :=
  if nested_users customer then OutsideModel
  else map_where is_user migrate_user customer.

(** Lines 152-254 on the matched record. Each attribute is classified
    before its own text changes, so the two flags are read off the record
    as the attribute loop finds it. *)
Definition transform (customer : elem) : result elem :=
  let c0 := set_attr "id" (Cell.str new_id) customer in
  let mandatory_exists := mek_customer_order_number_mandatory_exists c0 in
  let deliveryday_exists := mek_deliveryday_exists c0 in
  let c1 := rewrite_attributes c0 in
  c2 ← (if negb deliveryday_exists && negb (Cell.is_none delivery_day')
        then insert_attribute "MEK_DefaultDeliveryday"
               (Cell.str delivery_day') "string" c1
        else Ret c1);
  c3 ← (if negb mandatory_exists && negb (Cell.is_none mandatory_ref)
           && negb (Cell.isna mandatory_ref)
        then insert_attribute "MEK_CustomerOrderNumberMandatory"
               (Text.lower (Cell.str mandatory_ref)) "boolean" c2
        else Ret c2);
  migrate_users c3.

End Transform.

(** *** The shape of an account in the export format *)

(** The elements the two removal steps take out. *)
Definition removable (x : elem) : bool :=
  is_last_order_date x || is_last_logged_in x.

Definition is_leaf (x : elem) : bool :=
  match children x with [] => true | _ => false end.

(** In the export format a LastOrderDate entry and a last-logged-in field
    hold a text and nothing else. *)
Definition leaf_if_removable (x : elem) : bool := negb (removable x) || is_leaf x.

Definition leaf_entries (u : elem) : bool :=
  forallb leaf_if_removable (descendants u).

(** A user-group entry that carries the marker. *)
Definition marked (x : elem) : bool := is_user_group x && has_attr "id" marker x.

(** A test that does not read the business-partner-no attribute. *)
Definition ignores_partner (q : elem -> bool) : Prop :=
  forall v e, q (set_attr "business-partner-no" v e) = q e.

(** *** The loop over the mapping table (lines 108-270) *)

(** What survives from one iteration to the next: the source tree (mutated
    in place), the children of [new_root], the log, the counter, and the
    two variables [error_flag] and [error_reason], unbound until their
    first assignment. *)
Record state : Type := State {
  st_root : elem;
  st_out : list elem;
  st_log : list log_row;
  st_found : nat;
  st_error_flag : option bool;
  st_error_reason : option error_reason }.

(** [str(customer.get('id'))] *)
Definition str_attr (o : option string) : string :=
  match o with Some s => s | None => "None" end.

(** [root.find(f'.//i:customer[@id="{current_id}"]', namespaces=ns)]. A
    double quote inside the id ends the quoted literal early and
    ElementPath refuses the rest of the predicate. *)
Definition find_customer (root : elem) (id : string) : result (option elem) :=
  if Text.has_dquote id then Raise SyntaxError
  else Ret (find (is_customer_with id) root).

(** Lines 259-262: read [error_flag], then finish the log row. *)
Definition finish_log (flag : option bool) (why : option error_reason)
    (l : log_row) : result log_row :=
  match flag with
  | None => Raise NameError
  | Some true =>
      match why with
      | None => Raise NameError
      | Some w =>
          Ret (LogRow (log_current_id l) (log_new_id l) NotOK (InvalidValue w))
      end
  | Some false =>
      Ret (LogRow (log_current_id l) (log_new_id l) OK (log_reason l))
  end.

(** The log row of a record that went through lines 126-257. *)
Definition verdict_row (id : string) (r' : row) : log_row :=
  LogRow id (Cell.str (new_customer_id r'))
    (if v_error_flag (validate r') then NotOK else OK)
    (match v_error_flag (validate r'), v_error_reason (validate r') with
     | true, Some w => InvalidValue w
     | _, _ => FoundInSource
     end).

Definition verdict_reason (st : state) (r' : row) : option error_reason :=
  match v_error_reason (validate r') with
  | Some w => Some w
  | None => st_error_reason st
  end.

Section Loop.
Variable today_date : string.
Variable csv : list row.

(** Lines 128-254 for the row [r'] read again from the table. *)
Definition transform_by (id : string) (r' : row) (customer : elem)
  : result elem :=
  transform today_date id
    (new_customer_id r') (new_store_id r') (new_store_name r')
    (new_source_id r') (mandatory_reference r')
    (v_delivery_day (validate r')) customer.

Definition process_row (st : state) (r : row) : result state :=
  let current_id := Cell.str (current_customer_id r) in
  let new_id := Text.strip (Cell.str (new_customer_id r)) in
  found ← find_customer (st_root st) current_id;
  match found with
  | Some customer =>
      let customers_found := S (st_found st) in
      let current_id' := Text.strip (str_attr (get "id" customer)) in
      if decide (current_id' ∈ customer_ids_from_csv csv) then
        r' ← first_row_for csv current_id';
        let v := validate r' in
        let error_reason :=
          match v_error_reason v with
          | Some w => Some w
          | None => st_error_reason st
          end in
        customer' ← transform_by current_id' r' customer;
        let root' :=
          replace_first (is_customer_with current_id) customer' (st_root st) in
        (* line 257: a copy of the record as it now stands *)
        let out' := st_out st ++ [customer'] in
        l ← finish_log (Some (v_error_flag v)) error_reason
              (LogRow current_id' (Cell.str (new_customer_id r')) OK FoundInSource);
        mret (State root' out' (st_log st ++ [l]) customers_found
                (Some (v_error_flag v)) error_reason)
      else
        l ← finish_log (st_error_flag st) (st_error_reason st)
              (LogRow current_id new_id OK NoReason);
        mret (State (st_root st) (st_out st) (st_log st ++ [l]) customers_found
                (st_error_flag st) (st_error_reason st))
  | None =>
      mret (State (st_root st) (st_out st)
              (st_log st ++ [LogRow current_id new_id NotOK NotFoundInSource])
              (st_found st) (st_error_flag st) (st_error_reason st))
  end.

Fixpoint process_rows (st : state) (rows : list row) : result state :=
  match rows with
  | [] => Ret st
  | r :: rows' => st' ← process_row st r; process_rows st' rows'
  end.
End Loop.

(** *** Assembling the two artifacts (lines 274-305) *)

Record artifacts : Type := Artifacts {
  output_xml : elem;
  migration_log : list log_row }.

Definition version_attributes : list string :=
  ["major"; "minor"; "family"; "branch"; "build"].

(** [if root.get(a): new_root.set(a, root.get(a))] *)
Definition copy_attribute (root : elem) (a : string)
    (acc : list (string * string)) : list (string * string) :=
  match get a root with
  | Some v => if String.eqb v EmptyString then acc else attr_set a v acc
  | None => acc
  end.

Definition initial (root : elem) : state := State root [] [] 0 None None.

Definition run (today_date : string) (root : elem) (csv : list row)
  : result artifacts :=
  st ← process_rows today_date csv (initial root) csv;
  schema_location ←
    match get schemaLocation (st_root st) with
    | Some v => Ret v
    | None => Raise TypeError
    end;
  let attrs :=
    fold_left (fun acc a => copy_attribute (st_root st) a acc)
      version_attributes [(schemaLocation, schema_location)] in
  mret (Artifacts (Elem (tag root) attrs None (st_out st)) (st_log st)).

End Migrate.

(** ** Choosing the input files (lines 38-69) *)

Module Files.

(** [str.isdigit] on one character: the decimal digits and the superscripts
    one, two and three. *)
Definition is_digit (c : ascii) : bool :=
  Text.between 48 57 c || Text.between 178 179 c || (Text.code c =? 185)%N.

(** The characters [int] reads as digits. *)
Definition is_decimal (c : ascii) : bool := Text.between 48 57 c.

Fixpoint all_chars (p : ascii -> bool) (s : string) : bool :=
  match s with
  | EmptyString => true
  | String c r => p c && all_chars p r
  end.

(** [s.isdigit()]: every character is a digit and there is at least one. *)
Definition isdigit (s : string) : bool :=
  match s with
  | EmptyString => false
  | _ => all_chars is_digit s
  end.

Fixpoint int_from (acc : Z) (s : string) : Z :=
  match s with
  | EmptyString => acc
  | String c r => int_from (10 * acc + (Z.of_N (Text.code c) - 48)) r
  end.

(** Whether a text is within the interpreter's limit on the digits [int]
    converts ([sys.get_int_max_str_digits()]): 4300 by default and never
    below 640; [None] where there is no limit (before Python 3.11, or a
    limit set to 0). *)
Definition fits (limit : option nat) (s : string) : bool :=
  match limit with
  | Some n => (String.length s <=? n)%nat
  | None => true
  end.

(** [int(s)] for a text that passed [isdigit]. A superscript is a digit but
    no decimal, and [int] refuses it. *)
Definition int_of_digits (limit : option nat) (s : string) : result Z :=
  if all_chars is_decimal s && fits limit s then Ret (int_from 0 s)
  else Raise ValueError.

(** Lines 45-53. [line] is what [input] returned; it is not read when there
    is nothing to choose from. The prompt and the numbered list go to the
    terminal and are left out. *)
Definition select_file (limit : option nat) (files : list string)
    (line : string) : result (option string) :=
  match files with
  | [] => Ret None
  | _ =>
      let selection := Text.strip line in
      if isdigit selection then
        n ← int_of_digits limit selection;
        if (0 <? n) && (n <=? Z.of_nat (length files)) then
          match files !! Z.to_nat (n - 1) with
          | Some f => Ret (Some f)
          | None => Raise IndexError
          end
        else Ret None
      else Ret None
  end.

(** [s.endswith(suffix)] *)
Definition endswith (s suffix : string) : bool :=
  let n := String.length s in
  let m := String.length suffix in
  (m <=? n)%nat && String.eqb (String.substring (n - m) m s) suffix.

Definition last_char (s : string) : option ascii :=
  String.get (String.length s - 1) s.

(** [os.path.join(a, b)] on a POSIX system. *)
Definition path_join (a b : string) : string :=
  match b with
  | String "/" _ => b
  | _ =>
      match a, last_char a with
      | EmptyString, _ => b
      | _, Some "/"%char => a +:+ b
      | _, _ => a +:+ "/" +:+ b
      end
  end.

(** [sorted(l, key=key, reverse=True)]: largest key first; entries with the
    same key keep the order they came in. *)
Fixpoint insert_desc (key : string -> Z) (x : string) (l : list string)
  : list string :=
  match l with
  | [] => [x]
  | y :: l' =>
      if key x <? key y then y :: insert_desc key x l' else x :: l
  end.

Definition sorted_desc (key : string -> Z) (l : list string) : list string :=
  foldr (insert_desc key) [] l.

(** No entry is followed by one with a larger key. *)
Fixpoint newest_first (key : string -> Z) (l : list string) : Prop :=
  match l with
  | [] => True
  | x :: l' => Forall (fun y => key y <= key x) l' /\ newest_first key l'
  end.

(** [l[:count]]: a negative [count] counts from the end. *)
Definition up_to (count : Z) (l : list string) : list string :=
  if 0 <=? count then take (Z.to_nat count) l
  else take (length l - Z.to_nat (- count)) l.

(** Lines 39-42. [listdir] is what [os.listdir(directory)] returned and
    [getmtime] the modification time of a path, in ticks of the clock. *)
Definition get_latest_files (listdir : list string) (getmtime : string -> Z)
    (directory extension : string) (count : Z) : list string :=
  let paths :=
    map (path_join directory)
      (filter (fun filename => endswith filename extension = true) listdir) in
  up_to count (sorted_desc getmtime paths).

Definition csv_directory : string := "input".
Definition xml_directory : string := "input".

Definition example_csv : string :=
  "input/examples/Example Customer Migration List.csv".
Definition example_xml : string :=
  "input/examples/Example Full Customer Export from MekB2BNO.xml".

(** [selected if selected else example] (lines 68-69): None and the empty
    text both count as no selection. *)
Definition or_example (selected : option string) (example : string) : string :=
  match selected with
  | Some (String _ _ as s) => s
  | _ => example
  end.

(** Lines 60-69 for one kind of file. *)
Definition input_file (limit : option nat) (listdir : list string)
    (getmtime : string -> Z) (directory extension example line : string)
  : result string :=
  selected ←
    select_file limit (get_latest_files listdir getmtime directory extension 5)
      line;
  mret (or_example selected example).

End Files.

(** ** Accounts of a record before and after a step *)

Module Accounts.
Import Xml Migrate.

(** The accounts among a list of elements, in the order of the list. *)
Definition users (l : list elem) : list elem :=
  filter (fun x => is_user x = true) l.

(** A test that does not read the text nor the dt:dt attribute. *)
Definition ignores_datatype (q : elem -> bool) : Prop :=
  forall dt v e, q (set_attr dt_dt dt (set_text v e)) = q e.

(** [u'] is the account [u] after a step that is of no concern to the two
    tests: the step leaves the census alone and keeps the entries leaves. *)
Definition kept (p m : elem -> bool) (u u' : elem) : Prop :=
  stable p m u u' /\ (leaf_entries u = true -> leaf_entries u' = true).

End Accounts.

(** ** The texts lxml accepts *)

Module Lxml.

(** lxml refuses a text or an attribute value that XML cannot carry
    (ValueError: all strings must be XML compatible). Below 256 these are
    the control characters other than tab, line feed and carriage return. *)
Definition is_xml_char (c : ascii) : bool :=
  Text.between 32 255 c
  || (Text.code c =? 9)%N || (Text.code c =? 10)%N || (Text.code c =? 13)%N.

Definition xml_text (s : string) : bool := Files.all_chars is_xml_char s.

End Lxml.

(** ** Sample documents and mapping rows *)

Module Samples.
Import Xml Migrate.

Definition attribute (name value : string) : elem :=
  Elem (i_ "custom-attribute") [("name", name)] (Some value) [].

Definition group (id : string) : elem :=
  Elem (i_ "user-group") [("id", id)] None [].

Definition last_logged_in (t : string) : elem :=
  Elem (i_ "last-logged-in") [] (Some t) [].

Definition account (partner : string) (credentials groups attributes : list elem)
  : elem :=
  Elem (i_ "user") [("business-partner-no", partner)] None
    [ Elem (i_ "profile") [] None
        [Elem (i_ "creation-date") [] (Some "2020-01-01T00:00:00+00:00") []];
      Elem (i_ "credentials") [] None credentials;
      Elem (i_ "user-groups") [] None groups;
      Elem (i_ "custom-attributes") [] None attributes ].

Definition customer (id : string) (attributes users : list elem) : elem :=
  Elem (i_ "customer") [("id", id)] None
    [ Elem (i_ "custom-attributes") [] None attributes;
      Elem (i_ "users") [] None users ].

Definition export (customers : list elem) : elem :=
  Elem (i_ "customers") [(schemaLocation, "customer.xsd"); ("major", "6")] None
    customers.

(** The same export without the schema reference on its root. *)
Definition export_without_schema (customers : list elem) : elem :=
  Elem (i_ "customers") [("major", "6")] None customers.

Definition today : string := "2024-05-01T00:00:00+00:00".

(** An account as the export has it: one field of each kind. *)
Definition plain_account : elem :=
  account "1001" [last_logged_in "2023"] [group "CG_Old"]
    [attribute "LastOrderDate" "2022"].

Definition plain_customer : elem :=
  customer "1001" [attribute "MEK_Store_Id" "5"] [plain_account].

(** The scenario of the specification: (1001, 9001, 77, Store A, SRC1,
    true, -2D). *)
Definition good_row : row :=
  Row (CInt 1001) (CInt 9001) (CInt 77) (CStr "Store A") (CStr "SRC1")
    (CBool true) (CStr "-2D").

(** A record whose id carries a leading blank, and the row that names it. *)
Definition spaced_customer : elem := customer " A1" [] [].
Definition spaced_row : row :=
  Row (CStr " A1") (CInt 9001) (CInt 77) (CStr "Store A") (CStr "SRC1")
    (CBool true) (CStr "-2D").

(** A row whose delivery day is malformed. *)
Definition bad_day_row : row :=
  Row (CInt 1001) (CInt 9001) (CInt 77) (CStr "Store A") (CStr "SRC1")
    (CBool true) (CStr "-15D").

(** What the transformation makes of [c] for the row [r'], when it ends. *)
Definition migrated (id : string) (r' : row) (c : elem) : elem :=
  match transform_by today id r' c with
  | Ret c' => c'
  | _ => c
  end.

(** What the account loop makes of [u] for the row (1001, 9001, ...), when
    it ends. *)
Definition migrated_account (u : elem) : elem :=
  match migrate_user today "1001" (CInt 9001) u with
  | Ret u' => u'
  | _ => u
  end.

(** A record that already carries the order-number-mandatory attribute. *)
Definition flagged_customer : elem :=
  customer "1001"
    [attribute "MEK_Store_Id" "5";
     attribute "MEK_CustomerOrderNumberMandatory" "false"]
    [].

(** Rows with an empty field: pandas reads an empty field as NaN. *)
Definition no_store_row : row :=
  Row (CInt 1001) (CInt 9001) CNaN (CStr "Store A") (CStr "SRC1")
    (CBool true) (CStr "-2D").

Definition no_mandatory_row : row :=
  Row (CInt 1001) (CInt 9001) (CInt 77) (CStr "Store A") (CStr "SRC1")
    CNaN (CStr "-2D").

(** The texts of the attributes called [name] in a record. *)
Definition attribute_texts (name : string) (c : elem) : list (option string) :=
  map text (findall (named_attribute name) c).

(** An account that is already a member twice over. *)
Definition twice_marked_customer : elem :=
  customer "1001" []
    [account "1001" [] [group "CG_Mekonomen"; group "CG_Mekonomen"] []].

(** An account whose credentials carry two last-logged-in fields. *)
Definition twice_logged_customer : elem :=
  customer "1001" []
    [account "1001" [last_logged_in "2022"; last_logged_in "2023"] []
       [attribute "LastOrderDate" "a"; attribute "Other" "b";
        attribute "LastOrderDate" "c"]].

(** A row that keeps the id of the record it moves to another store. *)
Definition same_id_row : row :=
  Row (CInt 1001) (CInt 1001) (CInt 77) (CStr "Store A") (CStr "SRC1")
    (CBool true) (CStr "-2D").

(** The state after one more row of the table [csv], when the row ends. *)
Definition after_row (csv : list row) (st : state) (r : row) : state :=
  match process_row today csv st r with
  | Ret st' => st'
  | _ => st
  end.
(** The input directory of a sample run: six mapping tables, an export and
    a file of another kind, with their modification times. *)
Definition listing : list string :=
  ["old.csv"; "notes.txt"; "a.csv"; "b.csv"; "c.csv"; "d.csv"; "e.csv";
   "export.xml"].

Definition mtime (path : string) : Z :=
  if String.eqb path "input/old.csv" then 1
  else if String.eqb path "input/a.csv" then 5
  else if String.eqb path "input/b.csv" then 7
  else if String.eqb path "input/c.csv" then 5
  else if String.eqb path "input/d.csv" then 9
  else if String.eqb path "input/e.csv" then 3
  else 8.

(** What a run makes of [root] and [csv], when it ends. *)
Definition produced (root : elem) (csv : list row) : artifacts :=
  match run today root csv with
  | Ret a => a
  | _ => Artifacts root []
  end.

(** A row for a customer the export does not hold. *)
Definition stranger_row : row :=
  Row (CInt 4711) (CStr " 9002 ") (CInt 77) (CStr "Store A") (CStr "SRC1")
    (CBool true) (CStr "-2D").

(** An export whose root carries an empty minor version. *)
Definition versioned_export (customers : list elem) : elem :=
  Elem (i_ "customers")
    [(schemaLocation, "customer.xsd"); ("major", "6"); ("minor", "");
     ("vendor", "x")] None customers.

(** What the account loop makes of the record [c] for the row (1001, 9001,
    ...), when it ends. *)
Definition accounts_migrated (c : elem) : elem :=
  match migrate_users today "1001" (CInt 9001) c with
  | Ret c' => c'
  | _ => c
  end.

(** A record with two accounts. *)
Definition two_account_customer : elem :=
  customer "1001" []
    [plain_account;
     account "77" [] [group "CG_Mekonomen"] [attribute "Other" "b"]].



(** An account whose last-logged-in field sits one level too deep. *)
Definition nested_field_account : elem :=
  account "1001" [Elem (i_ "login") [] None [last_logged_in "2023"]] [] [].
(** A row whose delivery day goes on after the pattern. *)
Definition trailing_day_row : row :=
  Row (CInt 1001) (CInt 9001) (CInt 77) (CStr "Store A") (CStr "SRC1")
    (CBool true) (CStr "-1D x").

(** An account whose first group-membership collection, in document order,
    sits inside a LastOrderDate entry. *)
Definition hidden_groups_account : elem :=
  Elem (i_ "user") [("business-partner-no", "1001")] None
    [ Elem (i_ "custom-attributes") [] None
        [Elem (i_ "custom-attribute") [("name", "LastOrderDate")] None
           [Elem (i_ "user-groups") [] None []]];
      Elem (i_ "user-groups") [] None [group "CG_Old"] ].

Definition hidden_groups_customer : elem :=
  customer "1001" [] [hidden_groups_account].

(** An account whose first custom-attribute collection, in document order,
    sits inside a last-logged-in field. *)
Definition hidden_attributes_account : elem :=
  Elem (i_ "user") [("business-partner-no", "1001")] None
    [ Elem (i_ "credentials") [] None
        [Elem (i_ "last-logged-in") [] None
           [Elem (i_ "custom-attributes") [] None
              [attribute "LastOrderDate" "2021"]]];
      Elem (i_ "custom-attributes") [] None
        [attribute "LastOrderDate" "2022"] ].

Definition hidden_attributes_customer : elem :=
  customer "1001" [] [hidden_attributes_account].

(** A table that names the record with the blank after a plain one. *)
Definition plain_then_spaced : list row := [good_row; spaced_row].
End Samples.

(** ** Properties *)

(** *** Facts about outcomes *)

Section ResultFacts.

Lemma result_bind_inv {A B} (m : result A) (f : A -> result B) (b : B) :
  m ≫= f = Ret b -> exists a, m = Ret a /\ f a = Ret b.
Proof. destruct m as [a| |]; try discriminate. intros H. now exists a. Qed.

Lemma result_fmap_inv {A B} (m : result A) (f : A -> B) (b : B) :
  f <$> m = Ret b -> exists a, m = Ret a /\ f a = b.
Proof.
  destruct m as [a| |]; try discriminate. intros [= H]. now exists a.
Qed.

End ResultFacts.

(** *** Facts about trees and the queries *)

Section TreeFacts.
Import Xml.

Lemma elem_induction (P : elem -> Prop) :
  (forall t a x ks, Forall P ks -> P (Elem t a x ks)) -> forall e, P e.
Proof.
  intros H. fix IH 1. intros [t a x ks]. apply H.
  induction ks as [|k ks IHks]; constructor; [apply IH | exact IHks].
Qed.

Lemma iter_unfold (e : elem) : iter e = e :: descendants e.
Proof. destruct e; reflexivity. Qed.

Lemma head_filter_app {A} (P : A -> Prop) `{!forall x, Decision (P x)}
    (l1 l2 : list A) :
  head (filter P (l1 ++ l2))
  = match head (filter P l1) with Some x => Some x | None => head (filter P l2) end.
Proof. rewrite filter_app. destruct (filter P l1); reflexivity. Qed.

Lemma find_unfold (p : elem -> bool) (e : elem) :
  find p e = find_in p (children e).
Proof. reflexivity. Qed.


Lemma find_in_cons (p : elem -> bool) (k : elem) (ks : list elem) :
  find_in p (k :: ks)
  = if p k then Some k
    else match find p k with Some c => Some c | None => find_in p ks end.
Proof.
  unfold find_in at 1. simpl. rewrite head_filter_app, iter_unfold.
  rewrite filter_cons. destruct (p k) eqn:Hp.
  - rewrite decide_True by reflexivity. reflexivity.
  - rewrite decide_False by discriminate. reflexivity.
Qed.

Lemma find_in_holds (p : elem -> bool) (ks : list elem) (c : elem) :
  find_in p ks = Some c -> p c = true.
Proof.
  unfold find_in. intros H. apply head_Some_elem_of in H.
  apply list_elem_of_filter in H. tauto.
Qed.

Lemma find_holds (p : elem -> bool) (e c : elem) :
  find p e = Some c -> p c = true.
Proof. apply find_in_holds. Qed.

Lemma update_first_unfold p f t a x ks :
  update_first p f (Elem t a x ks)
  = fmap (M := option) (fmap (Elem t a x)) (update_first_in p f ks).
Proof. reflexivity. Qed.

Lemma update_first_in_cons p f k ks :
  update_first_in p f (k :: ks)
  = if p k then Some (k' ← f k; mret (k' :: ks))
    else match update_first p f k with
         | Some r => Some (k' ← r; mret (k' :: ks))
         | None => fmap (M := option) (fmap (cons k)) (update_first_in p f ks)
         end.
Proof. reflexivity. Qed.

Lemma map_where_unfold p f t a x ks :
  map_where p f (Elem t a x ks) = fmap (Elem t a x) (map_where_in p f ks).
Proof. reflexivity. Qed.

Lemma map_where_in_cons p f k ks :
  map_where_in p f (k :: ks)
  = (k' ← (if p k then f k else map_where p f k);
     ks' ← map_where_in p f ks;
     mret (k' :: ks')).
Proof. reflexivity. Qed.

Ltac result_simpl :=
  cbn [fmap result_fmap mbind result_bind mret result_ret option_fmap option_map].

Lemma update_first_in_spec p ks :
  Forall (update_first_is_replace p) ks ->
  forall f, update_first_in p f ks
    = match find_in p ks with
      | None => None
      | Some c => Some (fmap (fun c' => replace_first_in p c' ks) (f c))
      end.
Proof.
  induction 1 as [|k ks Hk Hks IH]; intros f.
  - reflexivity.
  - rewrite find_in_cons, update_first_in_cons.
    destruct (p k) eqn:Hp.
    + f_equal. destruct (f k); result_simpl; try reflexivity.
      unfold replace_first_in. rewrite update_first_in_cons, Hp. reflexivity.
    + rewrite Hk. destruct (find p k) as [c|] eqn:Hc.
      * f_equal. destruct (f c); result_simpl; try reflexivity.
        unfold replace_first_in. rewrite update_first_in_cons, Hp, Hk, Hc.
        reflexivity.
      * rewrite IH. destruct (find_in p ks) as [c|] eqn:Hc'; [|reflexivity].
        result_simpl. f_equal. destruct (f c); result_simpl; try reflexivity.
        unfold replace_first_in.
        rewrite update_first_in_cons, Hp, Hk, Hc, !IH. reflexivity.
Qed.

Lemma update_first_spec p e : update_first_is_replace p e.
Proof.
  induction e as [t a x ks IH] using elem_induction. intros f.
  rewrite update_first_unfold, find_unfold. cbn [children].
  rewrite (update_first_in_spec p ks IH).
  destruct (find_in p ks) as [c|] eqn:Hc; [|reflexivity].
  result_simpl. f_equal. destruct (f c); result_simpl; try reflexivity.
  unfold replace_first. rewrite update_first_unfold.
  rewrite (update_first_in_spec p ks IH), Hc. result_simpl.
  unfold replace_first_in. rewrite (update_first_in_spec p ks IH), Hc.
  reflexivity.
Qed.

Lemma update_found_spec p f e :
  update_found p f e
  = match find p e with
    | None => Ret e
    | Some c => fmap (fun c' => replace_first p c' e) (f c)
    end.
Proof.
  unfold update_found. rewrite update_first_spec.
  destruct (find p e); reflexivity.
Qed.

Lemma replace_first_in_spec p c' ks :
  replace_first_in p c' ks
  = match ks with
    | [] => []
    | k :: ks' =>
        if p k then c' :: ks'
        else match find p k with
             | Some _ => replace_first p c' k :: ks'
             | None => k :: replace_first_in p c' ks'
             end
    end.
Proof.
  destruct ks as [|k ks]; [reflexivity|].
  unfold replace_first_in at 1. rewrite update_first_in_cons.
  destruct (p k); [reflexivity|].
  rewrite update_first_spec. destruct (find p k); [reflexivity|].
  unfold replace_first_in.
  destruct (update_first_in p _ ks) as [[| |]|]; reflexivity.
Qed.

Lemma replace_first_unfold p c' t a x ks :
  replace_first p c' (Elem t a x ks) = Elem t a x (replace_first_in p c' ks).
Proof.
  unfold replace_first, replace_first_in. rewrite update_first_unfold.
  destruct (update_first_in p _ ks) as [[| |]|]; reflexivity.
Qed.

End TreeFacts.

Section Counting.
Import Xml.
Local Open Scope nat_scope.

Variable q : elem -> bool.
Hypothesis q_label : label_only q.

Lemma count_nil : count q [] = 0.
Proof. reflexivity. Qed.

Lemma count_cons (e : elem) (l : list elem) :
  count q (e :: l) = (if q e then 1 else 0) + count q l.
Proof.
  unfold count. rewrite filter_cons. destruct (q e).
  - rewrite decide_True by reflexivity. reflexivity.
  - rewrite decide_False by discriminate. reflexivity.
Qed.

Lemma count_app (l1 l2 : list elem) :
  count q (l1 ++ l2) = count q l1 + count q l2.
Proof. unfold count. rewrite filter_app. apply length_app. Qed.

Lemma count_flat_cons (k : elem) (ks : list elem) :
  count q (flat_map iter (k :: ks)) = count q (iter k) + count q (flat_map iter ks).
Proof. cbn [flat_map]. apply count_app. Qed.

Lemma count_iter (e : elem) :
  count q (iter e) = (if q e then 1 else 0) + count q (descendants e).
Proof. rewrite iter_unfold. apply count_cons. Qed.

Lemma q_replace_first p c' e : q (replace_first p c' e) = q e.
Proof. destruct e. rewrite replace_first_unfold. apply q_label. Qed.

Lemma count_replace_first_in p c' ks :
  Forall (fun e => forall c, find p e = Some c ->
            count q (descendants (replace_first p c' e)) + count q (iter c)
            = count q (descendants e) + count q (iter c')) ks ->
  forall c, find_in p ks = Some c ->
    count q (flat_map iter (replace_first_in p c' ks)) + count q (iter c)
    = count q (flat_map iter ks) + count q (iter c').
Proof.
  induction 1 as [|k ks Hk Hks IH]; intros c Hc.
  - discriminate Hc.
  - rewrite find_in_cons in Hc. rewrite replace_first_in_spec.
    destruct (p k) eqn:Hp.
    + injection Hc as <-. rewrite !count_flat_cons. lia.
    + destruct (find p k) as [c0|] eqn:Hc0.
      * injection Hc as <-. specialize (Hk _ eq_refl).
        rewrite !count_flat_cons, !count_iter, q_replace_first.
        rewrite !count_iter in Hk. lia.
      * specialize (IH _ Hc). rewrite !count_flat_cons. lia.
Qed.

(** Replacing the first match by [c'] changes the census of [q] by what
    [c'] brings and what the match took away. *)
Lemma count_replace_first p c' e c :
  find p e = Some c ->
  count q (descendants (replace_first p c' e)) + count q (iter c)
  = count q (descendants e) + count q (iter c').
Proof.
  revert c. induction e as [t a x ks IH] using elem_induction. intros c Hc.
  rewrite replace_first_unfold. unfold descendants. cbn [children].
  apply count_replace_first_in; assumption.
Qed.

Lemma count_update_found p f e e' :
  (forall c c', p c = true -> f c = Ret c' ->
                count q (iter c') <= count q (iter c)) ->
  update_found p f e = Ret e' ->
  q e' = q e /\ count q (descendants e') <= count q (descendants e).
Proof.
  intros Hf. rewrite update_found_spec.
  destruct (find p e) as [c|] eqn:Hc.
  - destruct (f c) as [c'| |] eqn:Hfc; try discriminate.
    intros [= <-]. split; [apply q_replace_first|].
    pose proof (count_replace_first p c' e c Hc).
    pose proof (Hf c c' (find_holds _ _ _ Hc) Hfc). lia.
  - intros [= <-]. split; [reflexivity | lia].
Qed.

Lemma count_map_where_in p f ks ks' :
  (forall u u', p u = true -> f u = Ret u' ->
                count q (iter u') <= count q (iter u)) ->
  Forall (fun e => forall e', map_where p f e = Ret e' ->
            q e' = q e /\ count q (descendants e') <= count q (descendants e)) ks ->
  map_where_in p f ks = Ret ks' ->
  count q (flat_map iter ks') <= count q (flat_map iter ks).
Proof.
  intros Hf H. revert ks'. induction H as [|k ks Hk Hks IH]; intros ks'.
  - intros [= <-]. reflexivity.
  - rewrite map_where_in_cons.
    destruct (if p k then f k else map_where p f k) as [k'| |] eqn:Hk';
      try discriminate.
    cbn [mbind result_bind].
    destruct (map_where_in p f ks) as [ks''| |] eqn:Hks''; try discriminate.
    intros [= <-]. specialize (IH _ eq_refl). rewrite !count_flat_cons.
    enough (count q (iter k') <= count q (iter k)) by lia.
    destruct (p k) eqn:Hp.
    + apply (Hf _ _ Hp Hk').
    + destruct (Hk _ Hk') as [Hq Hle]. rewrite !count_iter, Hq. lia.
Qed.

Lemma count_map_where p f e e' :
  (forall u u', p u = true -> f u = Ret u' ->
                count q (iter u') <= count q (iter u)) ->
  map_where p f e = Ret e' ->
  q e' = q e /\ count q (descendants e') <= count q (descendants e).
Proof.
  intros Hf. revert e'.
  induction e as [t a x ks IH] using elem_induction. intros e'.
  rewrite map_where_unfold.
  destruct (map_where_in p f ks) as [ks'| |] eqn:Hks; try discriminate.
  intros [= <-]. split; [apply q_label|].
  apply (count_map_where_in p f ks ks' Hf IH Hks).
Qed.


Lemma count_map_text g e : count q (iter (map_text g e)) = count q (iter e).
Proof.
  induction e as [t a x ks IH] using elem_induction.
  cbn [map_text]. rewrite !count_iter. unfold descendants. cbn [children].
  rewrite (q_label t a (g (Elem t a x ks)) _ x ks). f_equal.
  induction IH as [|k ks Hk Hks IHks]; [reflexivity|].
  cbn [map]. rewrite !count_flat_cons. congruence.
Qed.

Lemma count_map_text_below g e :
  count q (descendants (map_text_below g e)) = count q (descendants e).
Proof.
  destruct e as [t a x ks]. unfold map_text_below, descendants. simpl.
  induction ks as [|k ks IH]; [reflexivity|].
  cbn [map]. rewrite !count_flat_cons, count_map_text. congruence.
Qed.

Lemma count_filter_children (P : elem -> Prop) `{!forall x, Decision (P x)} ks :
  count q (flat_map iter (filter P ks)) <= count q (flat_map iter ks).
Proof.
  induction ks as [|k ks IH]; [reflexivity|].
  rewrite filter_cons. destruct (decide (P k)); rewrite !count_flat_cons; lia.
Qed.

End Counting.

(** *** The loop, case by case *)

Section LoopFacts.
Import Xml Migrate.

Variable today_date : string.
Variable csv : list row.

Lemma has_attr_get (k v : string) (e : elem) :
  has_attr k v e = true -> get k e = Some v.
Proof.
  unfold has_attr. destruct (get k e) as [v'|]; [|discriminate].
  intros H. apply String.eqb_eq in H. now subst.
Qed.

Lemma found_customer_id (id : string) (root c : elem) :
  find (is_customer_with id) root = Some c -> get "id" c = Some id.
Proof.
  intros H. apply find_holds in H. unfold is_customer_with in H.
  apply andb_true_iff in H. now apply has_attr_get.
Qed.

Lemma validate_reason (r : row) :
  v_error_flag (validate r) = true ->
  exists w, v_error_reason (validate r) = Some w.
Proof.
  unfold validate. destruct (blank (delivery_day r)).
  - simpl. destruct (missing_values r); [eauto | discriminate].
  - destruct (Text.match_delivery_day _); simpl; [|eauto].
    destruct (missing_values r); [eauto | discriminate].
Qed.

Lemma first_row_for_listed (id : string) (r' : row) :
  first_row_for csv id = Ret r' ->
  id ∈ customer_ids_from_csv csv /\ current_str r' = id /\ In r' csv.
Proof.
  unfold first_row_for.
  destruct (List.find _ csv) as [r0|] eqn:H; [|discriminate].
  intros [= ->]. apply List.find_some in H as [Hin Heq].
  apply String.eqb_eq in Heq. repeat split; auto.
  unfold customer_ids_from_csv. apply elem_of_list_to_set.
  apply list_elem_of_In. rewrite <- Heq. now apply List.in_map.
Qed.

Lemma listed_first_row_for (id : string) :
  id ∈ customer_ids_from_csv csv -> exists r', first_row_for csv id = Ret r'.
Proof.
  unfold customer_ids_from_csv, first_row_for. rewrite elem_of_list_to_set.
  intros H. apply list_elem_of_In, List.in_map_iff in H as (r0 & Heq & Hin).
  destruct (List.find _ csv) as [r1|] eqn:Hf; [eauto|].
  apply (List.find_none _ _ Hf) in Hin.
  apply String.eqb_neq in Hin. contradiction.
Qed.

Lemma process_row_not_found (st : state) (r : row) :
  find_customer (st_root st) (Cell.str (current_customer_id r)) = Ret None ->
  process_row today_date csv st r
  = Ret (State (st_root st) (st_out st)
           (st_log st ++ [LogRow (Cell.str (current_customer_id r))
                            (Text.strip (Cell.str (new_customer_id r)))
                            NotOK NotFoundInSource])
           (st_found st) (st_error_flag st) (st_error_reason st)).
Proof. intros H. unfold process_row. rewrite H. reflexivity. Qed.

Lemma process_row_unlisted (st : state) (r : row) (customer : elem) :
  let id := Cell.str (current_customer_id r) in
  find_customer (st_root st) id = Ret (Some customer) ->
  Text.strip id ∉ customer_ids_from_csv csv ->
  process_row today_date csv st r
  = (l ← finish_log (st_error_flag st) (st_error_reason st)
           (LogRow id (Text.strip (Cell.str (new_customer_id r))) OK NoReason);
     mret (State (st_root st) (st_out st) (st_log st ++ [l]) (S (st_found st))
             (st_error_flag st) (st_error_reason st))).
Proof.
  intros id Hf Hn. unfold process_row. fold id. rewrite Hf.
  cbn [mbind result_bind].
  assert (Hid : get "id" customer = Some id).
  { unfold find_customer in Hf. destruct (Text.has_dquote id); [discriminate|].
    injection Hf as Hf. eapply found_customer_id, Hf. }
  rewrite Hid. cbn [str_attr].
  destruct (decide (Text.strip id ∈ customer_ids_from_csv csv)); [contradiction|].
  reflexivity.
Qed.

Lemma process_row_listed (st : state) (r r' : row) (customer c' : elem) :
  let id := Cell.str (current_customer_id r) in
  find_customer (st_root st) id = Ret (Some customer) ->
  first_row_for csv (Text.strip id) = Ret r' ->
  transform_by today_date (Text.strip id) r' customer = Ret c' ->
  process_row today_date csv st r
  = Ret (State (replace_first (is_customer_with id) c' (st_root st))
           (st_out st ++ [c'])
           (st_log st ++ [verdict_row (Text.strip id) r'])
           (S (st_found st))
           (Some (v_error_flag (validate r')))
           (verdict_reason st r')).
Proof.
  intros id Hf Hr Ht. unfold process_row. fold id. rewrite Hf.
  cbn [mbind result_bind].
  assert (Hid : get "id" customer = Some id).
  { unfold find_customer in Hf. destruct (Text.has_dquote id); [discriminate|].
    injection Hf as Hf. eapply found_customer_id, Hf. }
  rewrite Hid. cbn [str_attr].
  destruct (decide (Text.strip id ∈ customer_ids_from_csv csv)) as [_|Hn].
  2:{ exfalso. apply Hn. now apply first_row_for_listed in Hr. }
  rewrite Hr. cbn [mbind result_bind]. rewrite Ht. cbn [mbind result_bind].
  unfold verdict_row, verdict_reason.
  destruct (v_error_flag (validate r')) eqn:Hflag.
  - destruct (validate_reason _ Hflag) as [w Hw]. rewrite Hw. reflexivity.
  - reflexivity.
Qed.

(** Every way a row can be processed without an exception. *)
Lemma process_row_inv (st st' : state) (r : row) :
  process_row today_date csv st r = Ret st' ->
  let id := Cell.str (current_customer_id r) in
  (find_customer (st_root st) id = Ret None
   /\ st' = State (st_root st) (st_out st)
              (st_log st ++ [LogRow id (Text.strip (Cell.str (new_customer_id r)))
                               NotOK NotFoundInSource])
              (st_found st) (st_error_flag st) (st_error_reason st))
  \/ (exists customer l,
        find_customer (st_root st) id = Ret (Some customer)
        /\ (Text.strip id ∉ customer_ids_from_csv csv)
        /\ st' = State (st_root st) (st_out st) (st_log st ++ [l])
                   (S (st_found st)) (st_error_flag st) (st_error_reason st))
  \/ (exists customer r' c',
        find_customer (st_root st) id = Ret (Some customer)
        /\ first_row_for csv (Text.strip id) = Ret r'
        /\ transform_by today_date (Text.strip id) r' customer = Ret c'
        /\ st' = State (replace_first (is_customer_with id) c' (st_root st))
                   (st_out st ++ [c'])
                   (st_log st ++ [verdict_row (Text.strip id) r'])
                   (S (st_found st))
                   (Some (v_error_flag (validate r')))
                   (verdict_reason st r')).
Proof.
  intros H id.
  destruct (find_customer (st_root st) id) as [[customer|]| |] eqn:Hf.
  - destruct (decide (Text.strip id ∈ customer_ids_from_csv csv)) as [Hin|Hn].
    + right; right. destruct (listed_first_row_for _ Hin) as [r' Hr].
      destruct (transform_by today_date (Text.strip id) r' customer)
        as [c'| |] eqn:Ht.
      * rewrite (process_row_listed st r r' customer c' Hf Hr Ht) in H.
        injection H as <-. exists customer, r', c'. auto.
      * exfalso. revert H. unfold process_row. fold id. rewrite Hf.
        cbn [mbind result_bind].
        assert (Hid : get "id" customer = Some id).
        { unfold find_customer in Hf.
          destruct (Text.has_dquote id); [discriminate|].
          injection Hf as Hf. eapply found_customer_id, Hf. }
        rewrite Hid. cbn [str_attr].
        destruct (decide _); [|contradiction].
        rewrite Hr. cbn [mbind result_bind]. rewrite Ht. discriminate.
      * exfalso. revert H. unfold process_row. fold id. rewrite Hf.
        cbn [mbind result_bind].
        assert (Hid : get "id" customer = Some id).
        { unfold find_customer in Hf.
          destruct (Text.has_dquote id); [discriminate|].
          injection Hf as Hf. eapply found_customer_id, Hf. }
        rewrite Hid. cbn [str_attr].
        destruct (decide _); [|contradiction].
        rewrite Hr. cbn [mbind result_bind]. rewrite Ht. discriminate.
    + right; left. rewrite (process_row_unlisted st r customer Hf Hn) in H.
      fold id in H.
      destruct (finish_log _ _ _) as [l| |]; try discriminate.
      injection H as <-. exists customer, l. auto.
  - left. rewrite (process_row_not_found st r Hf) in H. injection H as <-. auto.
  - exfalso. unfold process_row in H. fold id in H. rewrite Hf in H. discriminate.
  - exfalso. unfold process_row in H. fold id in H. rewrite Hf in H. discriminate.
Qed.

End LoopFacts.

(** *** What the transformation leaves alone on the record itself *)

Section Labels.
Import Xml Migrate.

Lemma same_label_refl e : same_label e e.
Proof. repeat split. Qed.

Lemma same_label_trans e1 e2 e3 :
  same_label e1 e2 -> same_label e2 e3 -> same_label e1 e3.
Proof. unfold same_label. intros (?&?&?) (?&?&?). repeat split; congruence. Qed.

Lemma replace_first_label p c e : same_label e (replace_first p c e).
Proof. destruct e. rewrite replace_first_unfold. repeat split. Qed.

Lemma update_found_label p f e e' :
  update_found p f e = Ret e' -> same_label e e'.
Proof.
  rewrite update_found_spec. destruct (find p e) as [c|].
  - destruct (f c); try discriminate. intros [= <-]. apply replace_first_label.
  - intros [= <-]. apply same_label_refl.
Qed.

Lemma map_where_label p f e e' :
  map_where p f e = Ret e' -> same_label e e'.
Proof.
  destruct e as [t a x ks]. rewrite map_where_unfold.
  destruct (map_where_in p f ks); try discriminate.
  intros [= <-]. repeat split.
Qed.

Lemma insert_attribute_label name value dt e e' :
  insert_attribute name value dt e = Ret e' -> same_label e e'.
Proof.
  unfold insert_attribute. destruct (find is_custom_attributes e).
  - apply update_found_label.
  - destruct (put_attribute _ _ _ _); try discriminate.
    intros [= <-]. repeat split.
Qed.

Lemma attr_get_set (k v : string) a : attr_get k (attr_set k v a) = Some v.
Proof.
  induction a as [|[k' v'] a IH]; simpl.
  - now rewrite String.eqb_refl.
  - destruct (String.eqb k' k) eqn:E; simpl.
    + now rewrite String.eqb_refl.
    + now rewrite E.
Qed.

(** The record keeps its tag, and its attributes are the old ones with
    the id rewritten. *)
Lemma transform_label today id n s1 s2 s3 m d c c' :
  transform today id n s1 s2 s3 m d c = Ret c' ->
  tag c' = tag c /\ attrib c' = attr_set "id" (Cell.str n) (attrib c).
Proof.
  unfold transform, migrate_users.
  set (c0 := set_attr "id" (Cell.str n) c).
  set (c1 := rewrite_attributes s1 s2 s3 m d c0).
  assert (H1 : same_label c0 c1) by (destruct c; repeat split).
  intros H. apply result_bind_inv in H as (c2 & H2 & H).
  apply result_bind_inv in H as (c3 & H3 & H4).
  destruct (nested_users c3); [discriminate|].
  apply map_where_label in H4.
  assert (H12 : same_label c1 c2).
  { destruct (negb _ && negb _) in H2.
    - now apply insert_attribute_label in H2.
    - injection H2 as <-. apply same_label_refl. }
  assert (H23 : same_label c2 c3).
  { destruct (negb _ && negb _ && negb _) in H3.
    - now apply insert_attribute_label in H3.
    - injection H3 as <-. apply same_label_refl. }
  pose proof (same_label_trans _ _ _ H1
                (same_label_trans _ _ _ H12 (same_label_trans _ _ _ H23 H4)))
    as (Ht & Ha & _).
  split; [exact Ht | exact Ha].
Qed.

Lemma transform_id today id n s1 s2 s3 m d c c' :
  transform today id n s1 s2 s3 m d c = Ret c' ->
  get "id" c' = Some (Cell.str n).
Proof.
  intros H. apply transform_label in H as [_ Ha].
  unfold get. rewrite Ha. apply attr_get_set.
Qed.

Lemma replaced_is_there_in p c' ks :
  Forall (fun e => forall c, find p e = Some c ->
            In c' (descendants (replace_first p c' e))) ks ->
  forall c, find_in p ks = Some c ->
    In c' (flat_map iter (replace_first_in p c' ks)).
Proof.
  induction 1 as [|k ks Hk Hks IH]; intros c Hc; [discriminate Hc|].
  rewrite find_in_cons in Hc. rewrite replace_first_in_spec.
  destruct (p k) eqn:Hp.
  - cbn [flat_map]. apply in_or_app. left. rewrite iter_unfold. now left.
  - destruct (find p k) as [c0|] eqn:Hc0.
    + cbn [flat_map]. apply in_or_app. left. rewrite iter_unfold. right.
      eapply Hk. reflexivity.
    + cbn [flat_map]. apply in_or_app. right. eapply IH, Hc.
Qed.

(** After the replacement the new state of the record is part of the
    tree. *)
Lemma replaced_is_there p c' e c :
  find p e = Some c -> In c' (descendants (replace_first p c' e)).
Proof.
  revert c. induction e as [t a x ks IH] using elem_induction. intros c Hc.
  rewrite replace_first_unfold. unfold descendants. cbn [children].
  eapply replaced_is_there_in; eassumption.
Qed.

End Labels.

(** *** The embedding at work *)

Section Scenario.
Import Xml Migrate Samples.

Example str_of_cells :
  map Cell.str [CInt (-5); CBool true; CNaN; CNone; CStr "A1"; CFloat "77.0"]
  = ["-5"; "True"; "nan"; "None"; "A1"; "77.0"].
Proof. reflexivity. Qed.

Example strip_and_lower :
  Text.strip "  A1 " = "A1" /\ Text.lower "True" = "true".
Proof. split; reflexivity. Qed.

(** The end-to-end scenario of the specification: customer "1001" with
    store identifier "5" and the row (1001, 9001, 77, Store A, SRC1, true,
    -2D). *)
Example end_to_end :
  exists a,
    run today (export [plain_customer]) [good_row] = Ret a
    /\ map (get "id") (children (output_xml a)) = [Some "9001"]
    /\ map (attribute_texts "MEK_Store_Id") (children (output_xml a))
       = [[Some "77"]]
    /\ map (attribute_texts "MEK_CustomerOrderNumberMandatory")
         (children (output_xml a)) = [[Some "true"]]
    /\ map (attribute_texts "MEK_DefaultDeliveryday") (children (output_xml a))
       = [[Some "-2D"]]
    /\ map (fun c => map markers (findall is_user_groups c))
         (children (output_xml a)) = [[1%nat]]
    /\ attrib (output_xml a) = [(schemaLocation, "customer.xsd"); ("major", "6")]
    /\ migration_log a = [LogRow "1001" "9001" OK FoundInSource].
Proof. eexists. split; [vm_compute; reflexivity | repeat split]. Qed.

End Scenario.

(** *** Validation *)

Section Validation.
Import Migrate.

Lemma digit_is_word (c : ascii) :
  Text.between 49 57 c = true -> Text.is_word c = true.
Proof.
  destruct c as [b0 b1 b2 b3 b4 b5 b6 b7].
  destruct b0, b1, b2, b3, b4, b5, b6, b7; vm_compute; congruence.
Qed.

Lemma match_delivery_day_spec (s : string) :
  Text.match_delivery_day s = true <-> conforming s.
Proof.
  unfold conforming. split.
  - destruct s as [|c0 [|c1 [|c2 rest]]]; simpl; try discriminate.
    rewrite !andb_true_iff. intros [[[[H0 _] H1] H2] H3].
    apply Ascii.eqb_eq in H0. apply Ascii.eqb_eq in H2. subst c0 c2.
    exists c1, rest. repeat split; auto.
    unfold Text.boundary in H3. simpl in H3.
    destruct (Text.word_at (Text.head_char rest)); [discriminate H3 | reflexivity].
  - intros (c & rest & -> & Hd & Hw). simpl.
    unfold Text.boundary. simpl. rewrite Hw, Hd, (digit_is_word _ Hd).
    reflexivity.
Qed.

(** The delivery-day check as the code has it. An empty, absent or NaN
    delivery day becomes "-3D" and raises no error; any other value is
    kept, and it is accepted exactly when its text starts with '-', one
    digit 1-9 and 'D' and then ends or goes on with a character outside
    [\w]; every other value sets the error flag with the reason about the
    format. "-1D" is accepted, "-15D" and "3D" are not. *)
Theorem delivery_day_validation :
  (forall r, v_delivery_day (validate r)
             = if blank (delivery_day r) then CStr "-3D" else delivery_day r)
  /\ (forall r, v_error_flag (validate r)
                = missing_values r
                  || negb (blank (delivery_day r))
                     && negb (Text.match_delivery_day (Cell.str (delivery_day r))))
  /\ (forall r, blank (delivery_day r) = false ->
                Text.match_delivery_day (Cell.str (delivery_day r)) = false ->
                v_error_reason (validate r) = Some InvalidDeliveryDay)
  /\ (forall s, Text.match_delivery_day s = true <-> conforming s)
  /\ Text.match_delivery_day "-1D" = true
  /\ Text.match_delivery_day "-15D" = false
  /\ Text.match_delivery_day "3D" = false.
Proof.
  repeat split; try reflexivity.
  - intros r. unfold validate. destruct (blank (delivery_day r)); [reflexivity|].
    destruct (Text.match_delivery_day _); reflexivity.
  - intros r. unfold validate. destruct (blank (delivery_day r)).
    + simpl. now rewrite orb_false_r.
    + destruct (Text.match_delivery_day _); simpl.
      * now rewrite orb_false_r.
      * now rewrite orb_true_r.
  - intros r Hb Hm. unfold validate. now rewrite Hb, Hm.
  - apply match_delivery_day_spec.
  - apply match_delivery_day_spec.
Qed.

(** A text that goes on after "-1D" is accepted. *)
Lemma delivery_day_trailing_text_accepted :
  let r := Row (CInt 1001) (CInt 9001) (CInt 77) (CStr "Store A") (CStr "SRC1")
             (CBool true) (CStr "-1D x") in
  v_error_flag (validate r) = false
  /\ v_delivery_day (validate r) = CStr "-1D x"
  /\ ((exists c, "-1D x" = String "-" (String c (String "D" EmptyString))) -> False).
Proof.
  repeat split. intros [c H]. discriminate H.
Qed.

End Validation.

(** *** The loop: what each row does to the output and to the source *)

Section Orchestration.
Import Xml Migrate.

Lemma find_customer_plain (root : elem) (id : string) :
  Text.has_dquote id = false ->
  find_customer root id = Ret (find (is_customer_with id) root).
Proof. intros H. unfold find_customer. now rewrite H. Qed.

(** C1 (as amended). A row whose record is located and whose stripped id
    is listed in the table has its transformed record appended to the
    output whatever the verdict of the validation is; the verdict only
    decides the status in the log. *)
Theorem located_record_is_appended
    (today : string) (csv : list row) (st : state) (r r' : row)
    (customer c' : elem) :
  let id := Cell.str (current_customer_id r) in
  Text.has_dquote id = false ->
  find (is_customer_with id) (st_root st) = Some customer ->
  first_row_for csv (Text.strip id) = Ret r' ->
  transform_by today (Text.strip id) r' customer = Ret c' ->
  exists st' l,
    process_row today csv st r = Ret st'
    /\ st_out st' = st_out st ++ [c']
    /\ st_log st' = st_log st ++ [l]
    /\ log_status l = (if v_error_flag (validate r') then NotOK else OK).
Proof.
  intros id Hq Hf Hr Ht.
  eexists _, _. split.
  - apply (process_row_listed today csv st r r' customer c').
    + fold id. rewrite find_customer_plain by exact Hq. now rewrite Hf.
    + exact Hr.
    + exact Ht.
  - repeat split.
Qed.

(** C2 (as amended). The transformation works on the matched record
    itself. After the row the source tree holds the transformed record in
    the place of the first match, with the new id; everything else in the
    tree is as before (the census of any test on tags and attributes
    changes by the difference between the two states of the record only);
    and the output receives a copy of the record as transformed. *)
Theorem located_record_is_rewritten_in_place
    (today : string) (csv : list row) (st : state) (r r' : row)
    (customer c' : elem) :
  let id := Cell.str (current_customer_id r) in
  Text.has_dquote id = false ->
  find (is_customer_with id) (st_root st) = Some customer ->
  first_row_for csv (Text.strip id) = Ret r' ->
  transform_by today (Text.strip id) r' customer = Ret c' ->
  exists st',
    process_row today csv st r = Ret st'
    /\ st_root st' = replace_first (is_customer_with id) c' (st_root st)
    /\ In c' (descendants (st_root st'))
    /\ get "id" c' = Some (Cell.str (new_customer_id r'))
    /\ same_label (st_root st) (st_root st')
    /\ (forall q, label_only q ->
          (count q (descendants (st_root st')) + count q (iter customer)
           = count q (descendants (st_root st)) + count q (iter c'))%nat)
    /\ last (st_out st') = Some c'.
Proof.
  intros id Hq Hf Hr Ht.
  eexists. split.
  - apply (process_row_listed today csv st r r' customer c').
    + fold id. rewrite find_customer_plain by exact Hq. now rewrite Hf.
    + exact Hr.
    + exact Ht.
  - cbn [st_root st_out].
    split; [reflexivity|].
    split; [eapply replaced_is_there, Hf|].
    split; [eapply transform_id, Ht|].
    split; [apply replace_first_label|].
    split; [|apply last_snoc].
    intros q Hql. now apply count_replace_first.
Qed.

End Orchestration.

Section OrchestrationExamples.
Import Xml Migrate Samples.

Lemma located_record_is_appended_witness :
  exists st' l,
    process_row today [bad_day_row] (initial (export [plain_customer])) bad_day_row
    = Ret st'
    /\ st_out st' = [] ++ [migrated "1001" bad_day_row plain_customer]
    /\ st_log st' = [] ++ [l]
    /\ log_status l = NotOK.
Proof.
  apply (located_record_is_appended today [bad_day_row]
           (initial (export [plain_customer])) bad_day_row bad_day_row
           plain_customer (migrated "1001" bad_day_row plain_customer));
    vm_compute; reflexivity.
Defined.

(** C1 as stated fails: the row is logged Not OK and its record is in the
    output document all the same. *)
Lemma invalid_row_is_in_the_output :
  exists a,
    run today (export [plain_customer]) [bad_day_row] = Ret a
    /\ map (get "id") (children (output_xml a)) = [Some "9001"]
    /\ map log_status (migration_log a) = [NotOK]
    /\ map log_reason (migration_log a) = [InvalidValue InvalidDeliveryDay].
Proof. eexists. split; [vm_compute; reflexivity | repeat split]. Qed.

Lemma located_record_is_rewritten_in_place_witness :
  exists st',
    process_row today [good_row] (initial (export [plain_customer])) good_row
    = Ret st'
    /\ st_root st'
       = replace_first (is_customer_with "1001")
           (migrated "1001" good_row plain_customer) (export [plain_customer])
    /\ In (migrated "1001" good_row plain_customer) (descendants (st_root st'))
    /\ get "id" (migrated "1001" good_row plain_customer) = Some "9001"
    /\ same_label (export [plain_customer]) (st_root st')
    /\ (forall q, label_only q ->
          (count q (descendants (st_root st')) + count q (iter plain_customer)
           = count q (descendants (export [plain_customer]))
             + count q (iter (migrated "1001" good_row plain_customer)))%nat)
    /\ last (st_out st') = Some (migrated "1001" good_row plain_customer).
Proof.
  apply (located_record_is_rewritten_in_place today [good_row]
           (initial (export [plain_customer])) good_row good_row
           plain_customer (migrated "1001" good_row plain_customer));
    vm_compute; reflexivity.
Defined.

(** C2 as stated fails: after the row the source tree has no record
    "1001" any more; its only record now carries the id "9001". *)
Lemma source_tree_is_changed :
  exists st',
    process_row today [good_row] (initial (export [plain_customer])) good_row
    = Ret st'
    /\ map (get "id") (children (export [plain_customer])) = [Some "1001"]
    /\ map (get "id") (children (st_root st')) = [Some "9001"]
    /\ find (is_customer_with "1001") (st_root st') = None.
Proof. eexists. split; [vm_compute; reflexivity | repeat split]. Qed.

End OrchestrationExamples.

(** *** Replacing the first match: further facts *)

Section ReplaceFacts.
Import Xml.

Variable p : elem -> bool.

Lemma replace_first_in_same (ks : list elem) :
  Forall (fun e => forall c, find p e = Some c -> replace_first p c e = e) ks ->
  forall c, find_in p ks = Some c -> replace_first_in p c ks = ks.
Proof.
  induction 1 as [|k ks Hk Hks IH]; intros c Hc; [discriminate Hc|].
  rewrite find_in_cons in Hc. rewrite replace_first_in_spec.
  destruct (p k) eqn:Hp.
  - now injection Hc as <-.
  - destruct (find p k) as [c0|] eqn:Hc0.
    + injection Hc as <-. now rewrite (Hk c0).
    + now rewrite (IH c).
Qed.

(** Putting the first match back as it is changes nothing. *)
Lemma replace_first_same (e c : elem) :
  find p e = Some c -> replace_first p c e = e.
Proof.
  revert c. induction e as [t a x ks IH] using elem_induction. intros c Hc.
  rewrite replace_first_unfold. f_equal.
  apply replace_first_in_same; assumption.
Qed.

Hypothesis p_label : label_only p.

Lemma p_replace_first (c' e : elem) : p (replace_first p c' e) = p e.
Proof. destruct e. rewrite replace_first_unfold. apply p_label. Qed.

Lemma find_replace_first_in (c' : elem) (ks : list elem) :
  p c' = true ->
  Forall (fun e => forall c, find p e = Some c ->
            find p (replace_first p c' e) = Some c') ks ->
  forall c, find_in p ks = Some c ->
    find_in p (replace_first_in p c' ks) = Some c'.
Proof.
  intros Hc'. induction 1 as [|k ks Hk Hks IH]; intros c Hc; [discriminate Hc|].
  rewrite find_in_cons in Hc. rewrite replace_first_in_spec.
  destruct (p k) eqn:Hp.
  - rewrite find_in_cons, Hc'. reflexivity.
  - destruct (find p k) as [c0|] eqn:Hc0.
    + rewrite find_in_cons, p_replace_first, Hp, (Hk c0 eq_refl). reflexivity.
    + rewrite find_in_cons, Hp, Hc0. eapply IH, Hc.
Qed.

(** The replacement is what the same query finds afterwards. *)
Lemma find_replace_first (c' e c : elem) :
  p c' = true -> find p e = Some c -> find p (replace_first p c' e) = Some c'.
Proof.
  intros Hc'. revert c. induction e as [t a x ks IH] using elem_induction.
  intros c Hc. rewrite replace_first_unfold, find_unfold. cbn [children].
  eapply find_replace_first_in; eassumption.
Qed.

End ReplaceFacts.

Section CountFacts.
Import Xml.
Local Open Scope nat_scope.

Lemma existsb_count (q : elem -> bool) (l : list elem) :
  existsb q l = negb (count q l =? 0).
Proof.
  induction l as [|e l IH]; [reflexivity|].
  cbn [existsb]. rewrite count_cons, IH. destruct (q e); [reflexivity|].
  reflexivity.
Qed.

Lemma is_tag_label (t : string) : label_only (is_tag t).
Proof. intros ? ? ? ? ? ?. reflexivity. Qed.


Lemma findall_append_leaf (q : elem -> bool) (e k : elem) :
  children k = [] ->
  findall q (append_child k e)
  = findall q e ++ (if q k then [k] else []).
Proof.
  intros Hk. unfold findall, descendants, append_child. cbn [children set_children].
  rewrite flat_map_app, filter_app. f_equal.
  cbn [flat_map]. rewrite app_nil_r, iter_unfold. unfold descendants.
  rewrite Hk. cbn [flat_map]. rewrite filter_cons.
  destruct (q k).
  - rewrite decide_True by reflexivity. reflexivity.
  - rewrite decide_False by discriminate. reflexivity.
Qed.

End CountFacts.

(** *** The per-account steps *)

Section Accounts.
Import Xml Migrate Samples.
Local Open Scope nat_scope.

Lemma has_marker_markers (g : elem) :
  has_marker g = negb (markers g =? 0).
Proof. apply existsb_count. Qed.

(** The membership step on its own. It always ends; it adds one
    "CG_Mekonomen" entry to the account's first group-membership collection
    exactly when no entry of that collection carries the marker, and leaves
    the account as it is otherwise. Running the step again changes nothing. *)
Lemma add_membership_step (u : elem) :
  exists u',
    add_membership u = Ret u'
    /\ add_membership u' = Ret u'
    /\ match find is_user_groups u with
       | None => u' = u
       | Some g =>
           exists g',
             find is_user_groups u' = Some g'
             /\ markers g' = Nat.max 1 (markers g)
             /\ (if has_marker g then u' = u
                 else findall is_user_group g'
                      = findall is_user_group g ++ [new_group])
       end.
Proof.
  unfold add_membership. rewrite update_found_spec.
  destruct (find is_user_groups u) as [g|] eqn:Hg.
  2:{ exists u. rewrite update_found_spec, Hg. auto. }
  unfold add_marker at 1. destruct (has_marker g) eqn:Hm.
  - cbn [fmap result_fmap]. rewrite (replace_first_same _ _ _ Hg).
    exists u. split; [reflexivity|]. split.
    + rewrite update_found_spec, Hg. unfold add_marker. rewrite Hm.
      cbn [fmap result_fmap]. now rewrite (replace_first_same _ _ _ Hg).
    + exists g. split; [exact Hg|]. split; [|reflexivity].
      rewrite has_marker_markers in Hm. destruct (markers g); [discriminate|lia].
  - cbn [fmap result_fmap].     set (g' := append_child new_group g).
    assert (Hg' : find is_user_groups (replace_first is_user_groups g' u) = Some g').
    { apply (find_replace_first _ (is_tag_label _) g' u g); [|exact Hg].
      apply find_holds in Hg. destruct g. exact Hg. }
    assert (Hall : findall is_user_group g' = findall is_user_group g ++ [new_group]).
    { unfold g'. now rewrite findall_append_leaf. }
    assert (Hm' : markers g' = 1).
    { unfold markers. rewrite Hall, count_app.
      rewrite has_marker_markers in Hm. fold (markers g).
      destruct (markers g); [reflexivity | discriminate]. }
    eexists. split; [reflexivity|]. split.
    + rewrite update_found_spec, Hg'. unfold add_marker.
      rewrite has_marker_markers, Hm'. cbn [fmap result_fmap Nat.eqb negb].
      now rewrite (replace_first_same _ _ _ Hg').
    + exists g'. split; [exact Hg'|]. split; [|exact Hall].
      rewrite Hm'. rewrite has_marker_markers in Hm.
      destruct (markers g); [reflexivity | discriminate].
Qed.

End Accounts.

Section Removals.
Import Xml Migrate Samples.
Local Open Scope nat_scope.

Lemma remove_first_child_spec (p : elem -> bool) (ks : list elem) :
  match remove_first_child p ks with
  | Ret ks' =>
      count p ks' = pred (count p ks)
      /\ count p (flat_map iter ks') <= pred (count p (flat_map iter ks))
  | Raise x => x = ValueError
  | OutsideModel => False
  end.
Proof.
  induction ks as [|k ks IH]; [split; reflexivity|].
  cbn [remove_first_child]. destruct (p k) eqn:Hp.
  - rewrite count_cons, count_flat_cons, count_iter, Hp. simpl. split; lia.
  - destruct (existsb p (descendants k)) eqn:He; [reflexivity|].
    destruct (remove_first_child p ks) as [ks'| |]; cbn [fmap result_fmap]; auto.
    rewrite existsb_count in He.
    destruct (count p (descendants k)) eqn:Hd; [|discriminate].
    rewrite !count_cons, !count_flat_cons, !count_iter, Hp, Hd. simpl.
    exact IH.
Qed.

Lemma filter_out_spec (p : elem -> bool) (ks : list elem) :
  forallb (fun k => negb (existsb p (descendants k))) ks = true ->
  count p (flat_map iter (filter (fun k => p k = false) ks)) = 0.
Proof.
  induction ks as [|k ks IH]; [reflexivity|].
  cbn [forallb]. rewrite andb_true_iff, negb_true_iff, existsb_count, negb_false_iff.
  intros [Hk Hks]. apply Nat.eqb_eq in Hk.
  rewrite filter_cons. destruct (decide (p k = false)) as [Hp|_].
  - rewrite count_flat_cons, count_iter, Hp, Hk, (IH Hks). reflexivity.
  - exact (IH Hks).
Qed.

Lemma findall_nil_count (p : elem -> bool) (e : elem) :
  findall p e = [] <-> count p (descendants e) = 0.
Proof. unfold findall, count. now rewrite length_zero_iff_nil. Qed.

(** The two removal steps on their own, on an account [u].
    LastOrderDate: when every such entry of the account's first
    custom-attribute collection is a child of the collection, all of them
    are removed, however many, and none remains in it; when one lies deeper,
    lxml's [remove] raises. last-logged-in: only the first such field of the
    account's first credentials is removed, so a field count of n drops to
    n - 1; none remains when the credentials held at most one. *)
Lemma removal_steps (u : elem) :
  match find is_custom_attributes u with
  | None => remove_last_order_date u = Ret u
  | Some a =>
      if forallb (fun k => negb (existsb is_last_order_date (descendants k)))
           (children a)
      then exists u' a',
             remove_last_order_date u = Ret u'
             /\ find is_custom_attributes u' = Some a'
             /\ children a'
                = filter (fun k => is_last_order_date k = false) (children a)
             /\ findall is_last_order_date a' = []
      else remove_last_order_date u = Raise ValueError
  end
  /\ match find is_credentials u with
     | None => remove_last_logged_in u = Ret u
     | Some c =>
         match remove_first_child is_last_logged_in (children c) with
         | Ret ks =>
             exists u' c',
               remove_last_logged_in u = Ret u'
               /\ find is_credentials u' = Some c'
               /\ children c' = ks
               /\ count is_last_logged_in (children c')
                  = pred (count is_last_logged_in (children c))
               /\ (count is_last_logged_in (descendants c) <= 1 ->
                   findall is_last_logged_in c' = [])
         | _ => remove_last_logged_in u = Raise ValueError
         end
     end.
Proof.
  split.
  - unfold remove_last_order_date. rewrite update_found_spec.
    destruct (find is_custom_attributes u) as [a|] eqn:Ha; [|reflexivity].
    unfold remove_all_last_order_date.
    destruct (forallb _ (children a)) eqn:Hall; [|reflexivity].
    cbn [fmap result_fmap].
    set (a' := set_children
                 (filter (fun k => is_last_order_date k = false) (children a)) a).
    exists (replace_first is_custom_attributes a' u), a'.
    split; [reflexivity|]. split; [|split; [reflexivity|]].
    + apply (find_replace_first _ (is_tag_label _) _ u a); [|exact Ha].
      apply find_holds in Ha. destruct a. exact Ha.
    + apply findall_nil_count. unfold descendants. cbn [children set_children].
      now apply filter_out_spec.
  - unfold remove_last_logged_in. rewrite update_found_spec.
    destruct (find is_credentials u) as [c|] eqn:Hc; [|reflexivity].
    unfold remove_first_last_logged_in.
    pose proof (remove_first_child_spec is_last_logged_in (children c)) as Hs.
    destruct (remove_first_child is_last_logged_in (children c)) as [ks|x|];
      cbn [mbind result_bind fmap result_fmap mret result_ret].
    + destruct Hs as [Hs1 Hs2].
      exists (replace_first is_credentials (set_children ks c) u),
             (set_children ks c).
      split; [reflexivity|].
      split; [|split; [reflexivity|split; [exact Hs1|]]].
      * apply (find_replace_first _ (is_tag_label _) _ u c); [|exact Hc].
        apply find_holds in Hc. destruct c. exact Hc.
      * intros Hle. apply findall_nil_count.
        unfold descendants in *. cbn [children set_children]. lia.
    + now subst x.
    + contradiction.
Qed.

End Removals.

(** *** Steps that leave a census alone *)

Section Stability.
Import Xml.
Local Open Scope nat_scope.

Variables p m : elem -> bool.
Hypothesis p_label : label_only p.
Hypothesis m_label : label_only m.

Lemma stable_refl e : stable p m e e.
Proof. repeat split. Qed.

Lemma stable_trans e1 e2 e3 :
  stable p m e1 e2 -> stable p m e2 e3 -> stable p m e1 e3.
Proof.
  unfold stable. intros (?&?&?&?) (?&?&?&?). repeat split; congruence.
Qed.

Lemma census_in_cons k ks :
  census_in p m (k :: ks)
  = if p k then Some (count m (descendants k))
    else match census p m k with
         | Some n => Some n
         | None => census_in p m ks
         end.
Proof.
  unfold census_in, census. rewrite find_in_cons.
  destruct (p k); [reflexivity|]. destruct (find p k); reflexivity.
Qed.

Lemma census_unfold e : census p m e = census_in p m (children e).
Proof. reflexivity. Qed.

Lemma stable_census_cons k k' ks :
  stable p m k k' -> census_in p m (k' :: ks) = census_in p m (k :: ks).
Proof.
  intros (Hp & _ & Hc & Hs). rewrite !census_in_cons, Hp, Hc, Hs. reflexivity.
Qed.

Lemma stable_iter k k' : stable p m k k' -> count m (iter k') = count m (iter k).
Proof. intros (_ & Hm & Hc & _). rewrite !count_iter, Hm, Hc. reflexivity. Qed.

Section Replace.
Variable pc : elem -> bool.
Variables c c' : elem.
Hypothesis c_stable : stable p m c c'.

Lemma stable_replace_first_in ks :
  Forall (fun e => find pc e = Some c -> stable p m e (replace_first pc c' e)) ks ->
  find_in pc ks = Some c ->
  census_in p m (replace_first_in pc c' ks) = census_in p m ks.
Proof.
  induction 1 as [|k ks Hk Hks IH]; intros Hc; [discriminate Hc|].
  rewrite find_in_cons in Hc. rewrite replace_first_in_spec.
  destruct (pc k) eqn:Hpc.
  - injection Hc as ->. now apply stable_census_cons.
  - destruct (find pc k) as [c0|] eqn:Hc0.
    + injection Hc as ->. apply stable_census_cons. now apply Hk.
    + rewrite !census_in_cons. now rewrite (IH Hc).
Qed.

(** A stable change of the first [pc]-element is a stable change of the
    whole. *)
Lemma stable_replace_first e :
  find pc e = Some c -> stable p m e (replace_first pc c' e).
Proof.
  induction e as [t a x ks IH] using elem_induction. intros Hc.
  split; [apply (q_replace_first p p_label)|].
  split; [apply (q_replace_first m m_label)|].
  split.
  - pose proof (count_replace_first m m_label pc c' _ c Hc) as H.
    rewrite (stable_iter _ _ c_stable) in H. lia.
  - rewrite replace_first_unfold, !census_unfold. cbn [children].
    now apply stable_replace_first_in.
Qed.
End Replace.

Lemma stable_update_found pc f e e' :
  (forall c c', pc c = true -> f c = Ret c' -> stable p m c c') ->
  update_found pc f e = Ret e' -> stable p m e e'.
Proof.
  intros Hf. rewrite update_found_spec.
  destruct (find pc e) as [c|] eqn:Hc.
  - destruct (f c) as [c'| |] eqn:Hfc; try discriminate.
    intros [= <-]. apply (stable_replace_first pc c c'); [|exact Hc].
    apply Hf; [|exact Hfc]. eapply find_holds, Hc.
  - intros [= <-]. apply stable_refl.
Qed.

Lemma stable_set_text x e : stable p m e (set_text x e).
Proof. destruct e. repeat split; [apply p_label | apply m_label]. Qed.

Lemma stable_map_text g e : stable p m e (map_text g e).
Proof.
  induction e as [t a x ks IH] using elem_induction.
  cbn [map_text]. split; [apply p_label|]. split; [apply m_label|].
  unfold descendants. rewrite !census_unfold. cbn [children].
  induction IH as [|k ks Hk Hks IHks]; [split; reflexivity|].
  destruct IHks as [IH1 IH2]. cbn [map]. split.
  - rewrite !count_flat_cons, (stable_iter _ _ Hk). congruence.
  - rewrite (stable_census_cons _ _ _ Hk), !census_in_cons.
    destruct (p k); [reflexivity|]. destruct (census p m k); [reflexivity|].
    exact IH2.
Qed.

Lemma neutral_census_cons k ks :
  neutral p m k -> census_in p m (k :: ks) = census_in p m ks.
Proof.
  intros (Hp & Hf & _). rewrite census_in_cons, Hp. unfold census. now rewrite Hf.
Qed.

Lemma neutral_count_cons k ks :
  neutral p m k ->
  count m (flat_map iter (k :: ks)) = count m (flat_map iter ks).
Proof. intros (_ & _ & Hc). rewrite count_flat_cons, Hc. reflexivity. Qed.

Lemma filter_neutral (P : elem -> Prop) `{!forall x, Decision (P x)} ks :
  Forall (fun k => ~ P k -> neutral p m k) ks ->
  count m (flat_map iter (filter P ks)) = count m (flat_map iter ks)
  /\ census_in p m (filter P ks) = census_in p m ks.
Proof.
  induction 1 as [|k ks Hk Hks [IH1 IH2]]; [split; reflexivity|].
  rewrite filter_cons. destruct (decide (P k)) as [HP|HP].
  - split.
    + rewrite !count_flat_cons. congruence.
    + rewrite !census_in_cons. destruct (p k); [reflexivity|].
      destruct (census p m k); [reflexivity|]. exact IH2.
  - specialize (Hk HP). split.
    + now rewrite (neutral_count_cons _ _ Hk).
    + now rewrite (neutral_census_cons _ _ Hk).
Qed.

(** Dropping neutral children. *)
Lemma stable_filter (P : elem -> Prop) `{!forall x, Decision (P x)} e :
  Forall (fun k => ~ P k -> neutral p m k) (children e) ->
  stable p m e (set_children (filter P (children e)) e).
Proof.
  destruct e as [t a x ks]. cbn [children].
  intros Hall. apply (filter_neutral P) in Hall as [H1 H2].
  split; [apply p_label|]. split; [apply m_label|]. split; assumption.
Qed.

(** Adding a neutral child at the end. *)
Lemma stable_append k e : neutral p m k -> stable p m e (append_child k e).
Proof.
  destruct e as [t a x ks]. intros Hk.
  split; [apply p_label|]. split; [apply m_label|].
  unfold append_child, descendants. rewrite !census_unfold.
  cbn [children set_children]. split.
  - rewrite flat_map_app, count_app, (neutral_count_cons _ _ Hk). cbn. lia.
  - induction ks as [|k0 ks IH].
    + cbn [app]. now rewrite (neutral_census_cons _ _ Hk).
    + cbn [app]. rewrite !census_in_cons, IH. reflexivity.
Qed.

End Stability.

(** *** Entries that are leaves stay leaves *)

Section Leaves.
Import Xml Migrate.

Lemma found_in_sub pc ks c :
  Forall (fun e => forall c, find pc e = Some c ->
            incl (iter c) (descendants e)) ks ->
  find_in pc ks = Some c -> incl (iter c) (flat_map iter ks).
Proof.
  induction 1 as [|k ks Hk Hks IH]; intros Hc; [discriminate Hc|].
  rewrite find_in_cons in Hc. cbn [flat_map]. destruct (pc k).
  - injection Hc as ->. now apply incl_appl.
  - destruct (find pc k) as [c0|] eqn:Hc0.
    + injection Hc as ->. apply incl_appl. rewrite (iter_unfold k).
      apply incl_tl. now apply Hk.
    + apply incl_appr. now apply IH.
Qed.

(** What [find] returns lies, with all it holds, below the element
    searched. *)
Lemma found_sub pc e c :
  find pc e = Some c -> incl (iter c) (descendants e).
Proof.
  revert c. induction e as [t a x ks IH] using elem_induction. intros c Hc.
  apply (found_in_sub pc ks c); [|exact Hc].
  eapply Forall_impl; [exact IH|]. cbn. auto.
Qed.

Lemma forallb_incl {A} (f : A -> bool) (l1 l2 : list A) :
  incl l1 l2 -> forallb f l2 = true -> forallb f l1 = true.
Proof.
  rewrite !forallb_forall. intros Hi H x Hx. apply H, Hi, Hx.
Qed.

Lemma removable_label : label_only removable.
Proof. intros ? ? ? ? ? ?. reflexivity. Qed.

Lemma leaves_replace_first_in pc c c' ks :
  forallb leaf_if_removable (iter c') = true ->
  Forall (fun e => find pc e = Some c ->
            forallb leaf_if_removable (descendants e) = true ->
            forallb leaf_if_removable (descendants (replace_first pc c' e)) = true)
    ks ->
  find_in pc ks = Some c ->
  forallb leaf_if_removable (flat_map iter ks) = true ->
  forallb leaf_if_removable (flat_map iter (replace_first_in pc c' ks)) = true.
Proof.
  intros Hc'. induction 1 as [|k ks Hk Hks IH]; intros Hc; [discriminate Hc|].
  rewrite find_in_cons in Hc. rewrite replace_first_in_spec.
  cbn [flat_map]. rewrite forallb_app, andb_true_iff. intros [H1 H2].
  destruct (pc k) eqn:Hpc.
  - cbn [flat_map]. rewrite forallb_app, Hc', H2. reflexivity.
  - destruct (find pc k) as [c0|] eqn:Hc0.
    + injection Hc as ->. cbn [flat_map]. rewrite forallb_app, H2, andb_true_r.
      rewrite iter_unfold in *. cbn [forallb] in *.
      apply andb_true_iff in H1 as [Hq Hd]. rewrite (Hk eq_refl Hd), andb_true_r.
      unfold leaf_if_removable in *.
      rewrite (q_replace_first removable removable_label).
      destruct (removable k); [|reflexivity].
      cbn [negb orb] in Hq. unfold is_leaf in Hq.
      destruct k as [t a x [|k0 kk]]; [discriminate Hc0 | discriminate Hq].
    + cbn [flat_map]. rewrite forallb_app, H1. cbn [andb]. now apply IH.
Qed.

(** Replacing the first match keeps the entries leaves when the
    replacement keeps them so. *)
Lemma leaves_replace_first pc c c' e :
  forallb leaf_if_removable (iter c') = true ->
  find pc e = Some c ->
  leaf_entries e = true -> leaf_entries (replace_first pc c' e) = true.
Proof.
  intros Hc'. unfold leaf_entries.
  induction e as [t a x ks IH] using elem_induction. intros Hc He.
  rewrite replace_first_unfold. unfold descendants in *. cbn [children] in *.
  now apply (leaves_replace_first_in pc c c').
Qed.

Lemma leaves_update_found pc f e e' :
  (forall c c', pc c = true -> f c = Ret c' ->
     forallb leaf_if_removable (iter c) = true ->
     forallb leaf_if_removable (iter c') = true) ->
  update_found pc f e = Ret e' ->
  leaf_entries e = true -> leaf_entries e' = true.
Proof.
  intros Hf. rewrite update_found_spec.
  destruct (find pc e) as [c|] eqn:Hc.
  - destruct (f c) as [c'| |] eqn:Hfc; try discriminate.
    intros [= <-] He. apply (leaves_replace_first pc c c'); [|exact Hc|exact He].
    apply (Hf c c' (find_holds _ _ _ Hc) Hfc).
    eapply forallb_incl; [eapply found_sub, Hc | exact He].
  - now intros [= <-].
Qed.

Lemma iter_map_text g e : iter (map_text g e) = map (map_text g) (iter e).
Proof.
  induction e as [t a x ks IH] using elem_induction.
  cbn [map_text iter map]. f_equal.
  induction IH as [|k ks Hk Hks IHks]; [reflexivity|].
  cbn [map flat_map]. rewrite map_app, Hk, IHks. reflexivity.
Qed.

Lemma leaf_map_text g x : leaf_if_removable (map_text g x) = leaf_if_removable x.
Proof. destruct x as [t a x [|k ks]]; reflexivity. Qed.

Lemma leaves_iter_map_text g e :
  forallb leaf_if_removable (iter (map_text g e))
  = forallb leaf_if_removable (iter e).
Proof.
  rewrite iter_map_text. induction (iter e) as [|x l IH]; [reflexivity|].
  cbn [map forallb]. now rewrite leaf_map_text, IH.
Qed.

End Leaves.

(** *** The steps of the account loop, one census at a time *)

Section AccountSteps.
Import Xml Migrate.
Local Open Scope nat_scope.

Variables p m : elem -> bool.
Hypothesis p_label : label_only p.
Hypothesis m_label : label_only m.
Hypothesis p_partner : ignores_partner p.
Hypothesis m_partner : ignores_partner m.

Lemma stable_rewrite_partner id n u : stable p m u (rewrite_partner id n u).
Proof.
  unfold rewrite_partner.
  eapply stable_trans; [|apply (stable_map_text p m p_label m_label)].
  destruct (has_attr "business-partner-no" id u); [|apply stable_refl].
  repeat split; [apply p_partner | apply m_partner].
Qed.

Lemma stable_set_creation_date today u u' :
  set_creation_date today u = Ret u' -> stable p m u u'.
Proof.
  apply (stable_update_found p m p_label m_label). intros pr pr' _.
  apply (stable_update_found p m p_label m_label). intros c c' _ [= <-].
  apply (stable_set_text p m p_label m_label).
Qed.

Lemma stable_add_membership u u' :
  neutral p m new_group -> add_membership u = Ret u' -> stable p m u u'.
Proof.
  intros Hn. apply (stable_update_found p m p_label m_label).
  intros g g' _. unfold add_marker. destruct (has_marker g); intros [= <-].
  - apply stable_refl.
  - now apply (stable_append p m p_label m_label).
Qed.

Lemma leaf_is_neutral k :
  p k = false -> m k = false -> is_leaf k = true -> neutral p m k.
Proof.
  intros Hp Hm Hl. destruct k as [t a x [|k0 ks]]; [|discriminate Hl].
  split; [exact Hp|]. split; [reflexivity|].
  rewrite count_iter, Hm. reflexivity.
Qed.

Lemma removable_child_is_leaf pc u a k :
  leaf_entries u = true -> find pc u = Some a -> In k (children a) ->
  removable k = true -> is_leaf k = true.
Proof.
  intros Hu Ha Hk Hr. unfold leaf_entries in Hu.
  rewrite forallb_forall in Hu. specialize (Hu k).
  unfold leaf_if_removable in Hu. rewrite Hr in Hu. apply Hu.
  apply (found_sub pc u a Ha). rewrite iter_unfold. right.
  unfold descendants. apply in_flat_map. exists k. split; [exact Hk|].
  rewrite iter_unfold. now left.
Qed.

Lemma stable_remove_last_order_date u u' :
  (forall k, is_last_order_date k = true -> p k = false /\ m k = false) ->
  leaf_entries u = true ->
  remove_last_order_date u = Ret u' -> stable p m u u'.
Proof.
  intros Hpm Hu. unfold remove_last_order_date. rewrite update_found_spec.
  destruct (find is_custom_attributes u) as [a|] eqn:Ha.
  2:{ intros [= <-]. apply stable_refl. }
  unfold remove_all_last_order_date. destruct (forallb _ _); [|discriminate].
  intros [= <-]. apply (stable_replace_first p m p_label m_label _ a); [|exact Ha].
  apply (stable_filter p m p_label m_label). apply Forall_forall.
  intros k Hk Hnot. apply list_elem_of_In in Hk.
  assert (Hlod : is_last_order_date k = true)
    by (destruct (is_last_order_date k); [reflexivity | now contradiction Hnot]).
  destruct (Hpm k Hlod) as [Hp Hm]. apply leaf_is_neutral; auto.
  apply (removable_child_is_leaf _ u a k Hu Ha Hk).
  unfold removable. now rewrite Hlod.
Qed.

Lemma remove_first_child_neutral q ks ks' :
  Forall (fun k => q k = true -> neutral p m k) ks ->
  remove_first_child q ks = Ret ks' ->
  count m (flat_map iter ks') = count m (flat_map iter ks)
  /\ census_in p m ks' = census_in p m ks.
Proof.
  intros H. revert ks'. induction H as [|k ks Hk Hks IH]; intros ks'.
  - intros [= <-]. split; reflexivity.
  - cbn [remove_first_child]. destruct (q k) eqn:Hq.
    + intros [= <-]. specialize (Hk eq_refl). split.
      * now rewrite (neutral_count_cons p m _ _ Hk).
      * now rewrite (neutral_census_cons p m _ _ Hk).
    + destruct (existsb q (descendants k)); [discriminate|].
      destruct (remove_first_child q ks) as [ks0| |]; try discriminate.
      intros [= <-]. destruct (IH _ eq_refl) as [IH1 IH2]. split.
      * rewrite !count_flat_cons. congruence.
      * rewrite !census_in_cons, IH2. reflexivity.
Qed.

Lemma stable_remove_last_logged_in u u' :
  (forall k, is_last_logged_in k = true -> p k = false /\ m k = false) ->
  leaf_entries u = true ->
  remove_last_logged_in u = Ret u' -> stable p m u u'.
Proof.
  intros Hpm Hu. unfold remove_last_logged_in. rewrite update_found_spec.
  destruct (find is_credentials u) as [c|] eqn:Hc.
  2:{ intros [= <-]. apply stable_refl. }
  unfold remove_first_last_logged_in. intros H.
  apply result_fmap_inv in H as (c' & H & <-).
  apply result_bind_inv in H as (ks' & Hks & [= <-]).
  apply (stable_replace_first p m p_label m_label _ c); [|exact Hc].
  apply (remove_first_child_neutral is_last_logged_in) in Hks as [H1 H2].
  - destruct c as [t a x ks]. split; [apply p_label|]. split; [apply m_label|].
    split; assumption.
  - apply Forall_forall. intros k Hk Hq. apply list_elem_of_In in Hk.
    destruct (Hpm k Hq) as [Hp Hm]. apply leaf_is_neutral; auto.
    apply (removable_child_is_leaf _ u c k Hu Hc Hk).
    unfold removable. rewrite Hq. apply orb_true_r.
Qed.

End AccountSteps.

Section AccountLeaves.
Import Xml Migrate.

Lemma descendants_map_text g e :
  descendants (map_text g e) = map (map_text g) (descendants e).
Proof.
  pose proof (iter_map_text g e) as H. rewrite !iter_unfold in H.
  cbn [map] in H. now injection H.
Qed.

Lemma leaves_rewrite_partner id n u :
  leaf_entries (rewrite_partner id n u) = leaf_entries u.
Proof.
  unfold rewrite_partner, leaf_entries. rewrite descendants_map_text.
  transitivity (forallb leaf_if_removable (descendants
    (if has_attr "business-partner-no" id u
     then set_attr "business-partner-no" (Cell.str n) u else u))).
  - induction (descendants _) as [|x l IH]; [reflexivity|].
    cbn [map forallb]. now rewrite leaf_map_text, IH.
  - destruct (has_attr _ _ u); reflexivity.
Qed.

Lemma not_removable (t : string) (e : elem) :
  is_tag t e = true ->
  String.eqb t (i_ "custom-attribute") = false ->
  String.eqb t (i_ "last-logged-in") = false ->
  removable e = false.
Proof.
  unfold removable, is_last_order_date, named_attribute, is_custom_attribute,
    is_last_logged_in, is_tag.
  intros Ht H1 H2. apply String.eqb_eq in Ht. rewrite Ht, H1, H2. reflexivity.
Qed.

Lemma leaves_set_children t ks e :
  is_tag t e = true ->
  String.eqb t (i_ "custom-attribute") = false ->
  String.eqb t (i_ "last-logged-in") = false ->
  forallb leaf_if_removable (flat_map iter ks) = true ->
  forallb leaf_if_removable (iter (set_children ks e)) = true.
Proof.
  intros Ht H1 H2 Hks. rewrite iter_unfold. cbn [forallb].
  unfold descendants. cbn [children set_children]. rewrite Hks, andb_true_r.
  unfold leaf_if_removable.
  rewrite (not_removable t); [reflexivity| |exact H1|exact H2].
  destruct e. exact Ht.
Qed.

Lemma iter_leaves_children e :
  forallb leaf_if_removable (iter e) = true ->
  forallb leaf_if_removable (flat_map iter (children e)) = true.
Proof. rewrite iter_unfold. cbn [forallb]. now intros [_ H]%andb_true_iff. Qed.

Lemma leaves_add_membership u u' :
  add_membership u = Ret u' -> leaf_entries u = true -> leaf_entries u' = true.
Proof.
  apply leaves_update_found. intros g g' Hg. unfold add_marker.
  destruct (has_marker g); intros [= <-]; [auto|].
  intros H. apply iter_leaves_children in H.
  apply (leaves_set_children (i_ "user-groups")); [exact Hg|reflexivity..|].
  rewrite flat_map_app, forallb_app, H. reflexivity.
Qed.

Lemma leaves_filter (P : elem -> Prop) `{!forall x, Decision (P x)} ks :
  forallb leaf_if_removable (flat_map iter ks) = true ->
  forallb leaf_if_removable (flat_map iter (filter P ks)) = true.
Proof.
  induction ks as [|k ks IH]; [auto|].
  cbn [flat_map]. rewrite forallb_app, andb_true_iff. intros [H1 H2].
  rewrite filter_cons. destruct (decide (P k)); [|auto].
  cbn [flat_map]. rewrite forallb_app, H1. cbn [andb]. auto.
Qed.

Lemma leaves_remove_last_order_date u u' :
  remove_last_order_date u = Ret u' ->
  leaf_entries u = true -> leaf_entries u' = true.
Proof.
  apply leaves_update_found. intros a a' Ha. unfold remove_all_last_order_date.
  destruct (forallb _ _); [|discriminate]. intros [= <-] H.
  apply iter_leaves_children in H.
  apply (leaves_set_children (i_ "custom-attributes")); [exact Ha|reflexivity..|].
  now apply leaves_filter.
Qed.

End AccountLeaves.

(** *** What an account is like after its turn in the loop *)

Section AccountCensus.
Import Xml Migrate.
Local Open Scope nat_scope.

Lemma count_filter (p q : elem -> bool) (l : list elem) :
  count q (filter (fun x => p x = true) l) = count (fun x => p x && q x) l.
Proof.
  induction l as [|x l IH]; [reflexivity|].
  rewrite filter_cons, (count_cons (fun x => p x && q x)).
  destruct (p x) eqn:Hp.
  - rewrite decide_True by reflexivity. rewrite count_cons, IH. reflexivity.
  - rewrite decide_False by discriminate. rewrite IH. reflexivity.
Qed.

Lemma markers_census g : markers g = count marked (descendants g).
Proof. unfold markers, findall. apply count_filter. Qed.

Lemma attr_get_set_other (k k' v : string) a :
  k <> k' -> attr_get k' (attr_set k v a) = attr_get k' a.
Proof.
  intros Hne. induction a as [|[k0 v0] a IH]; cbn [attr_set attr_get].
  - apply String.eqb_neq in Hne. now rewrite Hne.
  - destruct (String.eqb k0 k) eqn:E; cbn [attr_get].
    + apply String.eqb_eq in E. subst k0.
      apply String.eqb_neq in Hne. now rewrite Hne.
    + now rewrite IH.
Qed.

Lemma is_tag_partner t : ignores_partner (is_tag t).
Proof. intros v e. reflexivity. Qed.

Lemma has_attr_partner k w : k <> "business-partner-no" -> ignores_partner (has_attr k w).
Proof.
  intros Hk v e. unfold has_attr, get. cbn [set_attr attrib].
  rewrite attr_get_set_other; [reflexivity | congruence].
Qed.

Lemma marked_label : label_only marked.
Proof. intros ? ? ? ? ? ?. reflexivity. Qed.

Lemma marked_partner : ignores_partner marked.
Proof.
  intros v e. unfold marked.
  rewrite (has_attr_partner "id" marker) by discriminate. reflexivity.
Qed.

Lemma last_order_date_label : label_only is_last_order_date.
Proof. intros ? ? ? ? ? ?. reflexivity. Qed.

Lemma last_order_date_partner : ignores_partner is_last_order_date.
Proof.
  intros v e. unfold is_last_order_date, named_attribute.
  rewrite (has_attr_partner "name" "LastOrderDate") by discriminate. reflexivity.
Qed.

Lemma tag_excludes (t t' : string) (e : elem) :
  is_tag t e = true -> String.eqb t t' = false -> is_tag t' e = false.
Proof.
  unfold is_tag. intros Ht Hne. apply String.eqb_eq in Ht. now rewrite Ht.
Qed.

Lemma last_order_date_tag k :
  is_last_order_date k = true -> is_custom_attribute k = true.
Proof. unfold is_last_order_date, named_attribute. now intros [H _]%andb_true_iff. Qed.

Lemma other_tag_no_group (t : string) (k : elem) :
  is_tag t k = true ->
  String.eqb t (i_ "user-groups") = false ->
  String.eqb t (i_ "user-group") = false ->
  is_user_groups k = false /\ marked k = false.
Proof.
  intros Ht H1 H2. unfold marked, is_user_groups, is_user_group.
  now rewrite (tag_excludes _ _ _ Ht H1), (tag_excludes _ _ _ Ht H2).
Qed.

(** The membership step on the census of the marker. *)
Lemma add_membership_census u u' :
  add_membership u = Ret u' ->
  census is_user_groups marked u' = Nat.max 1 <$> census is_user_groups marked u.
Proof.
  unfold add_membership. rewrite update_found_spec. unfold census.
  destruct (find is_user_groups u) as [g|] eqn:Hg.
  2:{ intros [= <-]. now rewrite Hg. }
  unfold add_marker. destruct (has_marker g) eqn:Hm; intros [= <-].
  - rewrite (replace_first_same _ _ _ Hg), Hg. cbn [fmap option_fmap option_map].
    f_equal. rewrite has_marker_markers, markers_census in Hm.
    destruct (count marked (descendants g)); [discriminate | lia].
  - rewrite (find_replace_first is_user_groups (is_tag_label _) _ u g);
      [|destruct g; exact (find_holds _ _ _ Hg)|exact Hg].
    cbn [fmap option_fmap option_map]. f_equal.
    rewrite has_marker_markers, markers_census in Hm.
    unfold append_child, descendants. cbn [children set_children].
    rewrite flat_map_app, count_app. fold (descendants g).
    destruct (count marked (descendants g)); [reflexivity | discriminate].
Qed.

(** The account after its turn, for the marker. *)
Lemma migrate_user_markers today id n u u' :
  leaf_entries u = true ->
  migrate_user today id n u = Ret u' ->
  census is_user_groups marked u' = Nat.max 1 <$> census is_user_groups marked u.
Proof.
  intros Hu H. unfold migrate_user in H.
  apply result_bind_inv in H as (u2 & H2 & H).
  apply result_bind_inv in H as (u3 & H3 & H).
  apply result_bind_inv in H as (u4 & H4 & H5).
  pose proof (stable_rewrite_partner is_user_groups marked (is_tag_label _)
                marked_label (is_tag_partner _) marked_partner id n u)
    as (_ & _ & _ & S1).
  assert (L1 : leaf_entries (rewrite_partner id n u) = true)
    by now rewrite leaves_rewrite_partner.
  pose proof (leaves_add_membership _ _ H2 L1) as L2.
  pose proof (leaves_remove_last_order_date _ _ H3 L2) as L3.
  apply add_membership_census in H2.
  apply (stable_remove_last_order_date is_user_groups marked (is_tag_label _)
           marked_label) in H3 as (_ & _ & _ & S3); [|  |exact L2].
  2:{ intros k Hk. apply last_order_date_tag in Hk.
      now apply (other_tag_no_group _ k Hk). }
  apply (stable_remove_last_logged_in is_user_groups marked (is_tag_label _)
           marked_label) in H4 as (_ & _ & _ & S4); [|  |exact L3].
  2:{ intros k Hk. now apply (other_tag_no_group _ k Hk). }
  apply (stable_set_creation_date is_user_groups marked (is_tag_label _)
           marked_label) in H5 as (_ & _ & _ & S5).
  congruence.
Qed.

End AccountCensus.

(** *** The two removal steps, one census at a time *)

Section AccountRemovals.
Import Xml Migrate.
Local Open Scope nat_scope.

Lemma new_group_neutral (p m : elem -> bool) :
  p new_group = false -> m new_group = false -> neutral p m new_group.
Proof. intros Hp Hm. now apply leaf_is_neutral. Qed.

(** The LastOrderDate step on the census of such entries. *)
Lemma remove_last_order_date_census u u' :
  remove_last_order_date u = Ret u' ->
  census is_custom_attributes is_last_order_date u'
  = (fun _ => 0) <$> census is_custom_attributes is_last_order_date u.
Proof.
  unfold remove_last_order_date. rewrite update_found_spec. unfold census.
  destruct (find is_custom_attributes u) as [a|] eqn:Ha.
  2:{ intros [= <-]. now rewrite Ha. }
  unfold remove_all_last_order_date.
  destruct (forallb _ (children a)) eqn:Hall; [|discriminate]. intros [= <-].
  rewrite (find_replace_first is_custom_attributes (is_tag_label _) _ u a);
    [|destruct a; exact (find_holds _ _ _ Ha)|exact Ha].
  cbn [fmap option_fmap option_map]. f_equal.
  unfold descendants. cbn [children set_children]. now apply filter_out_spec.
Qed.

Lemma remove_first_child_leaf q ks ks' :
  Forall (fun k => q k = true -> is_leaf k = true) ks ->
  remove_first_child q ks = Ret ks' ->
  count q (flat_map iter ks') = pred (count q (flat_map iter ks)).
Proof.
  intros H. revert ks'. induction H as [|k ks Hk Hks IH]; intros ks'.
  - intros [= <-]. reflexivity.
  - cbn [remove_first_child]. destruct (q k) eqn:Hq.
    + intros [= <-]. specialize (Hk eq_refl).
      destruct k as [t a x [|k0 kk]]; [|discriminate Hk].
      rewrite count_flat_cons, count_iter, Hq. reflexivity.
    + destruct (existsb q (descendants k)) eqn:He; [discriminate|].
      destruct (remove_first_child q ks) as [ks0| |]; try discriminate.
      intros [= <-]. rewrite existsb_count in He.
      destruct (count q (descendants k)) eqn:Hd; [|discriminate].
      rewrite !count_flat_cons, !count_iter, Hq, Hd. cbn [Nat.add].
      now apply IH.
Qed.

(** The last-logged-in step on the census of such fields. *)
Lemma remove_last_logged_in_census u u' :
  leaf_entries u = true ->
  remove_last_logged_in u = Ret u' ->
  census is_credentials is_last_logged_in u'
  = pred <$> census is_credentials is_last_logged_in u.
Proof.
  intros Hu. unfold remove_last_logged_in. rewrite update_found_spec.
  unfold census. destruct (find is_credentials u) as [c|] eqn:Hc.
  2:{ intros [= <-]. now rewrite Hc. }
  unfold remove_first_last_logged_in. intros H.
  apply result_fmap_inv in H as (c' & H & <-).
  apply result_bind_inv in H as (ks' & Hks & [= <-]).
  rewrite (find_replace_first is_credentials (is_tag_label _) _ u c);
    [|destruct c; exact (find_holds _ _ _ Hc)|exact Hc].
  cbn [fmap option_fmap option_map]. f_equal.
  unfold descendants. cbn [children set_children].
  apply (remove_first_child_leaf is_last_logged_in); [|exact Hks].
  apply Forall_forall. intros k Hk Hq. apply list_elem_of_In in Hk.
  apply (removable_child_is_leaf _ u c k Hu Hc Hk).
  unfold removable. rewrite Hq. apply orb_true_r.
Qed.

Lemma other_tag_no_entry (t : string) (k : elem) :
  is_tag t k = true ->
  String.eqb t (i_ "custom-attributes") = false ->
  String.eqb t (i_ "custom-attribute") = false ->
  is_custom_attributes k = false /\ is_last_order_date k = false.
Proof.
  intros Ht H1 H2.
  unfold is_custom_attributes, is_last_order_date, named_attribute,
    is_custom_attribute.
  now rewrite (tag_excludes _ _ _ Ht H1), (tag_excludes _ _ _ Ht H2).
Qed.

Lemma other_tag_no_field (t : string) (k : elem) :
  is_tag t k = true ->
  String.eqb t (i_ "credentials") = false ->
  String.eqb t (i_ "last-logged-in") = false ->
  is_credentials k = false /\ is_last_logged_in k = false.
Proof.
  intros Ht H1 H2. unfold is_credentials, is_last_logged_in.
  now rewrite (tag_excludes _ _ _ Ht H1), (tag_excludes _ _ _ Ht H2).
Qed.

(** The account after its turn, for the LastOrderDate entries. *)
Lemma migrate_user_last_order_date today id n u u' :
  leaf_entries u = true ->
  migrate_user today id n u = Ret u' ->
  census is_custom_attributes is_last_order_date u'
  = (fun _ => 0) <$> census is_custom_attributes is_last_order_date u.
Proof.
  intros Hu H. unfold migrate_user in H.
  apply result_bind_inv in H as (u2 & H2 & H).
  apply result_bind_inv in H as (u3 & H3 & H).
  apply result_bind_inv in H as (u4 & H4 & H5).
  pose proof (stable_rewrite_partner is_custom_attributes is_last_order_date
                (is_tag_label _) last_order_date_label (is_tag_partner _)
                last_order_date_partner id n u) as (_ & _ & _ & S1).
  assert (L1 : leaf_entries (rewrite_partner id n u) = true)
    by now rewrite leaves_rewrite_partner.
  pose proof (leaves_add_membership _ _ H2 L1) as L2.
  pose proof (leaves_remove_last_order_date _ _ H3 L2) as L3.
  apply (stable_add_membership is_custom_attributes is_last_order_date
           (is_tag_label _) last_order_date_label) in H2 as (_ & _ & _ & S2);
    [|now apply new_group_neutral].
  apply remove_last_order_date_census in H3.
  apply (stable_remove_last_logged_in is_custom_attributes is_last_order_date
           (is_tag_label _) last_order_date_label) in H4 as (_ & _ & _ & S4);
    [| |exact L3].
  2:{ intros k Hk. now apply (other_tag_no_entry _ k Hk). }
  apply (stable_set_creation_date is_custom_attributes is_last_order_date
           (is_tag_label _) last_order_date_label) in H5 as (_ & _ & _ & S5).
  congruence.
Qed.

(** The account after its turn, for the last-logged-in fields. *)
Lemma migrate_user_last_logged_in today id n u u' :
  leaf_entries u = true ->
  migrate_user today id n u = Ret u' ->
  census is_credentials is_last_logged_in u'
  = pred <$> census is_credentials is_last_logged_in u.
Proof.
  intros Hu H. unfold migrate_user in H.
  apply result_bind_inv in H as (u2 & H2 & H).
  apply result_bind_inv in H as (u3 & H3 & H).
  apply result_bind_inv in H as (u4 & H4 & H5).
  pose proof (stable_rewrite_partner is_credentials is_last_logged_in
                (is_tag_label _) (is_tag_label _) (is_tag_partner _)
                (is_tag_partner _) id n u) as (_ & _ & _ & S1).
  assert (L1 : leaf_entries (rewrite_partner id n u) = true)
    by now rewrite leaves_rewrite_partner.
  pose proof (leaves_add_membership _ _ H2 L1) as L2.
  pose proof (leaves_remove_last_order_date _ _ H3 L2) as L3.
  apply (stable_add_membership is_credentials is_last_logged_in
           (is_tag_label _) (is_tag_label _)) in H2 as (_ & _ & _ & S2);
    [|now apply new_group_neutral].
  apply (stable_remove_last_order_date is_credentials is_last_logged_in
           (is_tag_label _) (is_tag_label _)) in H3 as (_ & _ & _ & S3);
    [| |exact L2].
  2:{ intros k Hk. apply last_order_date_tag in Hk.
      now apply (other_tag_no_field _ k Hk). }
  apply (remove_last_logged_in_census _ _ L3) in H4.
  apply (stable_set_creation_date is_credentials is_last_logged_in
           (is_tag_label _) (is_tag_label _)) in H5 as (_ & _ & _ & S5).
  congruence.
Qed.

End AccountRemovals.

(** *** An account after its turn in the loop *)

Section AccountsAfterTheirTurn.
Import Xml Migrate Samples.
Local Open Scope nat_scope.

Lemma census_reading (p m : elem -> bool) (f : nat -> nat) (u u' : elem) :
  census p m u' = f <$> census p m u ->
  match find p u with
  | None => find p u' = None
  | Some g =>
      exists g', find p u' = Some g'
                 /\ count m (descendants g') = f (count m (descendants g))
  end.
Proof.
  unfold census. destruct (find p u) as [g|], (find p u') as [g'|];
    cbn [fmap option_fmap option_map]; intros H; try discriminate H;
    [|reflexivity].
  injection H as H. now exists g'.
Qed.

Lemma count_findall (m : elem -> bool) (g : elem) :
  length (findall m g) = count m (descendants g).
Proof. reflexivity. Qed.

Lemma add_membership_again (u g : elem) :
  find is_user_groups u = Some g -> 1 <= markers g -> add_membership u = Ret u.
Proof.
  intros Hg Hm. unfold add_membership. rewrite update_found_spec, Hg.
  unfold add_marker. rewrite has_marker_markers.
  destruct (markers g); [lia|]. cbn [Nat.eqb negb fmap result_fmap].
  now rewrite (replace_first_same _ _ _ Hg).
Qed.

(** Take an account whose LastOrderDate entries and last-logged-in fields
    hold no elements, and whose turn in the loop (lines 218-254) ends.
    Afterwards its first group-membership collection holds the marker once
    if it held none before, and as often as before if it held any; an
    account without such a collection still has none. Running the
    membership step on the result changes nothing. *)
Lemma account_markers_after_turn
  (today_date current_id : string) (new_id : cell) (u u' : elem) :
  leaf_entries u = true ->
  migrate_user today_date current_id new_id u = Ret u' ->
  match find is_user_groups u with
  | None => find is_user_groups u' = None
  | Some g =>
      exists g', find is_user_groups u' = Some g'
                 /\ markers g' = Nat.max 1 (markers g)
  end
  /\ add_membership u' = Ret u'.
Proof.
  intros Hu H.
  pose proof (census_reading _ _ _ _ _ (migrate_user_markers _ _ _ _ _ Hu H))
    as Hc.
  destruct (find is_user_groups u) as [g|] eqn:Hg.
  - destruct Hc as (g' & Hg' & Hm). rewrite <- !markers_census in Hm. split.
    + now exists g'.
    + apply (add_membership_again u' g' Hg'). lia.
  - split; [exact Hc|].
    unfold add_membership. now rewrite update_found_spec, Hc.
Qed.

(** Take an account whose LastOrderDate entries and last-logged-in fields
    hold no elements, and whose turn in the loop (lines 218-254) ends.
    Afterwards its first custom-attribute collection holds no LastOrderDate
    entry, however many it held, and its first credentials hold one
    last-logged-in field fewer than before: none if they held at most one,
    n - 1 if they held n. An account without the collection, or without
    credentials, still has none. *)
Lemma account_removals_after_turn
  (today_date current_id : string) (new_id : cell) (u u' : elem) :
  leaf_entries u = true ->
  migrate_user today_date current_id new_id u = Ret u' ->
  match find is_custom_attributes u with
  | None => find is_custom_attributes u' = None
  | Some _ =>
      exists a', find is_custom_attributes u' = Some a'
                 /\ findall is_last_order_date a' = []
  end
  /\ match find is_credentials u with
     | None => find is_credentials u' = None
     | Some c =>
         exists c', find is_credentials u' = Some c'
                    /\ length (findall is_last_logged_in c')
                       = pred (length (findall is_last_logged_in c))
     end.
Proof.
  intros Hu H. split.
  - pose proof (census_reading _ _ _ _ _
                  (migrate_user_last_order_date _ _ _ _ _ Hu H)) as Hc.
    destruct (find is_custom_attributes u) as [a|]; [|exact Hc].
    destruct Hc as (a' & Ha' & Hn). exists a'. split; [exact Ha'|].
    now apply findall_nil_count.
  - pose proof (census_reading _ _ _ _ _
                  (migrate_user_last_logged_in _ _ _ _ _ Hu H)) as Hc.
    destruct (find is_credentials u) as [c|]; [|exact Hc].
    destruct Hc as (c' & Hc' & Hn). exists c'. split; [exact Hc'|].
    now rewrite !count_findall.
Qed.

End AccountsAfterTheirTurn.

(** *** Records under a given id: the transformation creates none *)

Section CustomerCensus.
Import Xml Migrate.
Local Open Scope nat_scope.

Variable s : string.

Local Abbreviation q := (is_customer_with s).

Lemma customer_label : label_only q.
Proof. intros ? ? ? ? ? ?. reflexivity. Qed.

Lemma other_tag_is_no_customer (t : string) (e : elem) :
  is_tag t e = true -> String.eqb t (i_ "customer") = false -> q e = false.
Proof.
  unfold is_customer_with, is_tag. intros Ht Hne.
  apply String.eqb_eq in Ht. rewrite Ht, Hne. reflexivity.
Qed.

Lemma count_iter_le (e e' : elem) :
  q e' = q e -> count q (descendants e') <= count q (descendants e) ->
  count q (iter e') <= count q (iter e).
Proof. intros Hq Hle. rewrite !count_iter, Hq. lia. Qed.

Lemma count_append_child (k e : elem) :
  count q (descendants (append_child k e))
  = count q (descendants e) + count q (iter k).
Proof.
  unfold descendants, append_child. cbn [children set_children].
  rewrite flat_map_app, count_app. cbn [flat_map]. now rewrite app_nil_r.
Qed.

Lemma count_leaf (t : string) a x :
  String.eqb t (i_ "customer") = false -> count q (iter (Elem t a x [])) = 0.
Proof.
  intros Ht. rewrite count_iter.
  rewrite (other_tag_is_no_customer t); [reflexivity | apply String.eqb_refl | exact Ht].
Qed.

Lemma census_put_attribute name value dt c c' :
  put_attribute name value dt c = Ret c' ->
  q c' = q c /\ count q (descendants c') <= count q (descendants c).
Proof.
  unfold put_attribute. destruct (find (named_attribute name) c) as [a|].
  - apply (count_update_found q customer_label).
    intros a0 a' Ha [= <-]. rewrite !count_iter.
    unfold named_attribute in Ha. apply andb_true_iff in Ha as [Ha _].
    rewrite (other_tag_is_no_customer _ a0 Ha eq_refl).
    rewrite (other_tag_is_no_customer (i_ "custom-attribute")); [|exact Ha|reflexivity].
    reflexivity.
  - intros [= <-]. split; [destruct c; reflexivity|].
    rewrite count_append_child. unfold new_attribute.
    rewrite count_leaf by reflexivity. lia.
Qed.

Lemma census_insert_attribute name value dt e e' :
  insert_attribute name value dt e = Ret e' ->
  q e' = q e /\ count q (descendants e') <= count q (descendants e).
Proof.
  unfold insert_attribute. destruct (find is_custom_attributes e) as [a|].
  - apply (count_update_found q customer_label).
    intros c c' _ Hc. apply census_put_attribute in Hc as [Hq Hle].
    now apply count_iter_le.
  - unfold put_attribute. cbn [find findall descendants children flat_map filter head].
    cbn [mbind result_bind mret result_ret]. intros [= <-].
    split; [destruct e; reflexivity|].
    rewrite count_append_child, count_iter.
    rewrite (other_tag_is_no_customer (i_ "custom-attributes")) by reflexivity.
    rewrite count_append_child. unfold new_attribute.
    rewrite count_leaf by reflexivity. cbn [descendants children flat_map].
    rewrite count_nil. lia.
Qed.

Lemma census_rewrite_partner id n u :
  is_user u = true ->
  count q (iter (rewrite_partner id n u)) = count q (iter u).
Proof.
  intros Hu. unfold rewrite_partner. rewrite (count_map_text q customer_label).
  destruct (has_attr "business-partner-no" id u); [|reflexivity].
  rewrite !count_iter.
  rewrite (other_tag_is_no_customer _ u Hu eq_refl).
  rewrite (other_tag_is_no_customer (i_ "user")); [reflexivity|exact Hu|reflexivity].
Qed.

Lemma census_add_membership u u' :
  add_membership u = Ret u' ->
  q u' = q u /\ count q (descendants u') <= count q (descendants u).
Proof.
  apply (count_update_found q customer_label).
  intros g g' _. unfold add_marker. destruct (has_marker g); intros [= <-].
  - reflexivity.
  - apply count_iter_le; [destruct g; reflexivity|].
    rewrite count_append_child. unfold new_group.
    rewrite count_leaf by reflexivity. lia.
Qed.

Lemma census_remove_last_order_date u u' :
  remove_last_order_date u = Ret u' ->
  q u' = q u /\ count q (descendants u') <= count q (descendants u).
Proof.
  apply (count_update_found q customer_label).
  intros a a' _. unfold remove_all_last_order_date.
  destruct (forallb _ _); [|discriminate]. intros [= <-].
  apply count_iter_le; [destruct a; reflexivity|].
  unfold descendants. cbn [children set_children].
  apply count_filter_children.
Qed.

Lemma census_remove_first_child p ks ks' :
  remove_first_child p ks = Ret ks' ->
  count q (flat_map iter ks') <= count q (flat_map iter ks).
Proof.
  revert ks'. induction ks as [|k ks IH]; intros ks'.
  - intros [= <-]. reflexivity.
  - cbn [remove_first_child]. destruct (p k).
    + intros [= <-]. rewrite count_flat_cons. lia.
    + destruct (existsb p (descendants k)); [discriminate|].
      destruct (remove_first_child p ks) as [ks0| |]; try discriminate.
      intros [= <-]. rewrite !count_flat_cons. specialize (IH _ eq_refl). lia.
Qed.

Lemma census_remove_last_logged_in u u' :
  remove_last_logged_in u = Ret u' ->
  q u' = q u /\ count q (descendants u') <= count q (descendants u).
Proof.
  apply (count_update_found q customer_label).
  intros c c' _. unfold remove_first_last_logged_in. intros H.
  apply result_bind_inv in H as (ks & Hks & [= <-]).
  apply count_iter_le; [destruct c; reflexivity|].
  unfold descendants. cbn [children set_children].
  eapply census_remove_first_child, Hks.
Qed.

Lemma count_set_text x e : count q (iter (set_text x e)) = count q (iter e).
Proof. destruct e. rewrite !count_iter. reflexivity. Qed.

Lemma census_set_creation_date today u u' :
  set_creation_date today u = Ret u' ->
  q u' = q u /\ count q (descendants u') <= count q (descendants u).
Proof.
  apply (count_update_found q customer_label).
  intros pr pr' _ H. apply count_iter_le.
  - apply (count_update_found q customer_label) in H; [tauto|].
    intros c c' _ [= <-]. now rewrite count_set_text.
  - apply (count_update_found q customer_label) in H; [tauto|].
    intros c c' _ [= <-]. now rewrite count_set_text.
Qed.

Lemma census_migrate_user today id n u u' :
  is_user u = true ->
  migrate_user today id n u = Ret u' ->
  count q (iter u') <= count q (iter u).
Proof.
  intros Hu. unfold migrate_user. intros H.
  apply result_bind_inv in H as (u1 & H1 & H).
  apply result_bind_inv in H as (u2 & H2 & H).
  apply result_bind_inv in H as (u3 & H3 & H4).
  apply census_add_membership in H1 as [Hq1 Hle1].
  apply census_remove_last_order_date in H2 as [Hq2 Hle2].
  apply census_remove_last_logged_in in H3 as [Hq3 Hle3].
  apply census_set_creation_date in H4 as [Hq4 Hle4].
  rewrite <- (census_rewrite_partner id n u Hu).
  apply count_iter_le; [congruence | lia].
Qed.

(** The transformation brings no record with the id [s] into the subtree
    of the record it rewrites. *)
Lemma census_transform today id n s1 s2 s3 m d c c' :
  transform today id n s1 s2 s3 m d c = Ret c' ->
  count q (descendants c') <= count q (descendants c).
Proof.
  unfold transform, migrate_users.
  set (c0 := set_attr "id" (Cell.str n) c).
  set (c1 := rewrite_attributes s1 s2 s3 m d c0).
  assert (H1 : count q (descendants c1) = count q (descendants c)).
  { unfold c1, rewrite_attributes.
    now rewrite (count_map_text_below q customer_label). }
  intros H. apply result_bind_inv in H as (c2 & H2 & H).
  apply result_bind_inv in H as (c3 & H3 & H4).
  destruct (nested_users c3); [discriminate|].
  apply (count_map_where q customer_label) in H4 as [_ H4].
  2:{ intros u u' Hu. now apply census_migrate_user. }
  assert (H12 : count q (descendants c2) <= count q (descendants c1)).
  { destruct (negb _ && negb _) in H2.
    - now apply census_insert_attribute in H2.
    - now injection H2 as <-. }
  assert (H23 : count q (descendants c3) <= count q (descendants c2)).
  { destruct (negb _ && negb _ && negb _) in H3.
    - now apply census_insert_attribute in H3.
    - now injection H3 as <-. }
  lia.
Qed.

End CustomerCensus.

(** *** Two rows for one record *)

Section Duplicates.
Import Xml Migrate Samples.
Local Open Scope nat_scope.

Variable today_date : string.
Variable csv : list row.
Variable s : string.

Local Abbreviation q := (is_customer_with s).

Hypothesis new_ids_differ : forall r, In r csv -> Cell.str (new_customer_id r) <> s.

Lemma find_none_count (p : elem -> bool) (e : elem) :
  find p e = None <-> count p (descendants e) = 0.
Proof.
  unfold find, findall, count. rewrite length_zero_iff_nil.
  destruct (filter _ (descendants e)); split; intros H; try discriminate; reflexivity.
Qed.

Lemma found_count_le (p : elem -> bool) (e c : elem) :
  find p e = Some c -> count q (iter c) <= count q (descendants e).
Proof.
  intros H.
  pose proof (count_replace_first q (customer_label s) p
                (Elem EmptyString [] None []) e c H) as Hc.
  rewrite (count_leaf s EmptyString) in Hc by reflexivity. lia.
Qed.

Lemma transformed_is_not_s id r' c c' :
  In r' csv -> transform_by today_date id r' c = Ret c' -> q c' = false.
Proof.
  intros Hin Ht. apply transform_id in Ht.
  unfold is_customer_with, has_attr. rewrite Ht.
  apply new_ids_differ in Hin. apply String.eqb_neq in Hin. rewrite Hin.
  apply andb_false_r.
Qed.

Lemma find_customer_found root id c :
  find_customer root id = Ret (Some c) -> find (is_customer_with id) root = Some c.
Proof.
  unfold find_customer. destruct (Text.has_dquote id); [discriminate|].
  now intros [= ->].
Qed.

(** A row never brings a record with the id [s] into the source tree. *)
Lemma process_row_census st st' r :
  process_row today_date csv st r = Ret st' ->
  count q (descendants (st_root st')) <= count q (descendants (st_root st)).
Proof.
  intros H. apply process_row_inv in H.
  destruct H as [[_ ->] | [(c & l & _ & _ & ->) | (c & r' & c' & Hf & Hr & Ht & ->)]];
    cbn [st_root]; try reflexivity.
  apply find_customer_found in Hf.
  pose proof (count_replace_first q (customer_label s) _ c' _ _ Hf) as Hc.
  apply first_row_for_listed in Hr as (_ & _ & Hin).
  pose proof (transformed_is_not_s _ _ _ _ Hin Ht) as Hq.
  apply (census_transform s) in Ht.
  rewrite !count_iter, Hq in Hc. destruct (q c); lia.
Qed.

Lemma process_rows_census rows st st' :
  process_rows today_date csv st rows = Ret st' ->
  count q (descendants (st_root st')) <= count q (descendants (st_root st)).
Proof.
  revert st. induction rows as [|r rows IH]; intros st.
  - intros [= <-]. reflexivity.
  - cbn [process_rows]. intros H. apply result_bind_inv in H as (st1 & H1 & H2).
    apply process_row_census in H1. apply IH in H2. lia.
Qed.

(** The row that names the only record with the id [s] takes that id out of
    the source tree. *)
Lemma process_row_takes_the_id st st' r :
  Cell.str (current_customer_id r) = s ->
  Text.has_dquote s = false ->
  Text.strip s = s ->
  In r csv ->
  count q (descendants (st_root st)) = 1 ->
  process_row today_date csv st r = Ret st' ->
  count q (descendants (st_root st')) = 0
  /\ length (st_out st') = S (length (st_out st)).
Proof.
  intros Hs Hd Hstrip Hin H1 H.
  assert (Hlisted : s ∈ customer_ids_from_csv csv).
  { unfold customer_ids_from_csv. apply elem_of_list_to_set, list_elem_of_In.
    rewrite <- Hs. now apply (List.in_map current_str). }
  apply process_row_inv in H. rewrite Hs, Hstrip in H.
  destruct H as [[Hf _] | [(c & l & _ & Hn & _) | (c & r' & c' & Hf & Hr & Ht & ->)]].
  - exfalso. rewrite find_customer_plain in Hf by exact Hd.
    injection Hf as Hf. apply find_none_count in Hf. lia.
  - contradiction.
  - cbn [st_root st_out]. rewrite length_app. cbn [length]. split; [|lia].
    apply find_customer_found in Hf.
    pose proof (count_replace_first q (customer_label s) _ c' _ _ Hf) as Hc.
    pose proof (found_count_le _ _ _ Hf) as Hle.
    pose proof (find_holds _ _ _ Hf) as Hqc.
    apply first_row_for_listed in Hr as (_ & _ & Hin').
    pose proof (transformed_is_not_s _ _ _ _ Hin' Ht) as Hq.
    apply (census_transform s) in Ht.
    rewrite !count_iter, Hq, Hqc in Hc. rewrite count_iter, Hqc in Hle. lia.
Qed.

End Duplicates.

Section DuplicateRows.
Import Xml Migrate Samples.
Local Open Scope nat_scope.

(** C10 (as amended). Two rows of the table name the same current id [s],
    free of surrounding blanks and of double quotes; when the first is
    processed the source holds exactly one record with that id, and no row of
    the table has [s] as the text of its new id. Then the first row appends
    one record and rewrites the id in place, no record with the id [s] is left
    in the source tree after it nor after any rows in between, and the second
    row finds nothing: it is logged as not found and the output is as it
    was. *)
Theorem duplicate_directive_is_not_found
    (today : string) (csv : list row) (st st1 st2 : state)
    (r1 r2 : row) (between : list row) :
  let s := Cell.str (current_customer_id r1) in
  Cell.str (current_customer_id r2) = s ->
  Text.has_dquote s = false ->
  Text.strip s = s ->
  In r1 csv ->
  (forall r, In r csv -> Cell.str (new_customer_id r) <> s) ->
  count (is_customer_with s) (descendants (st_root st)) = 1 ->
  process_row today csv st r1 = Ret st1 ->
  process_rows today csv st1 between = Ret st2 ->
  length (st_out st1) = S (length (st_out st))
  /\ find (is_customer_with s) (st_root st1) = None
  /\ find (is_customer_with s) (st_root st2) = None
  /\ process_row today csv st2 r2
     = Ret (State (st_root st2) (st_out st2)
              (st_log st2 ++ [LogRow s (Text.strip (Cell.str (new_customer_id r2)))
                                NotOK NotFoundInSource])
              (st_found st2) (st_error_flag st2) (st_error_reason st2)).
Proof.
  intros s Hs2 Hd Hstrip Hin Hnew Hone H1 H2.
  destruct (process_row_takes_the_id today csv s Hnew st st1 r1
              eq_refl Hd Hstrip Hin Hone H1) as [Hzero Hout].
  pose proof (process_rows_census today csv s Hnew between st1 st2 H2) as Hle.
  assert (Hnone : find (is_customer_with s) (st_root st2) = None).
  { apply find_none_count. lia. }
  split; [exact Hout|]. split; [now apply find_none_count|].
  split; [exact Hnone|].
  rewrite (process_row_not_found today csv st2 r2); rewrite Hs2.
  - reflexivity.
  - rewrite find_customer_plain by exact Hd. now rewrite Hnone.
Qed.

Lemma duplicate_directive_is_not_found_witness :
  let csv := [good_row; good_row] in
  let st := initial (export [plain_customer]) in
  let st1 := after_row csv st good_row in
  length (st_out st1) = S (length (st_out st))
  /\ find (is_customer_with "1001") (st_root st1) = None
  /\ find (is_customer_with "1001") (st_root st1) = None
  /\ process_row today csv st1 good_row
     = Ret (State (st_root st1) (st_out st1)
              (st_log st1 ++ [LogRow "1001" "9001" NotOK NotFoundInSource])
              (st_found st1) (st_error_flag st1) (st_error_reason st1)).
Proof.
  intros csv st st1.
  apply (duplicate_directive_is_not_found today csv st st1 st1
           good_row good_row []).
  - reflexivity.
  - reflexivity.
  - reflexivity.
  - simpl. auto.
  - intros r [<- | [<- | []]]; vm_compute; discriminate.
  - vm_compute. reflexivity.
  - vm_compute. reflexivity.
  - reflexivity.
Defined.

(** C10 as stated fails: a row that keeps the id leaves the record where
    the second row finds it again, and the output holds the record twice. *)
Lemma duplicate_directive_appended_twice :
  exists a,
    run today (export [plain_customer]) [same_id_row; same_id_row] = Ret a
    /\ map (get "id") (children (output_xml a)) = [Some "1001"; Some "1001"]
    /\ map log_status (migration_log a) = [OK; OK].
Proof. eexists. split; [vm_compute; reflexivity | split; reflexivity]. Qed.

End DuplicateRows.

(** *** Where the script breaks its own promises *)

Section Defects.
Import Xml Migrate Samples.

(** C4. The branch that rewrites an existing order-number-mandatory
    attribute writes [str(mandatory_ref)] as it is: "True" for a true
    reference, "nan" for an empty field. The branch that inserts the
    attribute lower-cases the text and skips an empty field. *)
Theorem existing_mandatory_flag_gets_raw_text :
  transform_by today "1001" good_row flagged_customer
  = Ret (migrated "1001" good_row flagged_customer)
  /\ attribute_texts "MEK_CustomerOrderNumberMandatory"
       (migrated "1001" good_row flagged_customer) = [Some "True"]
  /\ transform_by today "1001" no_mandatory_row flagged_customer
     = Ret (migrated "1001" no_mandatory_row flagged_customer)
  /\ attribute_texts "MEK_CustomerOrderNumberMandatory"
       (migrated "1001" no_mandatory_row flagged_customer) = [Some "nan"]
  /\ attribute_texts "MEK_CustomerOrderNumberMandatory"
       (migrated "1001" good_row plain_customer) = [Some "true"]
  /\ attribute_texts "MEK_CustomerOrderNumberMandatory"
       (migrated "1001" no_mandatory_row plain_customer) = [].
Proof. repeat split; vm_compute; reflexivity. Qed.

(** C5. The empty-field check fires on Python's None only, which pandas
    never puts in a row: a row with an empty new_store_id passes the check,
    is logged OK, and the text "nan" goes into the record. *)
Theorem empty_field_passes_the_check :
  (forall r, missing_values r = true
             <-> In CNone [new_customer_id r; new_store_id r;
                           new_store_name r; new_source_id r])
  /\ missing_values no_store_row = false
  /\ validate no_store_row = Verdict false None (CStr "-2D")
  /\ exists a,
       run today (export [plain_customer]) [no_store_row] = Ret a
       /\ migration_log a = [LogRow "1001" "9001" OK FoundInSource]
       /\ map (attribute_texts "MEK_Store_Id") (children (output_xml a))
          = [[Some "nan"]].
Proof.
  split; [|split; [reflexivity | split; [reflexivity|]]].
  - intros r. unfold missing_values. rewrite existsb_exists. split.
    + intros (c & Hin & Hc). destruct c; try discriminate. exact Hin.
    + intros Hin. exists CNone. split; [exact Hin | reflexivity].
  - eexists. split; [vm_compute; reflexivity | split; reflexivity].
Qed.

Lemma process_row_root_label today csv st st' r :
  process_row today csv st r = Ret st' -> same_label (st_root st) (st_root st').
Proof.
  intros H. apply process_row_inv in H.
  destruct H as [[_ ->] | [(c & l & _ & _ & ->) | (c & r' & c' & _ & _ & _ & ->)]];
    cbn [st_root]; try apply same_label_refl.
  apply replace_first_label.
Qed.

Lemma process_rows_root_label today csv rows st st' :
  process_rows today csv st rows = Ret st' ->
  same_label (st_root st) (st_root st').
Proof.
  revert st. induction rows as [|r rows IH]; intros st.
  - intros [= <-]. apply same_label_refl.
  - cbn [process_rows]. intros H.
    apply result_bind_inv in H as (st1 & H1 & H2).
    eapply same_label_trans; [eapply process_row_root_label, H1 | apply IH, H2].
Qed.

(** C6. When the root of the source document has no schemaLocation
    attribute the run never produces its artifacts: the loop done, the copy
    of the schema reference hands None to lxml's [set], a TypeError. *)
Theorem missing_schema_reference_ends_the_run
    (today : string) (root : elem) (csv : list row) :
  get schemaLocation root = None ->
  (forall a, run today root csv <> Ret a)
  /\ (forall st, process_rows today csv (initial root) csv = Ret st ->
                 run today root csv = Raise TypeError).
Proof.
  intros Hs.
  assert (Hrun : forall st, process_rows today csv (initial root) csv = Ret st ->
                            run today root csv = Raise TypeError).
  { intros st Hst. unfold run. rewrite Hst. cbn [mbind result_bind].
    apply process_rows_root_label in Hst as (_ & Ha & _).
    unfold get in *. cbn [st_root initial] in Ha. rewrite Ha, Hs. reflexivity. }
  split; [|exact Hrun].
  intros a Ha.
  destruct (process_rows today csv (initial root) csv) as [st| |] eqn:Hst.
  - rewrite (Hrun st eq_refl) in Ha. discriminate.
  - unfold run in Ha. rewrite Hst in Ha. discriminate.
  - unfold run in Ha. rewrite Hst in Ha. discriminate.
Qed.

Lemma missing_schema_reference_ends_the_run_witness :
  run today (export_without_schema [plain_customer]) [good_row] = Raise TypeError.
Proof.
  refine (proj2 (missing_schema_reference_ends_the_run today
                   (export_without_schema [plain_customer]) [good_row] eq_refl)
            _ _).
  vm_compute. reflexivity.
Defined.

End Defects.

(** *** Choosing a file by number *)

Section Selection.
Import Files.

Lemma decimal_is_digit (s : string) :
  all_chars is_decimal s = true -> all_chars is_digit s = true.
Proof.
  induction s as [|c s IH]; [reflexivity|]. cbn [all_chars].
  intros [Hc Hs]%andb_true_iff. rewrite (IH Hs), andb_true_r.
  unfold is_digit. unfold is_decimal in Hc. now rewrite Hc.
Qed.

Lemma int_from_nonneg (s : string) (acc : Z) :
  all_chars is_decimal s = true -> 0 <= acc -> 0 <= int_from acc s.
Proof.
  revert acc. induction s as [|c s IH]; intros acc; [easy|].
  cbn [all_chars int_from]. intros [Hc Hs]%andb_true_iff Hacc.
  apply (IH _ Hs). unfold is_decimal, Text.between in Hc.
  apply andb_true_iff in Hc as [H1 H2].
  apply N.leb_le in H1. lia.
Qed.

(** When [select_file] hands out a path. *)
Lemma select_file_some limit files line f :
  select_file limit files line = Ret (Some f) <->
  exists k : nat,
    files !! k = Some f
    /\ all_chars is_decimal (Text.strip line) = true
    /\ fits limit (Text.strip line) = true
    /\ int_from 0 (Text.strip line) = Z.of_nat (S k).
Proof.
  unfold select_file. set (s := Text.strip line). split.
  - destruct files as [|f0 fs]; [discriminate|].
    destruct (isdigit s); [|discriminate]. unfold int_of_digits.
    destruct (all_chars is_decimal s) eqn:Hd; [|discriminate].
    destruct (fits limit s) eqn:Hl; [|discriminate].
    cbn [andb mbind result_bind].
    destruct ((0 <? int_from 0 s) && _) eqn:Hn; [|discriminate].
    apply andb_true_iff in Hn as [H0%Z.ltb_lt _].
    destruct ((f0 :: fs) !! Z.to_nat (int_from 0 s - 1)) as [f'|] eqn:Hf;
      [|discriminate].
    intros [= ->]. exists (Z.to_nat (int_from 0 s - 1)).
    split; [exact Hf|]. split; [reflexivity|]. split; [reflexivity|]. lia.
  - intros (k & Hk & Hd & Hl & Hn).
    destruct files as [|f0 fs]; [discriminate Hk|].
    assert (Hs : isdigit s = true).
    { unfold isdigit. destruct s; [discriminate Hn|]. now apply decimal_is_digit. }
    rewrite Hs. unfold int_of_digits. rewrite Hd, Hl.
    cbn [andb mbind result_bind]. rewrite Hn.
    apply lookup_lt_Some in Hk as Hlt.
    replace (0 <? Z.of_nat (S k)) with true by (symmetry; apply Z.ltb_lt; lia).
    replace (Z.of_nat (S k) <=? Z.of_nat (length (f0 :: fs))) with true
      by (symmetry; apply Z.leb_le; lia).
    cbn [andb]. replace (Z.to_nat (Z.of_nat (S k) - 1)) with k by lia.
    now rewrite Hk.
Qed.

Lemma select_file_in_range (files : list string) (n : Z) :
  (0 <? n) && (n <=? Z.of_nat (length files)) = true ->
  exists f, files !! Z.to_nat (n - 1) = Some f.
Proof.
  intros [H0%Z.ltb_lt H1%Z.leb_le]%andb_true_iff.
  apply lookup_lt_is_Some. lia.
Qed.

End Selection.

(** *** Decimal texts *)

Section Decimals.
Import Files.

Lemma pretty_char_decimal (d : N) : is_decimal (pretty_N_char d) = true.
Proof. unfold pretty_N_char. repeat case_match; reflexivity. Qed.

Lemma pretty_char_value (d : N) :
  (d < 10)%N -> Z.of_N (Text.code (pretty_N_char d)) - 48 = Z.of_N d.
Proof.
  intros Hd.
  assert (d = 0 \/ d = 1 \/ d = 2 \/ d = 3 \/ d = 4 \/ d = 5 \/ d = 6
          \/ d = 7 \/ d = 8 \/ d = 9)%N as H by lia.
  repeat (destruct H as [->|H]; [reflexivity|]). now subst d.
Qed.

Lemma pretty_go_decimal (x : N) (s : string) :
  all_chars is_decimal (pretty_N_go x s) = all_chars is_decimal s.
Proof.
  revert s. induction (N.lt_wf_0 x) as [x _ IH]; intros s.
  destruct (decide (x = 0)%N) as [->|Hx]; [now rewrite pretty_N_go_0|].
  rewrite pretty_N_go_step by lia. rewrite IH by (apply N.div_lt; lia).
  cbn [all_chars]. now rewrite pretty_char_decimal.
Qed.

Lemma int_from_pretty_go (x : N) (s : string) :
  int_from 0 (pretty_N_go x s) = int_from (Z.of_N x) s.
Proof.
  revert s. induction (N.lt_wf_0 x) as [x _ IH]; intros s.
  destruct (decide (x = 0)%N) as [->|Hx]; [now rewrite pretty_N_go_0|].
  rewrite pretty_N_go_step by lia. rewrite IH by (apply N.div_lt; lia).
  cbn [int_from]. f_equal.
  rewrite pretty_char_value by (apply N.mod_lt; lia).
  rewrite N2Z.inj_div, N2Z.inj_mod. change (Z.of_N 10) with 10.
  pose proof (Z.div_mod (Z.of_N x) 10). lia.
Qed.

Lemma pretty_positive_nat (k : nat) :
  pretty (S k) = pretty_N_go (N.of_nat (S k)) "".
Proof.
  unfold pretty, pretty_nat, pretty, pretty_N.
  destruct (decide (N.of_nat (S k) = 0%N)); [lia|reflexivity].
Qed.

(** Reading a printed number gives the number back. *)
Lemma int_from_pretty (k : nat) :
  all_chars is_decimal (pretty (S k)) = true
  /\ int_from 0 (pretty (S k)) = Z.of_nat (S k).
Proof.
  rewrite pretty_positive_nat, pretty_go_decimal, int_from_pretty_go.
  split; [reflexivity|]. cbn [int_from]. lia.
Qed.

Lemma decimal_is_no_space (c : ascii) :
  is_decimal c = true -> Text.is_space c = false.
Proof.
  unfold is_decimal, Text.is_space, Text.between.
  intros [H1%N.leb_le H2%N.leb_le]%andb_true_iff.
  repeat (apply orb_false_iff; split);
    try (apply andb_false_iff; left; apply N.leb_gt; lia);
    try (apply andb_false_iff; right; apply N.leb_gt; lia);
    apply N.eqb_neq; lia.
Qed.

Lemma append_cons (c : ascii) (r s : string) :
  String c r +:+ s = String c (r +:+ s).
Proof. reflexivity. Qed.

Lemma append_nil (s : string) : "" +:+ s = s.
Proof. reflexivity. Qed.

Lemma lstrip_pad (pad s : string) :
  all_chars Text.is_space pad = true ->
  Text.lstrip (pad +:+ s) = Text.lstrip s.
Proof.
  induction pad as [|c pad IH]; [reflexivity|]. cbn [all_chars].
  intros [Hc Hp]%andb_true_iff. rewrite append_cons. cbn [Text.lstrip].
  rewrite Hc. now apply IH.
Qed.

Lemma rstrip_pad (pad : string) :
  all_chars Text.is_space pad = true -> Text.rstrip pad = "".
Proof.
  induction pad as [|c pad IH]; [reflexivity|]. cbn [all_chars].
  intros [Hc Hp]%andb_true_iff. cbn [Text.rstrip].
  now rewrite (IH Hp), Hc.
Qed.

Lemma rstrip_decimal_pad (d pad : string) :
  all_chars is_decimal d = true -> d <> "" ->
  all_chars Text.is_space pad = true ->
  Text.rstrip (d +:+ pad) = d.
Proof.
  intros Hd Hne Hp. induction d as [|c d IH]; [contradiction|].
  cbn [all_chars] in Hd. apply andb_true_iff in Hd as [Hc Hd].
  rewrite append_cons. cbn [Text.rstrip]. destruct d as [|c' d'].
  - rewrite append_nil, (rstrip_pad _ Hp).
    now rewrite (decimal_is_no_space _ Hc).
  - rewrite (IH Hd) by discriminate. reflexivity.
Qed.

Lemma strip_padded_decimal (pad1 d pad2 : string) :
  all_chars Text.is_space pad1 = true ->
  all_chars is_decimal d = true -> d <> "" ->
  all_chars Text.is_space pad2 = true ->
  Text.strip (pad1 +:+ d +:+ pad2) = d.
Proof.
  intros H1 Hd Hne H2. unfold Text.strip. rewrite (lstrip_pad _ _ H1).
  destruct d as [|c d]; [contradiction|].
  cbn [all_chars] in Hd. apply andb_true_iff in Hd as [Hc Hd].
  rewrite append_cons. cbn [Text.lstrip]. rewrite (decimal_is_no_space _ Hc).
  rewrite <- append_cons.
  apply rstrip_decimal_pad; [|discriminate|exact H2].
  cbn [all_chars]. now rewrite Hc, Hd.
Qed.

End Decimals.

(** *** What [select_file] returns *)

Section SelectFile.
Import Files Samples.

(** A path handed out by [select_file] is the entry of the list whose
    number was typed: the line, stripped, is a decimal text within the
    interpreter's limit, and its value is the position of the path, counted
    from one. *)
Theorem select_file_picks_the_numbered_entry
  (limit : option nat) (files : list string) (line f : string) :
  select_file limit files line = Ret (Some f) ->
  exists k : nat,
    files !! k = Some f
    /\ all_chars is_decimal (Text.strip line) = true
    /\ fits limit (Text.strip line) = true
    /\ int_from 0 (Text.strip line) = Z.of_nat (S k).
Proof. apply select_file_some. Qed.

Lemma select_file_picks_the_numbered_entry_witness :
  select_file (Some 4300%nat) ["input/a.csv"; "input/b.csv"] " 02 "
  = Ret (Some "input/b.csv")
  /\ exists k : nat,
       ["input/a.csv"; "input/b.csv"] !! k = Some "input/b.csv"
       /\ all_chars is_decimal (Text.strip " 02 ") = true
       /\ fits (Some 4300%nat) (Text.strip " 02 ") = true
       /\ int_from 0 (Text.strip " 02 ") = Z.of_nat (S k).
Proof.
  split; [reflexivity|].
  apply (select_file_picks_the_numbered_entry (Some 4300%nat)
           ["input/a.csv"; "input/b.csv"] " 02 " "input/b.csv").
  reflexivity.
Defined.

(** [select_file] never indexes outside the list. It fails only where
    [int] does: it raises exactly when there is something to choose from,
    the stripped line passes [isdigit] and [int] refuses it, and then with
    the ValueError of [int]. In every other case it returns a path or
    None. *)
Theorem select_file_fails_only_in_int
  (limit : option nat) (files : list string) (line : string) :
  let s := Text.strip line in
  match select_file limit files line with
  | Raise e =>
      files <> [] /\ isdigit s = true
      /\ int_of_digits limit s = Raise e /\ e = ValueError
  | OutsideModel => False
  | Ret _ =>
      files = [] \/ isdigit s = false
      \/ exists n, int_of_digits limit s = Ret n
  end.
Proof.
  intros s. unfold select_file. fold s.
  destruct files as [|f0 fs]; [now left|].
  destruct (isdigit s) eqn:Hs; [|now right; left].
  destruct (int_of_digits limit s) as [n|e|] eqn:Hi; cbn [mbind result_bind].
  - destruct ((0 <? n) && _) eqn:Hn.
    + destruct (select_file_in_range _ _ Hn) as [f ->]. right; right.
      now exists n.
    + right; right. now exists n.
  - repeat split; [discriminate|].
    unfold int_of_digits in Hi.
    destruct (all_chars is_decimal s && fits limit s); congruence.
  - unfold int_of_digits in Hi.
    destruct (all_chars is_decimal s && fits limit s); discriminate.
Qed.

(** Typing the number of an entry, with or without blanks around it,
    selects that entry. *)
Theorem typed_number_selects_that_file
  (limit : option nat) (files : list string) (k : nat) (f pad1 pad2 : string) :
  files !! k = Some f ->
  all_chars Text.is_space pad1 = true ->
  all_chars Text.is_space pad2 = true ->
  fits limit (pretty (S k)) = true ->
  select_file limit files (pad1 +:+ pretty (S k) +:+ pad2) = Ret (Some f).
Proof.
  intros Hk H1 H2 Hl. destruct (int_from_pretty k) as [Hd Hn].
  assert (Hs : Text.strip (pad1 +:+ pretty (S k) +:+ pad2) = pretty (S k)).
  { apply strip_padded_decimal; auto. intros E. rewrite E in Hn.
    cbn [int_from] in Hn. lia. }
  apply select_file_some. exists k. rewrite Hs. auto.
Qed.

Lemma typed_number_selects_that_file_witness :
  select_file (Some 4300%nat) ["input/a.csv"; "input/b.csv"; "input/c.csv"]
    (" " +:+ pretty 3%nat +:+ "  ")
  = Ret (Some "input/c.csv").
Proof.
  apply (typed_number_selects_that_file (Some 4300%nat)
           ["input/a.csv"; "input/b.csv"; "input/c.csv"] 2 "input/c.csv"
           " " "  "); reflexivity.
Defined.

End SelectFile.

(** *** The latest files of a directory *)

Section LatestFiles.
Import Files.

Variable key : string -> Z.

Lemma insert_desc_perm (x : string) (l : list string) :
  insert_desc key x l ≡ₚ x :: l.
Proof.
  induction l as [|y l IH]; [reflexivity|]. cbn [insert_desc].
  destruct (key x <? key y); [|reflexivity].
  rewrite IH. apply Permutation_swap.
Qed.

Lemma sorted_desc_perm (l : list string) : sorted_desc key l ≡ₚ l.
Proof.
  induction l as [|x l IH]; [reflexivity|]. cbn [sorted_desc foldr].
  fold (sorted_desc key l). now rewrite insert_desc_perm, IH.
Qed.

Lemma insert_desc_sorted (x : string) (l : list string) :
  newest_first key l -> newest_first key (insert_desc key x l).
Proof.
  induction l as [|y l IH]; cbn [insert_desc newest_first].
  - intros _. split; [constructor|exact I].
  - intros [Hy Hl]. destruct (key x <? key y) eqn:E.
    + apply Z.ltb_lt in E. cbn [newest_first]. split; [|now apply IH].
      apply Forall_forall. intros z Hz.
      apply list_elem_of_In, (Permutation_in _ (insert_desc_perm x l)) in Hz.
      destruct Hz as [<-|Hz]; [lia|].
      rewrite Forall_forall in Hy. apply Hy. now apply list_elem_of_In.
    + apply Z.ltb_ge in E. cbn [newest_first]. split; [|now split].
      constructor; [exact E|]. eapply Forall_impl; [exact Hy|].
      cbn. intros; lia.
Qed.

Lemma sorted_desc_sorted (l : list string) :
  newest_first key (sorted_desc key l).
Proof.
  induction l as [|x l IH]; [exact I|]. cbn [sorted_desc foldr].
  now apply insert_desc_sorted.
Qed.

Lemma newest_first_lookup (l : list string) (i j : nat) (a b : string) :
  newest_first key l -> (i < j)%nat -> l !! i = Some a -> l !! j = Some b ->
  key b <= key a.
Proof.
  revert i j. induction l as [|x l IH]; intros i j Hs Hij Ha Hb.
  - discriminate Ha.
  - destruct Hs as [Hx Hl].
    destruct j as [|j]; [lia|]. cbn in Hb. destruct i as [|i].
    + injection Ha as <-. rewrite Forall_forall in Hx. apply Hx.
      eapply list_elem_of_lookup_2, Hb.
    + cbn in Ha. apply (IH i j); [exact Hl|lia|exact Ha|exact Hb].
Qed.

Lemma up_to_is_take (count : Z) (l : list string) :
  exists n : nat, up_to count l = take n l
                  /\ (0 <= count -> n = Z.to_nat count).
Proof.
  unfold up_to. destruct (0 <=? count) eqn:E.
  - eexists. split; [reflexivity|]. reflexivity.
  - apply Z.leb_gt in E. eexists. split; [reflexivity|]. lia.
Qed.

End LatestFiles.

Section LatestFilesFacts.
Import Files.

Lemma latest_is_take listdir getmtime directory extension count :
  exists n : nat,
    get_latest_files listdir getmtime directory extension count
    = take n (sorted_desc getmtime
                (map (path_join directory)
                   (filter (fun f => endswith f extension = true) listdir)))
    /\ (0 <= count -> n = Z.to_nat count).
Proof. unfold get_latest_files. apply up_to_is_take. Qed.

Lemma sorted_desc_member getmtime directory extension listdir p :
  In p (sorted_desc getmtime
          (map (path_join directory)
             (filter (fun f => endswith f extension = true) listdir))) <->
  exists name, In name listdir /\ endswith name extension = true
               /\ p = path_join directory name.
Proof.
  rewrite <- list_elem_of_In, sorted_desc_perm, list_elem_of_In, in_map_iff.
  split; intros (name & H1 & H2).
  - apply list_elem_of_In, list_elem_of_filter in H2 as [H2 H3].
    exists name. split; [now apply list_elem_of_In|]. auto.
  - destruct H2 as [H2 ->]. exists name. split; [reflexivity|].
    apply list_elem_of_In, list_elem_of_filter. split; [exact H2|].
    now apply list_elem_of_In.
Qed.

Lemma latest_files_member listdir getmtime directory extension count p :
  In p (get_latest_files listdir getmtime directory extension count) ->
  exists name,
    In name listdir /\ endswith name extension = true
    /\ p = path_join directory name.
Proof.
  destruct (latest_is_take listdir getmtime directory extension count)
    as (n & -> & _). intros Hp.
  apply (proj1 (sorted_desc_member getmtime directory extension listdir p)).
  apply list_elem_of_In, elem_of_take in Hp as (i & Hi & _).
  eapply list_elem_of_In, list_elem_of_lookup_2, Hi.
Qed.

(** [get_latest_files] lists the newest file first: no path of the result
    is followed by one that was modified later. *)
Theorem latest_files_newest_first
  (listdir : list string) (getmtime : string -> Z)
  (directory extension : string) (count : Z) :
  newest_first getmtime
    (get_latest_files listdir getmtime directory extension count).
Proof.
  destruct (latest_is_take listdir getmtime directory extension count)
    as (n & -> & _).
  generalize (sorted_desc_sorted getmtime
                (map (path_join directory)
                   (filter (fun f => endswith f extension = true) listdir))).
  generalize (sorted_desc getmtime
                (map (path_join directory)
                   (filter (fun f => endswith f extension = true) listdir))).
  intros l. revert n. induction l as [|x l IH]; intros [|n] Hl; try exact I.
  destruct Hl as [Hx Hl]. cbn [take newest_first]. split; [|now apply IH].
  apply Forall_forall. intros y Hy. rewrite Forall_forall in Hx. apply Hx.
  apply elem_of_take in Hy as (i & Hi & _). eapply list_elem_of_lookup_2, Hi.
Qed.

(** A file of the directory with the extension that is left out of the
    result is no newer than any file in it. *)
Theorem files_left_out_are_no_newer
  (listdir : list string) (getmtime : string -> Z)
  (directory extension : string) (count : Z) (name kept : string) :
  In name listdir ->
  endswith name extension = true ->
  ~ In (path_join directory name)
      (get_latest_files listdir getmtime directory extension count) ->
  In kept (get_latest_files listdir getmtime directory extension count) ->
  getmtime (path_join directory name) <= getmtime kept.
Proof.
  intros Hname Hext Hout Hkept.
  destruct (latest_is_take listdir getmtime directory extension count)
    as (n & E & _). rewrite E in Hout, Hkept.
  assert (Hp : In (path_join directory name)
                 (sorted_desc getmtime
                    (map (path_join directory)
                       (filter (fun f => endswith f extension = true) listdir)))).
  { apply (proj2 (sorted_desc_member getmtime directory extension listdir _)).
    now exists name. }
  apply list_elem_of_In, list_elem_of_lookup in Hp as [j Hj].
  apply list_elem_of_In, elem_of_take in Hkept as (i & Hi & Hin).
  destruct (decide (j < n)%nat) as [Hlt|Hge].
  - exfalso. apply Hout, list_elem_of_In, elem_of_take. now exists j.
  - eapply (newest_first_lookup getmtime _ i j);
      [apply sorted_desc_sorted|lia|exact Hi|exact Hj].
Qed.

(** The result holds [count] paths, or all the files of the directory with
    the extension when there are fewer: at most five as the script calls
    it. *)
Theorem latest_files_are_at_most_count
  (listdir : list string) (getmtime : string -> Z)
  (directory extension : string) (count : Z) :
  0 <= count ->
  length (get_latest_files listdir getmtime directory extension count)
  = Nat.min (Z.to_nat count)
      (length (filter (fun f => endswith f extension = true) listdir)).
Proof.
  intros Hc.
  destruct (latest_is_take listdir getmtime directory extension count)
    as (n & -> & Hn). rewrite (Hn Hc), length_take.
  now rewrite (Permutation_length (sorted_desc_perm _ _)), length_map.
Qed.

(** Every path of the result is [os.path.join(directory, name)] for a name
    of the listing that ends with the extension. *)
Theorem latest_files_are_listed
  (listdir : list string) (getmtime : string -> Z)
  (directory extension : string) (count : Z) (p : string) :
  In p (get_latest_files listdir getmtime directory extension count) ->
  exists name,
    In name listdir /\ endswith name extension = true
    /\ p = path_join directory name.
Proof.
  apply latest_files_member.
Qed.

(** The input file is the example or a file of the listing with the
    extension, under the directory. *)
Theorem input_file_is_listed_or_example
  (limit : option nat) (listdir : list string) (getmtime : string -> Z)
  (directory extension example line p : string) :
  input_file limit listdir getmtime directory extension example line = Ret p ->
  p = example
  \/ exists name,
       In name listdir /\ endswith name extension = true
       /\ p = path_join directory name.
Proof.
  unfold input_file. intros H.
  apply result_bind_inv in H as ([f|] & Hs & [= <-]); [|now left].
  destruct f as [|c f]; [now left|]. right. cbn [or_example].
  apply select_file_some in Hs as (k & Hk & _).
  apply (latest_files_member listdir getmtime directory extension 5).
  eapply list_elem_of_In, list_elem_of_lookup_2, Hk.
Qed.

(** With no file of the extension in the directory the example is used,
    whatever the line. *)
Theorem no_candidate_means_example
  (limit : option nat) (listdir : list string) (getmtime : string -> Z)
  (directory extension example line : string) :
  Forall (fun name => endswith name extension = false) listdir ->
  input_file limit listdir getmtime directory extension example line
  = Ret example.
Proof.
  intros Hn. unfold input_file.
  assert (E : get_latest_files listdir getmtime directory extension 5 = []).
  { destruct (get_latest_files listdir getmtime directory extension 5)
      as [|p l] eqn:E; [reflexivity|]. exfalso.
    destruct (latest_files_member listdir getmtime directory extension 5 p)
      as (name & H1 & H2 & _); [rewrite E; now left|].
    rewrite Forall_forall in Hn. apply list_elem_of_In in H1.
    rewrite (Hn _ H1) in H2. discriminate. }
  rewrite E. reflexivity.
Qed.

End LatestFilesFacts.

Section LatestFilesSamples.
Import Files Samples.

Lemma files_left_out_are_no_newer_witness :
  get_latest_files listing mtime "input" ".csv" 5
  = ["input/d.csv"; "input/b.csv"; "input/a.csv"; "input/c.csv"; "input/e.csv"]
  /\ mtime (path_join "input" "old.csv") <= mtime "input/e.csv".
Proof.
  split; [reflexivity|].
  apply (files_left_out_are_no_newer listing mtime "input" ".csv" 5
           "old.csv" "input/e.csv").
  - cbn. tauto.
  - reflexivity.
  - vm_compute. intuition discriminate.
  - vm_compute. tauto.
Defined.

Lemma latest_files_are_at_most_count_witness :
  length (get_latest_files listing mtime "input" ".csv" 5) = 5%nat
  /\ length (get_latest_files listing mtime "input" ".xml" 5) = 1%nat.
Proof.
  split.
  - apply (latest_files_are_at_most_count listing mtime "input" ".csv" 5). lia.
  - apply (latest_files_are_at_most_count listing mtime "input" ".xml" 5). lia.
Defined.

Lemma latest_files_are_listed_witness :
  exists name,
    In name listing /\ endswith name ".csv" = true
    /\ "input/b.csv" = path_join "input" name.
Proof.
  apply (latest_files_are_listed listing mtime "input" ".csv" 5 "input/b.csv").
  vm_compute. tauto.
Defined.

Lemma input_file_is_listed_or_example_witness :
  input_file (Some 4300%nat) listing mtime "input" ".csv" example_csv "2"
  = Ret "input/b.csv"
  /\ ("input/b.csv" = example_csv
      \/ exists name,
           In name listing /\ endswith name ".csv" = true
           /\ "input/b.csv" = path_join "input" name).
Proof.
  split; [reflexivity|].
  apply (input_file_is_listed_or_example (Some 4300%nat) listing mtime
           "input" ".csv" example_csv "2" "input/b.csv").
  reflexivity.
Defined.

Lemma no_candidate_means_example_witness :
  input_file (Some 4300%nat) ["notes.txt"; "export.xml"] mtime "input" ".csv"
    example_csv "1"
  = Ret example_csv.
Proof.
  apply (no_candidate_means_example (Some 4300%nat) ["notes.txt"; "export.xml"]
           mtime "input" ".csv" example_csv "1").
  repeat constructor.
Defined.

End LatestFilesSamples.

(** *** The attribute loop (lines 161-183) *)

Section AttributeLoop.
Import Xml Migrate.

Variables sid sname src m d : cell.

Local Abbreviation g := (rewrite_text sid sname src m d).

Lemma map_text_node (h : elem -> option string) (e : elem) :
  tag (map_text h e) = tag e /\ attrib (map_text h e) = attrib e
  /\ text (map_text h e) = h e
  /\ children (map_text h e) = map (map_text h) (children e).
Proof. destruct e. repeat split. Qed.

Lemma descendants_rewrite_attributes (c : elem) :
  descendants (rewrite_attributes sid sname src m d c)
  = map (map_text g) (descendants c).
Proof.
  unfold rewrite_attributes, map_text_below, descendants.
  cbn [children set_children]. induction (children c) as [|k ks IH];
    [reflexivity|].
  cbn [map flat_map]. now rewrite IH, map_app, iter_map_text.
Qed.

Lemma named_attribute_get (name : string) (a : elem) :
  named_attribute name a = true ->
  is_custom_attribute a = true /\ get "name" a = Some name.
Proof.
  unfold named_attribute. intros [Ht Hn]%andb_true_iff. split; [exact Ht|].
  now apply has_attr_get.
Qed.

(** What the loop writes into an attribute it knows by name. *)
Lemma rewrite_text_named (name value : string) (a : elem) :
  In (name, value)
    [("MEK_Store_Id", Cell.str sid); ("MEK_WarehouseID", Cell.str sid);
     ("MEK_Store_Name", Cell.str sname); ("MEK_DataAreaID", Cell.str src);
     ("MEK_SourceID", Cell.str src); ("MEK_SystemID", "6")] ->
  named_attribute name a = true ->
  g a = Some value.
Proof.
  intros Hin [Ht Hn]%named_attribute_get.
  unfold rewrite_text. rewrite Ht. unfold arm_text, arm_of, has_attr.
  rewrite Hn. cbn [In] in Hin.
  repeat (destruct Hin as [[= <- <-]|Hin]; [reflexivity|]). contradiction.
Qed.

Lemma rewrite_text_again t a x ks ks' :
  g (Elem t a (g (Elem t a x ks)) ks') = g (Elem t a x ks).
Proof.
  unfold rewrite_text, is_custom_attribute, is_tag. cbn [tag].
  destruct (String.eqb t (i_ "custom-attribute")); [|reflexivity].
  unfold arm_text, arm_of, has_attr, text_is, get. cbn [attrib text].
  destruct (attr_get "name" a) as [v|]; [|reflexivity].
  destruct (String.eqb v "MEK_Company") eqn:E1.
  - apply String.eqb_eq in E1. subst v.
    destruct x as [x|]; [|reflexivity].
    destruct (String.eqb x "Mekonomen") eqn:E2; [reflexivity|].
    cbn. now rewrite E2.
  - cbn [andb].
    repeat match goal with
           | |- context [String.eqb v ?s] => destruct (String.eqb v s)
           end; cbn [andb]; try reflexivity;
      destruct (Cell.is_none m), (Cell.is_none d); reflexivity.
Qed.

Lemma map_text_again (e : elem) :
  map_text g (map_text g e) = map_text g e.
Proof.
  induction e as [t a x ks IH] using elem_induction.
  cbn [map_text]. f_equal.
  - apply rewrite_text_again.
  - rewrite map_map. apply map_ext_Forall. exact IH.
Qed.

End AttributeLoop.

Section AttributeLoopFacts.
Import Xml Migrate Samples.

(** After the attribute loop every custom-attribute of the record that
    carries one of the store names holds the value of the row, wherever it
    sits in the record, the accounts included: MEK_Store_Id and
    MEK_WarehouseID the new store id, MEK_Store_Name the new store name,
    MEK_DataAreaID and MEK_SourceID the new source id, MEK_SystemID "6". *)
Theorem attribute_loop_writes_the_row_values
  (sid sname src m d : cell) (c a : elem) (name value : string) :
  In (name, value)
    [("MEK_Store_Id", Cell.str sid); ("MEK_WarehouseID", Cell.str sid);
     ("MEK_Store_Name", Cell.str sname); ("MEK_DataAreaID", Cell.str src);
     ("MEK_SourceID", Cell.str src); ("MEK_SystemID", "6")] ->
  In a (descendants (rewrite_attributes sid sname src m d c)) ->
  named_attribute name a = true ->
  text a = Some value.
Proof.
  intros Hin Ha Hn. rewrite descendants_rewrite_attributes in Ha.
  apply in_map_iff in Ha as (a0 & <- & _).
  destruct (map_text_node (rewrite_text sid sname src m d) a0)
    as (Ht & Hattr & Hx & _).
  rewrite Hx. apply (rewrite_text_named sid sname src m d name value a0 Hin).
  unfold named_attribute, is_custom_attribute, is_tag, has_attr, get in *.
  now rewrite Ht, Hattr in Hn.
Qed.

Lemma attribute_loop_writes_the_row_values_witness :
  In (attribute "MEK_Store_Id" "77")
    (descendants
       (rewrite_attributes (CInt 77) (CStr "Store A") (CStr "SRC1")
          (CBool true) (CStr "-2D") plain_customer))
  /\ text (attribute "MEK_Store_Id" "77") = Some (Cell.str (CInt 77)).
Proof.
  assert (Hin : In (attribute "MEK_Store_Id" "77")
                  (descendants
                     (rewrite_attributes (CInt 77) (CStr "Store A")
                        (CStr "SRC1") (CBool true) (CStr "-2D")
                        plain_customer))).
  { vm_compute. repeat (first [left; reflexivity | right]). }
  split; [exact Hin|].
  apply (attribute_loop_writes_the_row_values (CInt 77) (CStr "Store A")
           (CStr "SRC1") (CBool true) (CStr "-2D") plain_customer
           (attribute "MEK_Store_Id" "77") "MEK_Store_Id" (Cell.str (CInt 77)));
    [cbn; tauto|exact Hin|reflexivity].
Defined.

(** The attribute loop changes texts only: the record keeps its elements
    in their order, each with its tag, its attributes and as many children,
    and an element that is no custom-attribute, or a custom-attribute no arm
    of the loop fires for, keeps its text as well. *)
Theorem attribute_loop_changes_texts_only
  (sid sname src m d : cell) (c : elem) :
  same_label c (rewrite_attributes sid sname src m d c)
  /\ Forall2
       (fun x x' =>
          tag x' = tag x /\ attrib x' = attrib x
          /\ length (children x') = length (children x)
          /\ (is_custom_attribute x = false \/ arm_of m d x = ArmNone ->
              text x' = text x))
       (descendants c)
       (descendants (rewrite_attributes sid sname src m d c)).
Proof.
  split; [destruct c; repeat split|].
  rewrite descendants_rewrite_attributes. apply Forall2_fmap_r, Forall_Forall2_diag.
  apply Forall_forall. intros x _. unfold compose.
  destruct (map_text_node (rewrite_text sid sname src m d) x)
    as (Ht & Hattr & Hx & Hks).
  rewrite Ht, Hattr, Hx, Hks, length_map. repeat split.
  unfold rewrite_text, arm_text. intros [->| ->]; [reflexivity|].
  now destruct (is_custom_attribute x).
Qed.

(** Running the attribute loop a second time changes nothing. *)
Theorem attribute_loop_is_idempotent
  (sid sname src m d : cell) (c : elem) :
  rewrite_attributes sid sname src m d (rewrite_attributes sid sname src m d c)
  = rewrite_attributes sid sname src m d c.
Proof.
  unfold rewrite_attributes, map_text_below. destruct c as [t a x ks].
  unfold set_children. cbn [children tag attrib text]. f_equal.
  rewrite map_map. apply map_ext. intros k. apply map_text_again.
Qed.

End AttributeLoopFacts.

(** *** The insertion blocks (lines 187-216) *)

Section Insertion.
Import Xml Migrate Samples.

Lemma find_append_child (p : elem -> bool) (k e : elem) :
  find p (append_child k e)
  = match find p e with
    | Some x => Some x
    | None => head (filter (fun x => p x = true) (iter k))
    end.
Proof.
  unfold find, findall, descendants, append_child.
  cbn [children set_children]. rewrite flat_map_app. cbn [flat_map].
  rewrite app_nil_r. apply head_filter_app.
Qed.

Lemma named_attribute_label (name : string) : label_only (named_attribute name).
Proof. intros ? ? ? ? ? ?. reflexivity. Qed.

Lemma named_attribute_new (name value dt : string) :
  named_attribute name (new_attribute name value dt) = true.
Proof.
  unfold named_attribute, new_attribute, is_custom_attribute, is_tag, has_attr,
    get. cbn [tag attrib attr_get]. now rewrite !String.eqb_refl.
Qed.

Lemma named_attribute_typed (name value dt : string) (a : elem) :
  named_attribute name a = true ->
  named_attribute name (set_attr dt_dt dt (set_text (Some value) a)) = true.
Proof.
  unfold named_attribute, is_custom_attribute, is_tag, has_attr, get.
  cbn [set_attr set_text tag attrib].
  rewrite attr_get_set_other by discriminate. auto.
Qed.

(** What [put_attribute] leaves in the container. *)
Lemma put_attribute_spec (name value dt : string) (g : elem) :
  exists g' a,
    put_attribute name value dt g = Ret g'
    /\ same_label g g'
    /\ find (named_attribute name) g' = Some a
    /\ text a = Some value /\ get dt_dt a = Some dt.
Proof.
  unfold put_attribute.
  destruct (find (named_attribute name) g) as [a0|] eqn:Ha.
  - rewrite update_found_spec, Ha. cbn [fmap result_fmap].
    set (a := set_attr dt_dt dt (set_text (Some value) a0)).
    exists (replace_first (named_attribute name) a g), a.
    split; [reflexivity|]. split; [apply replace_first_label|]. split.
    + apply (find_replace_first _ (named_attribute_label name) a g a0);
        [|exact Ha].
      apply named_attribute_typed. exact (find_holds _ _ _ Ha).
    + split; [reflexivity|]. unfold a, get. cbn [set_attr attrib].
      apply attr_get_set.
  - exists (append_child (new_attribute name value dt) g),
           (new_attribute name value dt).
    split; [reflexivity|]. split; [destruct g; repeat split|]. split.
    + rewrite find_append_child, Ha, iter_unfold.
      rewrite (filter_cons (fun x : elem => named_attribute name x = true)).
      now rewrite decide_True by apply named_attribute_new.
    + split; [reflexivity|]. unfold get. cbn [new_attribute attrib attr_get].
      destruct (String.eqb "name" dt_dt) eqn:E; [discriminate E|].
      now rewrite String.eqb_refl.
Qed.

Lemma insert_attribute_spec (name value dt : string) (c : elem) :
  exists c' g a,
    insert_attribute name value dt c = Ret c'
    /\ same_label c c'
    /\ find is_custom_attributes c' = Some g
    /\ find (named_attribute name) g = Some a
    /\ text a = Some value
    /\ get dt_dt a = Some dt
    /\ (find is_custom_attributes c = None ->
        c' = append_child
               (Elem (i_ "custom-attributes") [] None
                  [new_attribute name value dt]) c).
Proof.
  unfold insert_attribute.
  destruct (find is_custom_attributes c) as [g0|] eqn:Hg.
  - rewrite update_found_spec, Hg.
    destruct (put_attribute_spec name value dt g0)
      as (g & a & -> & Hl & Ha & Hx & Hd).
    cbn [fmap result_fmap].
    exists (replace_first is_custom_attributes g c), g, a.
    split; [reflexivity|]. split; [apply replace_first_label|].
    split; [|split; [exact Ha|split; [exact Hx|split; [exact Hd|discriminate]]]].
    apply (find_replace_first _ (is_tag_label _) g c g0); [|exact Hg].
    apply find_holds in Hg. destruct Hl as (Ht & _).
    unfold is_custom_attributes, is_tag in *. now rewrite Ht.
  - cbn [mbind result_bind mret result_ret].
    set (g := Elem (i_ "custom-attributes") [] None
                [new_attribute name value dt]).
    exists (append_child g c), g, (new_attribute name value dt).
    split; [reflexivity|]. split; [destruct c; repeat split|].
    split; [now rewrite find_append_child, Hg|].
    split; [|split; [reflexivity|split; [|reflexivity]]].
    + unfold g, find, findall, descendants. cbn [children flat_map].
      rewrite app_nil_r, iter_unfold.
      rewrite (filter_cons (fun x : elem => named_attribute name x = true)).
      now rewrite decide_True by apply named_attribute_new.
    + unfold get. cbn [new_attribute attrib attr_get].
      destruct (String.eqb "name" dt_dt) eqn:E; [discriminate E|].
      now rewrite String.eqb_refl.
Qed.

(** Each of the two insertion blocks, given a text that XML can carry
    (lxml refuses any other with ValueError, which the embedding leaves
    out), ends without an error. Afterwards the first custom-attribute
    collection of the record (in document order; a new last child of the
    record when it had none) holds an attribute of the block's name, and
    the first such attribute carries the given text and the block's
    datatype. The record keeps its tag, attributes and text. *)
Theorem insertion_block_leaves_the_attribute
  (name value dt : string) (c : elem) :
  In (name, dt) [("MEK_DefaultDeliveryday", "string");
                 ("MEK_CustomerOrderNumberMandatory", "boolean")] ->
  Lxml.xml_text value = true ->
  exists c' g a,
    insert_attribute name value dt c = Ret c'
    /\ same_label c c'
    /\ find is_custom_attributes c' = Some g
    /\ find (named_attribute name) g = Some a
    /\ text a = Some value
    /\ get dt_dt a = Some dt
    /\ (find is_custom_attributes c = None ->
        c' = append_child
               (Elem (i_ "custom-attributes") [] None
                  [new_attribute name value dt]) c).
Proof. intros _ _. apply insert_attribute_spec. Qed.

Lemma insertion_block_leaves_the_attribute_witness :
  attribute_texts "MEK_DefaultDeliveryday" plain_customer = []
  /\ exists c' g a,
       insert_attribute "MEK_DefaultDeliveryday" "-2D" "string" plain_customer
       = Ret c'
       /\ same_label plain_customer c'
       /\ find is_custom_attributes c' = Some g
       /\ find (named_attribute "MEK_DefaultDeliveryday") g = Some a
       /\ text a = Some "-2D"
       /\ get dt_dt a = Some "string"
       /\ (find is_custom_attributes plain_customer = None ->
           c' = append_child
                  (Elem (i_ "custom-attributes") [] None
                     [new_attribute "MEK_DefaultDeliveryday" "-2D" "string"])
                  plain_customer).
Proof.
  split; [reflexivity|].
  apply (insertion_block_leaves_the_attribute "MEK_DefaultDeliveryday" "-2D"
           "string" plain_customer); [left; reflexivity | reflexivity].
Defined.

End Insertion.

(** *** The record and its accounts after the transformation *)

Section RecordAndAccounts.
Import Xml Migrate Samples.

(** A transformed record keeps its tag and its attributes other than id;
    its id is [str] of the new id of the row, blanks and all. *)
Theorem transformed_record_takes_the_new_id
  (today id : string) (n s1 s2 s3 m d : cell) (c c' : elem) :
  transform today id n s1 s2 s3 m d c = Ret c' ->
  tag c' = tag c
  /\ get "id" c' = Some (Cell.str n)
  /\ forall k, k <> "id" -> get k c' = get k c.
Proof.
  intros H. apply transform_label in H as [Ht Ha]. split; [exact Ht|].
  unfold get. rewrite Ha. split; [apply attr_get_set|].
  intros k Hk. apply attr_get_set_other. congruence.
Qed.

Lemma transformed_record_takes_the_new_id_witness :
  transform today "1001" (CStr " 9001") (CInt 77) (CStr "Store A") (CStr "SRC1")
    (CBool true) (CStr "-2D") plain_customer
  = Ret (migrated "1001"
           (Row (CInt 1001) (CStr " 9001") (CInt 77) (CStr "Store A")
              (CStr "SRC1") (CBool true) (CStr "-2D")) plain_customer)
  /\ get "id"
       (migrated "1001"
          (Row (CInt 1001) (CStr " 9001") (CInt 77) (CStr "Store A")
             (CStr "SRC1") (CBool true) (CStr "-2D")) plain_customer)
     = Some " 9001".
Proof.
  split; [vm_compute; reflexivity|].
  apply (transformed_record_takes_the_new_id today "1001" (CStr " 9001")
           (CInt 77) (CStr "Store A") (CStr "SRC1") (CBool true) (CStr "-2D")
           plain_customer).
  vm_compute; reflexivity.
Defined.

Lemma text_is_eq (v : string) (e : elem) :
  text_is v e = true <-> text e = Some v.
Proof.
  unfold text_is. destruct (text e) as [x|]; [|split; discriminate].
  rewrite String.eqb_eq. split; congruence.
Qed.

(** When the new id differs from the old one, the old id is gone from the
    account after lines 221-225: no element of the account has it as its
    text, and the account's business-partner-no is not the old id. *)
Theorem old_id_leaves_the_account
  (id : string) (n : cell) (u x : elem) :
  Cell.str n <> id ->
  In x (iter (rewrite_partner id n u)) ->
  text x <> Some id
  /\ has_attr "business-partner-no" id (rewrite_partner id n u) = false.
Proof.
  intros Hne Hx. unfold rewrite_partner in *.
  set (u1 := if has_attr "business-partner-no" id u
             then set_attr "business-partner-no" (Cell.str n) u else u) in *.
  split.
  - rewrite iter_map_text in Hx. apply in_map_iff in Hx as (x0 & <- & _).
    destruct (map_text_node (replace_id id n) x0) as (_ & _ & -> & _).
    unfold replace_id. destruct (text_is id x0) eqn:E; [congruence|].
    intros Hx. apply text_is_eq in Hx. congruence.
  - destruct (map_text_node (replace_id id n) u1) as (_ & Ha & _).
    unfold has_attr, get in *. rewrite Ha. unfold u1.
    destruct (attr_get "business-partner-no" (attrib u)) as [v|] eqn:Ev.
    + destruct (String.eqb v id) eqn:E.
      * cbn [set_attr attrib]. rewrite attr_get_set.
        now apply String.eqb_neq.
      * now rewrite Ev.
    + now rewrite Ev.
Qed.

Lemma old_id_leaves_the_account_witness :
  Cell.str (CInt 9001) <> "2023"
  /\ In (last_logged_in "9001")
       (iter (rewrite_partner "2023" (CInt 9001) plain_account))
  /\ text (last_logged_in "9001") <> Some "2023"
  /\ has_attr "business-partner-no" "2023"
       (rewrite_partner "2023" (CInt 9001) plain_account) = false.
Proof.
  assert (Hin : In (last_logged_in "9001")
                  (iter (rewrite_partner "2023" (CInt 9001) plain_account))).
  { vm_compute. repeat (first [left; reflexivity | right]). }
  split; [discriminate|]. split; [exact Hin|].
  apply (old_id_leaves_the_account "2023" (CInt 9001) plain_account
           (last_logged_in "9001")); [discriminate|exact Hin].
Defined.

(** After an account's turn in the loop, the first creation-date of its
    first profile carries today's date. *)
Theorem creation_date_is_today
  (today id : string) (n : cell) (u u' p d : elem) :
  migrate_user today id n u = Ret u' ->
  find is_profile u' = Some p ->
  find is_creation_date p = Some d ->
  text d = Some today.
Proof.
  intros H Hp Hd. unfold migrate_user in H.
  apply result_bind_inv in H as (u2 & _ & H).
  apply result_bind_inv in H as (u3 & _ & H).
  apply result_bind_inv in H as (u4 & _ & H).
  unfold set_creation_date in H. rewrite update_found_spec in H.
  destruct (find is_profile u4) as [p0|] eqn:Hp0.
  2:{ injection H as <-. congruence. }
  rewrite update_found_spec in H.
  destruct (find is_creation_date p0) as [d0|] eqn:Hd0;
    cbn [fmap result_fmap] in H; injection H as <-.
  - rewrite (find_replace_first is_profile (is_tag_label _) _ u4 p0) in Hp;
      [|rewrite (q_replace_first is_profile (is_tag_label _));
        exact (find_holds _ _ _ Hp0)|exact Hp0].
    injection Hp as <-.
    rewrite (find_replace_first is_creation_date (is_tag_label _) _ p0 d0)
      in Hd; [|exact (find_holds _ _ _ Hd0)|exact Hd0].
    now injection Hd as <-.
  - rewrite (replace_first_same _ _ _ Hp0), Hp0 in Hp. congruence.
Qed.

Lemma creation_date_is_today_witness :
  exists p d,
    migrate_user today "1001" (CInt 9001) plain_account
    = Ret (migrated_account plain_account)
    /\ find is_profile (migrated_account plain_account) = Some p
    /\ find is_creation_date p = Some d
    /\ text d = Some today.
Proof.
  eexists. eexists.
  split; [vm_compute; reflexivity|].
  split; [vm_compute; reflexivity|].
  split; [vm_compute; reflexivity|].
  eapply (creation_date_is_today today "1001" (CInt 9001) plain_account
            (migrated_account plain_account));
    vm_compute; reflexivity.
Defined.

(** An account keeps its tag and its attributes through its turn in the
    loop, but for business-partner-no, which becomes the new id exactly
    when it was the old one. *)
Theorem account_keeps_its_attributes
  (today id : string) (n : cell) (u u' : elem) :
  migrate_user today id n u = Ret u' ->
  tag u' = tag u
  /\ get "business-partner-no" u'
     = (if has_attr "business-partner-no" id u then Some (Cell.str n)
        else get "business-partner-no" u)
  /\ forall k, k <> "business-partner-no" -> get k u' = get k u.
Proof.
  intros H. unfold migrate_user in H.
  apply result_bind_inv in H as (u2 & H2 & H).
  apply result_bind_inv in H as (u3 & H3 & H).
  apply result_bind_inv in H as (u4 & H4 & H5).
  apply update_found_label in H2, H3, H4, H5.
  pose proof (same_label_trans _ _ _ H2
                (same_label_trans _ _ _ H3 (same_label_trans _ _ _ H4 H5)))
    as (Ht & Ha & _).
  unfold rewrite_partner in Ht, Ha.
  destruct (map_text_node (replace_id id n)
              (if has_attr "business-partner-no" id u
               then set_attr "business-partner-no" (Cell.str n) u else u))
    as (Ht1 & Ha1 & _).
  rewrite Ht1 in Ht. rewrite Ha1 in Ha. unfold get. rewrite Ha.
  destruct (has_attr "business-partner-no" id u).
  - cbn [set_attr tag attrib] in *. split; [exact Ht|].
    split; [apply attr_get_set|]. intros k Hk. apply attr_get_set_other.
    congruence.
  - split; [exact Ht|]. split; reflexivity.
Qed.

Lemma account_keeps_its_attributes_witness :
  get "business-partner-no" plain_account = Some "1001"
  /\ get "business-partner-no" (migrated_account plain_account) = Some "9001".
Proof.
  split; [reflexivity|].
  apply (account_keeps_its_attributes today "1001" (CInt 9001) plain_account
           (migrated_account plain_account)).
  vm_compute; reflexivity.
Defined.

End RecordAndAccounts.

(** *** What an account's turn cannot bring into the account *)

Section AccountCounts.
Import Xml Migrate.
Local Open Scope nat_scope.

Variable q : elem -> bool.
Hypothesis q_label : label_only q.
Hypothesis q_partner : ignores_partner q.
Hypothesis q_group : q new_group = false.

Lemma kept_iter_le (e e' : elem) :
  q e' = q e -> count q (descendants e') <= count q (descendants e) ->
  count q (iter e') <= count q (iter e).
Proof. intros Hq Hle. rewrite !count_iter, Hq. lia. Qed.

Lemma kept_rewrite_partner id n u :
  count q (iter (rewrite_partner id n u)) = count q (iter u).
Proof.
  unfold rewrite_partner. rewrite (count_map_text q q_label).
  destruct (has_attr "business-partner-no" id u); [|reflexivity].
  rewrite !count_iter, q_partner. reflexivity.
Qed.

Lemma kept_add_membership u u' :
  add_membership u = Ret u' ->
  q u' = q u /\ count q (descendants u') <= count q (descendants u).
Proof.
  apply (count_update_found q q_label).
  intros g g' _. unfold add_marker. destruct (has_marker g); intros [= <-].
  - reflexivity.
  - apply kept_iter_le; [destruct g; apply q_label|].
    unfold descendants, append_child. cbn [children set_children].
    rewrite flat_map_app, count_app. cbn [flat_map].
    rewrite app_nil_r, count_iter, q_group. cbn. lia.
Qed.

Lemma kept_remove_last_order_date u u' :
  remove_last_order_date u = Ret u' ->
  q u' = q u /\ count q (descendants u') <= count q (descendants u).
Proof.
  apply (count_update_found q q_label).
  intros a a' _. unfold remove_all_last_order_date.
  destruct (forallb _ _); [|discriminate]. intros [= <-].
  apply kept_iter_le; [destruct a; apply q_label|].
  unfold descendants. cbn [children set_children].
  apply count_filter_children.
Qed.

Lemma kept_remove_first_child p ks ks' :
  remove_first_child p ks = Ret ks' ->
  count q (flat_map iter ks') <= count q (flat_map iter ks).
Proof.
  revert ks'. induction ks as [|k ks IH]; intros ks'.
  - intros [= <-]. reflexivity.
  - cbn [remove_first_child]. destruct (p k).
    + intros [= <-]. rewrite count_flat_cons. lia.
    + destruct (existsb p (descendants k)); [discriminate|].
      destruct (remove_first_child p ks) as [ks0| |]; try discriminate.
      intros [= <-]. rewrite !count_flat_cons. specialize (IH _ eq_refl). lia.
Qed.

Lemma kept_remove_last_logged_in u u' :
  remove_last_logged_in u = Ret u' ->
  q u' = q u /\ count q (descendants u') <= count q (descendants u).
Proof.
  apply (count_update_found q q_label).
  intros c c' _. unfold remove_first_last_logged_in. intros H.
  apply result_bind_inv in H as (ks & Hks & [= <-]).
  apply kept_iter_le; [destruct c; apply q_label|].
  unfold descendants. cbn [children set_children].
  eapply kept_remove_first_child, Hks.
Qed.

Lemma kept_set_text x e : count q (iter (set_text x e)) = count q (iter e).
Proof.
  destruct e as [t a x0 ks]. rewrite !count_iter.
  unfold set_text, descendants. cbn [tag attrib text children].
  now rewrite (q_label t a x ks x0 ks).
Qed.

Lemma kept_set_creation_date today u u' :
  set_creation_date today u = Ret u' ->
  q u' = q u /\ count q (descendants u') <= count q (descendants u).
Proof.
  apply (count_update_found q q_label).
  intros pr pr' _ H. apply kept_iter_le.
  - apply (count_update_found q q_label) in H; [tauto|].
    intros c c' _ [= <-]. now rewrite kept_set_text.
  - apply (count_update_found q q_label) in H; [tauto|].
    intros c c' _ [= <-]. now rewrite kept_set_text.
Qed.

(** An account's turn brings no [q]-element into the account. *)
Lemma kept_migrate_user today id n u u' :
  migrate_user today id n u = Ret u' ->
  q u' = q u /\ count q (iter u') <= count q (iter u).
Proof.
  unfold migrate_user. intros H.
  apply result_bind_inv in H as (u1 & H1 & H).
  apply result_bind_inv in H as (u2 & H2 & H).
  apply result_bind_inv in H as (u3 & H3 & H4).
  apply kept_add_membership in H1 as [Hq1 Hle1].
  apply kept_remove_last_order_date in H2 as [Hq2 Hle2].
  apply kept_remove_last_logged_in in H3 as [Hq3 Hle3].
  apply kept_set_creation_date in H4 as [Hq4 Hle4].
  pose proof (kept_rewrite_partner id n u) as H0.
  rewrite !count_iter in *.
  assert (Hq0 : q (rewrite_partner id n u) = q u).
  { unfold rewrite_partner.
    destruct (has_attr "business-partner-no" id u).
    - destruct u as [t a x ks]. cbn [set_attr map_text tag attrib text children].
      rewrite <- (q_partner (Cell.str n) (Elem t a x ks)).
      cbn [set_attr tag attrib text children]. apply q_label.
    - destruct u. cbn [map_text]. apply q_label. }
  split; [congruence|].
  rewrite Hq4, Hq3, Hq2, Hq1. lia.
Qed.

End AccountCounts.

(** *** Every account of a record gets its turn *)

Section EveryAccount.
Import Xml Migrate Samples.
Local Open Scope nat_scope.

Variable f : elem -> result elem.

(** [f] keeps an account an account and brings no account into it. *)
Hypothesis f_keeps : forall u u',
  f u = Ret u' ->
  is_user u' = is_user u /\ count is_user (iter u') <= count is_user (iter u).

Lemma users_of_children (ks : list elem) :
  filter (fun x => is_user x = true) (flat_map iter ks)
  = flat_map (fun k => filter (fun x => is_user x = true) (iter k)) ks.
Proof.
  induction ks as [|k ks IH]; [reflexivity|]. cbn [flat_map].
  now rewrite filter_app, IH.
Qed.

Lemma lone_user (u : elem) :
  is_user u = true -> count is_user (descendants u) = 0 ->
  filter (fun x => is_user x = true) (iter u) = [u].
Proof.
  intros Hu H0. rewrite iter_unfold.
  rewrite (filter_cons (fun x : elem => is_user x = true)).
  rewrite decide_True by exact Hu. f_equal.
  unfold count in H0. now apply length_zero_iff_nil.
Qed.

Lemma every_user_in (ks ks' : list elem) :
  Forall (fun e => forall e',
            Forall (fun u => count is_user (descendants u) = 0)
              (findall is_user e) ->
            map_where is_user f e = Ret e' ->
            Forall2 (fun u u' => f u = Ret u')
              (findall is_user e) (findall is_user e')) ks ->
  Forall (fun u => count is_user (descendants u) = 0)
    (filter (fun x => is_user x = true) (flat_map iter ks)) ->
  map_where_in is_user f ks = Ret ks' ->
  Forall2 (fun u u' => f u = Ret u')
    (filter (fun x => is_user x = true) (flat_map iter ks))
    (filter (fun x => is_user x = true) (flat_map iter ks')).
Proof.
  intros IH. revert ks'. induction IH as [|k ks Hk _ IHks]; intros ks' Hn H.
  - injection H as <-. constructor.
  - rewrite map_where_in_cons in H.
    apply result_bind_inv in H as (k' & Hk' & H).
    apply result_bind_inv in H as (ks0 & Hks0 & [= <-]).
    cbn [flat_map] in *. rewrite filter_app in Hn. rewrite !filter_app.
    apply Forall_app in Hn as [Hn1 Hn2].
    apply Forall2_app; [|now apply IHks].
    destruct (is_user k) eqn:Hu.
    + destruct (f_keeps k k' Hk') as [Hu' Hle]. rewrite Hu in Hu'.
      assert (H0 : count is_user (descendants k) = 0).
      { rewrite iter_unfold, (filter_cons (fun x : elem => is_user x = true))
          in Hn1.
        rewrite decide_True in Hn1 by exact Hu.
        now apply Forall_cons in Hn1 as [H0 _]. }
      rewrite !(count_iter is_user), Hu, Hu', H0 in Hle.
      rewrite (lone_user k Hu H0), (lone_user k' Hu') by lia.
      now repeat constructor.
    + assert (Hl : same_label k k') by (eapply map_where_label, Hk').
      assert (Hu' : is_user k' = false).
      { destruct Hl as (Ht & _). unfold is_user, is_tag in *. now rewrite Ht. }
      rewrite !iter_unfold,
        !(filter_cons (fun x : elem => is_user x = true)) in *.
      rewrite decide_False in Hn1 by (rewrite Hu; discriminate).
      rewrite decide_False by (rewrite Hu; discriminate).
      rewrite decide_False by (rewrite Hu'; discriminate).
      now apply Hk.
Qed.

Lemma every_user (e e' : elem) :
  Forall (fun u => count is_user (descendants u) = 0) (findall is_user e) ->
  map_where is_user f e = Ret e' ->
  Forall2 (fun u u' => f u = Ret u') (findall is_user e) (findall is_user e').
Proof.
  revert e'. induction e as [t a x ks IH] using elem_induction.
  intros e' Hn H. rewrite map_where_unfold in H.
  apply result_fmap_inv in H as (ks' & Hks & <-).
  unfold findall, descendants in *. cbn [children] in *.
  eapply every_user_in; eassumption.
Qed.

End EveryAccount.

Section EveryAccountFacts.
Import Xml Migrate Samples.
Local Open Scope nat_scope.

Lemma migrate_user_keeps today id n u u' :
  migrate_user today id n u = Ret u' ->
  is_user u' = is_user u /\ count is_user (iter u') <= count is_user (iter u).
Proof.
  apply (kept_migrate_user is_user (is_tag_label _) (is_tag_partner _) eq_refl).
Qed.

(** The account loop gives every account of the record its turn, once and
    in document order: the accounts of the record it returns are what the
    loop body made of the accounts it found, one for one. *)
Theorem every_account_gets_its_turn
  (today id : string) (n : cell) (c c' : elem) :
  migrate_users today id n c = Ret c' ->
  Forall2 (fun u u' => migrate_user today id n u = Ret u')
    (findall is_user c) (findall is_user c').
Proof.
  unfold migrate_users. destruct (nested_users c) eqn:Hn; [discriminate|].
  apply (every_user (migrate_user today id n) (migrate_user_keeps today id n)).
  unfold nested_users in Hn. apply Forall_forall. intros u Hu.
  destruct (count is_user (descendants u)) eqn:E; [reflexivity|]. exfalso.
  assert (Hex : existsb (fun u => existsb is_user (descendants u))
                  (findall is_user c) = true).
  { apply existsb_exists. exists u. split; [now apply list_elem_of_In|].
    rewrite existsb_count, E. reflexivity. }
  congruence.
Qed.

Lemma every_account_gets_its_turn_witness :
  migrate_users today "1001" (CInt 9001) two_account_customer
  = Ret (accounts_migrated two_account_customer)
  /\ length (findall is_user two_account_customer) = 2
  /\ Forall2 (fun u u' => migrate_user today "1001" (CInt 9001) u = Ret u')
       (findall is_user two_account_customer)
       (findall is_user (accounts_migrated two_account_customer)).
Proof.
  split; [vm_compute; reflexivity|]. split; [reflexivity|].
  apply (every_account_gets_its_turn today "1001" (CInt 9001)
           two_account_customer).
  vm_compute; reflexivity.
Defined.

End EveryAccountFacts.

(** *** How the transformation of a record can fail *)

Section Failures.
Import Xml Migrate Samples.

Lemma update_found_raise p f e x :
  update_found p f e = Raise x <->
  exists c, find p e = Some c /\ f c = Raise x.
Proof.
  rewrite update_found_spec. destruct (find p e) as [c|].
  - split.
    + intros H. exists c. split; [reflexivity|].
      destruct (f c); try discriminate. now injection H as <-.
    + intros (c0 & [= <-] & ->). reflexivity.
  - split; [discriminate|]. intros (c0 & Hc & _). discriminate.
Qed.

Lemma update_found_inside p f e :
  update_found p f e <> OutsideModel \/
  exists c, find p e = Some c /\ f c = OutsideModel.
Proof.
  rewrite update_found_spec. destruct (find p e) as [c|].
  - destruct (f c) eqn:E; [left; discriminate..|].
    right. exists c. auto.
  - left. discriminate.
Qed.

(** When [remove] is handed an element that is no child. *)
Lemma remove_first_child_fails q ks :
  match remove_first_child q ks with
  | Ret _ => True
  | Raise x =>
      x = ValueError
      /\ exists pre k post,
           ks = pre ++ k :: post
           /\ Forall (fun y => q y = false
                                /\ existsb q (descendants y) = false) pre
           /\ q k = false /\ existsb q (descendants k) = true
  | OutsideModel => False
  end.
Proof.
  induction ks as [|k ks IH]; cbn [remove_first_child]; [exact I|].
  destruct (q k) eqn:Hq; [exact I|].
  destruct (existsb q (descendants k)) eqn:He.
  - split; [reflexivity|]. exists [], k, ks. auto.
  - destruct (remove_first_child q ks) as [ks0|x0|]; cbn [fmap result_fmap];
      [exact I| |exact IH].
    destruct IH as (-> & pre & k0 & post & -> & Hpre & Hk0 & He0).
    split; [reflexivity|]. exists (k :: pre), k0, post.
    split; [reflexivity|]. split; [now constructor|auto].
Qed.

Lemma remove_first_child_nested q pre k post :
  Forall (fun y => q y = false /\ existsb q (descendants y) = false) pre ->
  q k = false -> existsb q (descendants k) = true ->
  remove_first_child q (pre ++ k :: post) = Raise ValueError.
Proof.
  intros Hpre Hk He. induction Hpre as [|y pre [Hy Hy'] _ IH];
    cbn [app remove_first_child].
  - now rewrite Hk, He.
  - now rewrite Hy, Hy', IH.
Qed.

Lemma exists_nested (q : elem -> bool) (ks : list elem) :
  forallb (fun k => negb (existsb q (descendants k))) ks = false <->
  exists k, In k ks /\ existsb q (descendants k) = true.
Proof.
  induction ks as [|k ks IH]; cbn [forallb].
  - split; [discriminate|]. intros (k & [] & _).
  - destruct (existsb q (descendants k)) eqn:E; cbn [negb andb].
    + split; [|reflexivity]. intros _. exists k. split; [now left|exact E].
    + rewrite IH. split.
      * intros (k0 & Hin & H). exists k0. split; [now right|exact H].
      * intros (k0 & [<-|Hin] & H); [congruence|]. now exists k0.
Qed.

Lemma removal_raises (u : elem) (x : exn) :
  remove_last_order_date u = Raise x \/ remove_last_logged_in u = Raise x ->
  x = ValueError.
Proof.
  unfold remove_last_order_date, remove_last_logged_in.
  unfold remove_all_last_order_date, remove_first_last_logged_in.
  intros [H|H]; apply update_found_raise in H as (c & _ & H).
  - destruct (forallb _ (children c)); [discriminate|]. now injection H as <-.
  - pose proof (remove_first_child_fails is_last_logged_in (children c)) as Hf.
    destruct (remove_first_child is_last_logged_in (children c))
      as [ks|x0|]; try discriminate.
    injection H as <-. tauto.
Qed.

(** The removal steps fail in one way: lxml's [remove] raises ValueError
    when it is handed an element that is no child of the collection. For
    the LastOrderDate step that is when some LastOrderDate entry of the
    account's first custom-attribute collection lies below a child of the
    collection; for the last-logged-in step, when the first last-logged-in
    field of the account's first credentials, in document order, lies below
    a child of the credentials. *)
Theorem removal_fails_on_nested_entries (u : elem) :
  (remove_last_order_date u = Raise ValueError <->
   exists a k,
     find is_custom_attributes u = Some a /\ In k (children a)
     /\ existsb is_last_order_date (descendants k) = true)
  /\ (remove_last_logged_in u = Raise ValueError <->
      exists c pre k post,
        find is_credentials u = Some c
        /\ children c = pre ++ k :: post
        /\ Forall (fun y => is_last_logged_in y = false
                            /\ existsb is_last_logged_in (descendants y)
                               = false) pre
        /\ is_last_logged_in k = false
        /\ existsb is_last_logged_in (descendants k) = true)
  /\ (forall x, remove_last_order_date u = Raise x
                \/ remove_last_logged_in u = Raise x -> x = ValueError)
  /\ remove_last_order_date u <> OutsideModel
  /\ remove_last_logged_in u <> OutsideModel.
Proof.
  unfold remove_last_order_date, remove_last_logged_in.
  rewrite !update_found_raise.
  unfold remove_all_last_order_date, remove_first_last_logged_in.
  split; [|split; [|split; [|split]]].
  - split.
    + intros (a & Ha & H).
      destruct (forallb _ (children a)) eqn:Hall; [discriminate|].
      apply exists_nested in Hall as (k & Hin & Hk). now exists a, k.
    + intros (a & k & Ha & Hin & Hk). exists a. split; [exact Ha|].
      assert (Hall : forallb (fun k => negb (existsb is_last_order_date
                                               (descendants k)))
                       (children a) = false)
        by (apply exists_nested; now exists k).
      now rewrite Hall.
  - split.
    + intros (c & Hc & H).
      pose proof (remove_first_child_fails is_last_logged_in (children c)) as Hf.
      destruct (remove_first_child is_last_logged_in (children c))
        as [ks|x|]; try discriminate.
      destruct Hf as (_ & pre & k & post & E & Hpre & Hk & He).
      now exists c, pre, k, post.
    + intros (c & pre & k & post & Hc & E & Hpre & Hk & He).
      exists c. split; [exact Hc|].
      now rewrite E, (remove_first_child_nested _ _ _ _ Hpre Hk He).
  - intros x H. unfold remove_last_order_date, remove_last_logged_in,
      remove_all_last_order_date, remove_first_last_logged_in in H.
    eapply removal_raises. unfold remove_last_order_date,
      remove_last_logged_in, remove_all_last_order_date,
      remove_first_last_logged_in. exact H.
  - destruct (update_found_inside is_custom_attributes
                (fun a => if forallb (fun k => negb (existsb is_last_order_date
                                                      (descendants k)))
                               (children a)
                          then Ret (set_children
                                      (filter (fun k => is_last_order_date k
                                                        = false) (children a))
                                      a)
                          else Raise ValueError) u)
      as [H|(a & _ & H)]; [exact H|].
    destruct (forallb _ (children a)); discriminate.
  - destruct (update_found_inside is_credentials
                (fun c => ks ← remove_first_child is_last_logged_in (children c);
                          mret (set_children ks c)) u)
      as [H|(c & _ & H)]; [exact H|].
    pose proof (remove_first_child_fails is_last_logged_in (children c)) as Hf.
    destruct (remove_first_child is_last_logged_in (children c));
      [discriminate..|contradiction].
Qed.







End Failures.

(** *** The loop and the artifacts as a whole *)

Section WholeRun.
Import Xml Migrate Samples.
Local Open Scope nat_scope.

Lemma finish_log_ids flag why l0 l :
  finish_log flag why l0 = Ret l ->
  log_current_id l = log_current_id l0 /\ log_new_id l = log_new_id l0.
Proof.
  unfold finish_log. destruct flag as [[|]|]; [destruct why| |];
    try discriminate; intros [= <-]; split; reflexivity.
Qed.

Lemma process_row_counters today csv st st' r :
  process_row today csv st r = Ret st' ->
  (exists l, st_log st' = st_log st ++ [l]
             /\ (log_current_id l = current_str r
                 \/ log_current_id l = Text.strip (current_str r)))
  /\ st_found st <= st_found st' <= S (st_found st)
  /\ length (st_out st') + st_found st <= length (st_out st) + st_found st'
  /\ length (st_out st) <= length (st_out st').
Proof.
  intros H. pose proof (process_row_inv today csv st st' r H) as Hinv.
  destruct Hinv as [[_ ->] | [(c & l & Hf & Hn & ->) | (c & r' & c' & _ & _ & _ & ->)]];
    cbn [st_log st_found st_out]; rewrite ?length_app; cbn [length].
  - split; [|lia]. eexists. split; [reflexivity|]. now left.
  - split; [|lia]. exists l. split; [reflexivity|].
    rewrite (process_row_unlisted today csv st r c Hf Hn) in H.
    apply result_bind_inv in H as (l' & Hl & [= E]).
    apply app_inj_tail in E as [_ <-].
    apply finish_log_ids in Hl as [-> _]. now left.
  - split; [|lia]. eexists. split; [reflexivity|]. now right.
Qed.

Lemma process_rows_counters today csv rows st st' :
  process_rows today csv st rows = Ret st' ->
  (exists ls, st_log st' = st_log st ++ ls
              /\ Forall2 (fun r l => log_current_id l = current_str r
                                     \/ log_current_id l
                                        = Text.strip (current_str r)) rows ls)
  /\ st_found st <= st_found st' <= st_found st + length rows
  /\ length (st_out st') + st_found st <= length (st_out st) + st_found st'
  /\ length (st_out st) <= length (st_out st').
Proof.
  revert st. induction rows as [|r rows IH]; intros st.
  - intros [= <-]. split; [|cbn [length]; lia].
    exists []. split; [now rewrite app_nil_r|constructor].
  - cbn [process_rows]. intros H.
    apply result_bind_inv in H as (st1 & H1 & H2).
    apply process_row_counters in H1 as ((l & El & Hl) & Hf1 & Ho1 & Hm1).
    apply IH in H2 as ((ls & Els & Hls) & Hf2 & Ho2 & Hm2).
    split; [|cbn [length]; lia].
    exists (l :: ls). split; [|now constructor].
    now rewrite Els, El, <- app_assoc.
Qed.

(** For a table whose current ids hold no double quote, the log follows the
    table row by row: one log row per table row, in the order of the table,
    under the row's current id or that id stripped. The output holds at most
    as many records as the counter of found customers says, and that counter
    is at most the number of rows. *)
Theorem log_follows_the_table
  (today : string) (root : elem) (csv : list row) (a : artifacts) :
  Forall (fun r => Text.has_dquote (current_str r) = false) csv ->
  run today root csv = Ret a ->
  exists st,
    process_rows today csv (initial root) csv = Ret st
    /\ migration_log a = st_log st
    /\ children (output_xml a) = st_out st
    /\ Forall2 (fun r l => log_current_id l = current_str r
                           \/ log_current_id l = Text.strip (current_str r))
         csv (migration_log a)
    /\ length (st_out st) <= st_found st <= length csv.
Proof.
  unfold run. intros _ H. apply result_bind_inv in H as (st & Hst & H).
  apply result_bind_inv in H as (v & _ & [= <-]).
  exists st. split; [exact Hst|]. split; [reflexivity|]. split; [reflexivity|].
  apply process_rows_counters in Hst as ((ls & Els & Hls) & Hf & Ho & _).
  cbn [initial st_log st_found st_out length app] in *.
  cbn [migration_log]. rewrite Els. split; [exact Hls|lia].
Qed.

Lemma log_follows_the_table_witness :
  run today (export [plain_customer]) [good_row; bad_day_row]
  = Ret (produced (export [plain_customer]) [good_row; bad_day_row])
  /\ map log_current_id
       (migration_log (produced (export [plain_customer])
                         [good_row; bad_day_row]))
     = ["1001"; "1001"]
  /\ exists st,
       process_rows today [good_row; bad_day_row]
         (initial (export [plain_customer])) [good_row; bad_day_row] = Ret st
       /\ migration_log (produced (export [plain_customer])
                           [good_row; bad_day_row]) = st_log st
       /\ children (output_xml (produced (export [plain_customer])
                                  [good_row; bad_day_row])) = st_out st
       /\ Forall2 (fun r l => log_current_id l = current_str r
                              \/ log_current_id l = Text.strip (current_str r))
            [good_row; bad_day_row]
            (migration_log (produced (export [plain_customer])
                              [good_row; bad_day_row]))
       /\ length (st_out st) <= st_found st <= 2.
Proof.
  split; [vm_compute; reflexivity|]. split; [vm_compute; reflexivity|].
  apply (log_follows_the_table today (export [plain_customer])
           [good_row; bad_day_row]).
  - repeat constructor.
  - vm_compute; reflexivity.
Defined.

Lemma process_rows_none_found today csv rows st :
  Forall (fun r => Text.has_dquote (current_str r) = false
                   /\ find (is_customer_with (current_str r)) (st_root st)
                      = None) rows ->
  process_rows today csv st rows
  = Ret (State (st_root st) (st_out st)
           (st_log st
            ++ map (fun r => LogRow (current_str r)
                               (Text.strip (Cell.str (new_customer_id r)))
                               NotOK NotFoundInSource) rows)
           (st_found st) (st_error_flag st) (st_error_reason st)).
Proof.
  revert st. induction rows as [|r rows IH]; intros st Hall.
  - cbn [process_rows map]. rewrite app_nil_r. now destruct st.
  - apply Forall_cons in Hall as [[Hq Hf] Hall]. cbn [process_rows].
    rewrite (process_row_not_found today csv st r).
    2:{ unfold find_customer. fold (current_str r). now rewrite Hq, Hf. }
    cbn [mbind result_bind]. rewrite IH by exact Hall.
    cbn [st_root st_out st_log st_found st_error_flag st_error_reason map].
    now rewrite <- app_assoc.
Qed.

(** When the export holds none of the customers the table names, the run
    still ends well: the output document has no record, and the log holds
    one row for each row of the table, in order, with the status Not OK, the
    reason that the customer was not found, and the new id stripped of
    blanks. An empty table is the simplest case. *)
Theorem nothing_found_nothing_written
  (today : string) (root : elem) (csv : list row) (v : string) :
  Forall (fun r => Text.has_dquote (current_str r) = false
                   /\ find (is_customer_with (current_str r)) root = None)
    csv ->
  get schemaLocation root = Some v ->
  exists a,
    run today root csv = Ret a
    /\ children (output_xml a) = []
    /\ migration_log a
       = map (fun r => LogRow (current_str r)
                         (Text.strip (Cell.str (new_customer_id r)))
                         NotOK NotFoundInSource) csv.
Proof.
  intros Hall Hv. unfold run.
  rewrite (process_rows_none_found today csv csv (initial root)) by exact Hall.
  cbn [mbind result_bind initial st_root st_out st_log]. rewrite Hv.
  cbn [mbind result_bind mret result_ret]. eexists. split; [reflexivity|].
  split; reflexivity.
Qed.

Lemma nothing_found_nothing_written_witness :
  exists a,
    run today (export [plain_customer]) [stranger_row] = Ret a
    /\ children (output_xml a) = []
    /\ migration_log a = [LogRow "4711" "9002" NotOK NotFoundInSource].
Proof.
  apply (nothing_found_nothing_written today (export [plain_customer])
           [stranger_row] "customer.xsd").
  - repeat constructor.
  - reflexivity.
Defined.

End WholeRun.

(** *** The root of the output document (lines 274-281) *)

Section OutputRoot.
Import Xml Migrate Samples.

Lemma copy_attribute_get (root : elem) (a k : string) acc :
  attr_get k (copy_attribute root a acc)
  = if String.eqb a k
    then match get k root with
         | Some v => if String.eqb v "" then attr_get k acc else Some v
         | None => attr_get k acc
         end
    else attr_get k acc.
Proof.
  unfold copy_attribute. destruct (String.eqb a k) eqn:E.
  - apply String.eqb_eq in E. subst a. destruct (get k root) as [v|];
      [|reflexivity].
    destruct (String.eqb v ""); [reflexivity|apply attr_get_set].
  - apply String.eqb_neq in E. destruct (get a root) as [v|]; [|reflexivity].
    destruct (String.eqb v ""); [reflexivity|].
    now apply attr_get_set_other.
Qed.

Lemma copied_attributes_get (root : elem) (ks : list string) (k : string) acc :
  attr_get k (fold_left (fun acc a => copy_attribute root a acc) ks acc)
  = if existsb (fun a => String.eqb a k) ks
    then match get k root with
         | Some v => if String.eqb v "" then attr_get k acc else Some v
         | None => attr_get k acc
         end
    else attr_get k acc.
Proof.
  revert acc. induction ks as [|a ks IH]; intros acc; [reflexivity|].
  cbn [fold_left existsb]. rewrite IH, copy_attribute_get.
  destruct (String.eqb a k) eqn:E; cbn [orb].
  - destruct (get k root) as [v|]; [|now destruct (existsb _ ks)].
    destruct (String.eqb v ""); now destruct (existsb _ ks).
  - reflexivity.
Qed.

(** After a run over a table whose current ids hold no double quote, the
    root of the output document has the tag of the source root and no
    text. Of the attributes of the source root it carries the
    schemaLocation and those of major, minor, family, branch and build
    that are present and not empty, each with its value; it carries no
    other attribute. *)
Theorem output_root_attributes
  (today : string) (root : elem) (csv : list row) (a : artifacts) :
  Forall (fun r => Text.has_dquote (current_str r) = false) csv ->
  run today root csv = Ret a ->
  tag (output_xml a) = tag root
  /\ text (output_xml a) = None
  /\ (exists v, get schemaLocation root = Some v
                /\ get schemaLocation (output_xml a) = Some v)
  /\ (forall k, In k version_attributes ->
        get k (output_xml a)
        = match get k root with
          | Some v => if String.eqb v "" then None else Some v
          | None => None
          end)
  /\ (forall k, k <> schemaLocation -> ~ In k version_attributes ->
        get k (output_xml a) = None).
Proof.
  unfold run. intros _ H. apply result_bind_inv in H as (st & Hst & H).
  apply process_rows_root_label in Hst as (_ & Hattr & _).
  cbn [initial st_root] in Hattr.
  assert (Hget : forall k, get k (st_root st) = get k root)
    by (intros k; unfold get; now rewrite Hattr).
  apply result_bind_inv in H as (v & Hv & [= <-]).
  rewrite Hget in Hv. destruct (get schemaLocation root) as [v0|] eqn:Hs;
    [|discriminate]. injection Hv as ->.
  cbn [output_xml tag text]. split; [reflexivity|]. split; [reflexivity|].
  assert (Hk : forall k,
             get k
               (Elem (tag root)
                  (fold_left (fun acc a => copy_attribute (st_root st) a acc)
                     version_attributes [(schemaLocation, v)])
                  None (st_out st))
             = if existsb (fun a => String.eqb a k) version_attributes
               then match get k root with
                    | Some w => if String.eqb w ""
                                then attr_get k [(schemaLocation, v)]
                                else Some w
                    | None => attr_get k [(schemaLocation, v)]
                    end
               else attr_get k [(schemaLocation, v)]).
  { intros k. unfold get at 1. cbn [attrib].
    rewrite copied_attributes_get. now rewrite Hget. }
  split; [|split].
  - exists v. split; [reflexivity|]. rewrite Hk. reflexivity.
  - intros k Hin. rewrite Hk.
    assert (E : existsb (fun a => String.eqb a k) version_attributes = true).
    { apply existsb_exists. exists k. split; [exact Hin|apply String.eqb_refl]. }
    rewrite E.
    assert (Hn : attr_get k [(schemaLocation, v)] = None).
    { cbn [attr_get]. destruct (String.eqb schemaLocation k) eqn:E'; [|reflexivity].
      apply String.eqb_eq in E'. subst k. exfalso.
      cbn in Hin. intuition discriminate. }
    rewrite Hn. reflexivity.
  - intros k Hs' Hout. rewrite Hk.
    assert (E : existsb (fun a => String.eqb a k) version_attributes = false).
    { destruct (existsb _ version_attributes) eqn:E; [|reflexivity].
      apply existsb_exists in E as (a0 & Hin & ->%String.eqb_eq). contradiction. }
    rewrite E. cbn [attr_get].
    destruct (String.eqb schemaLocation k) eqn:E'; [|reflexivity].
    apply String.eqb_eq in E'. congruence.
Qed.

Lemma output_root_attributes_witness :
  run today (versioned_export [plain_customer]) [good_row]
  = Ret (produced (versioned_export [plain_customer]) [good_row])
  /\ attrib (output_xml (produced (versioned_export [plain_customer]) [good_row]))
     = [(schemaLocation, "customer.xsd"); ("major", "6")]
  /\ tag (output_xml (produced (versioned_export [plain_customer]) [good_row]))
     = tag (versioned_export [plain_customer]).
Proof.
  split; [vm_compute; reflexivity|]. split; [vm_compute; reflexivity|].
  apply (output_root_attributes today (versioned_export [plain_customer])
           [good_row]).
  - repeat constructor.
  - vm_compute; reflexivity.
Defined.

End OutputRoot.

(** *** Reading the row of a record from the table (lines 122-123) *)

Section TableLookup.
Import Xml Migrate Samples.

Lemma find_first {A} (f : A -> bool) (l : list A) (x : A) :
  List.find f l = Some x ->
  exists pre post, l = pre ++ x :: post /\ f x = true
                   /\ Forall (fun y => f y = false) pre.
Proof.
  induction l as [|y l IH]; [discriminate|]. cbn [List.find].
  destruct (f y) eqn:E.
  - intros [= ->]. exists [], l. auto.
  - intros H. destruct (IH H) as (pre & post & -> & Hx & Hpre).
    exists (y :: pre), post. split; [reflexivity|]. split; [exact Hx|].
    now constructor.
Qed.

(** The row read for a record is the first row of the table whose current
    id, as text, is the id looked up; rows further down with the same id are
    never read. The lookup fails, with an IndexError, exactly for an id that
    is not in the set of ids of the table: the test of line 122 is what
    keeps line 123 from failing. *)
Theorem first_row_of_an_id_is_read (csv : list row) (id : string) :
  match first_row_for csv id with
  | Ret r =>
      id ∈ customer_ids_from_csv csv
      /\ exists pre post,
           csv = pre ++ r :: post /\ current_str r = id
           /\ Forall (fun r0 => current_str r0 <> id) pre
  | Raise e => e = IndexError /\ id ∉ customer_ids_from_csv csv
  | OutsideModel => False
  end.
Proof.
  destruct (first_row_for csv id) as [r|e|] eqn:H.
  - split; [now apply first_row_for_listed in H|].
    unfold first_row_for in H.
    destruct (List.find _ csv) as [r0|] eqn:Hf; [|discriminate].
    injection H as ->. apply find_first in Hf as (pre & post & -> & Hr & Hpre).
    exists pre, post. split; [reflexivity|].
    split; [now apply String.eqb_eq|].
    eapply Forall_impl; [exact Hpre|]. cbn. intros r0. apply String.eqb_neq.
  - split.
    + unfold first_row_for in H. destruct (List.find _ csv); [discriminate|].
      now injection H as <-.
    + intros Hin. apply listed_first_row_for in Hin as [r Hr]. congruence.
  - unfold first_row_for in H. destruct (List.find _ csv); discriminate.
Qed.

End TableLookup.

(** *** The accounts of a tree when its first match is replaced *)

Section AccountsThroughReplace.
Import Xml Migrate Accounts.

Variable A : elem -> elem -> Prop.
Hypothesis A_refl : forall u, A u u.

Lemma users_same (l : list elem) : Forall2 A l l.
Proof. induction l; constructor; auto. Qed.

Lemma users_app (l1 l2 : list elem) : users (l1 ++ l2) = users l1 ++ users l2.
Proof. unfold users. apply filter_app. Qed.

Lemma users_iter (e : elem) :
  users (iter e) = (if is_user e then [e] else []) ++ users (descendants e).
Proof.
  rewrite iter_unfold. unfold users.
  rewrite (filter_cons (fun x : elem => is_user x = true)).
  destruct (is_user e) eqn:E.
  - now rewrite decide_True.
  - now rewrite decide_False by discriminate.
Qed.

Variable pc : elem -> bool.
Variables x x' : elem.
Hypothesis x_users : Forall2 A (users (iter x)) (users (iter x')).
Hypothesis A_around : forall k,
  is_user k = true -> find pc k = Some x -> A k (replace_first pc x' k).

Lemma users_replace_first_in (ks : list elem) :
  Forall (fun e => find pc e = Some x ->
            Forall2 A (users (descendants e))
              (users (descendants (replace_first pc x' e)))) ks ->
  find_in pc ks = Some x ->
  Forall2 A (users (flat_map iter ks))
    (users (flat_map iter (replace_first_in pc x' ks))).
Proof.
  induction 1 as [|k ks Hk _ IH]; intros Hx; [discriminate Hx|].
  rewrite find_in_cons in Hx. rewrite replace_first_in_spec.
  cbn [flat_map]. rewrite users_app. destruct (pc k) eqn:Hpc.
  - injection Hx as ->. cbn [flat_map]. rewrite users_app.
    apply Forall2_app; [exact x_users|apply users_same].
  - destruct (find pc k) as [c0|] eqn:Hc0.
    + injection Hx as ->. cbn [flat_map]. rewrite users_app.
      apply Forall2_app; [|apply users_same].
      rewrite !users_iter.
      rewrite (q_replace_first is_user (is_tag_label _)).
      apply Forall2_app; [|now apply Hk].
      destruct (is_user k) eqn:Hu; [|constructor].
      constructor; [now apply A_around|constructor].
    + cbn [flat_map]. rewrite users_app.
      apply Forall2_app; [apply users_same|now apply IH].
Qed.

Lemma users_replace_first (e : elem) :
  find pc e = Some x ->
  Forall2 A (users (descendants e))
    (users (descendants (replace_first pc x' e))).
Proof.
  induction e as [t a x0 ks IH] using elem_induction. intros Hx.
  rewrite replace_first_unfold. unfold descendants. cbn [children].
  now apply users_replace_first_in.
Qed.

End AccountsThroughReplace.

(** *** Steps before the account loop, account by account *)

Section KeptSteps.
Import Xml Migrate Accounts.
Local Open Scope nat_scope.

Variables p m : elem -> bool.
Hypothesis p_label : label_only p.
Hypothesis m_label : label_only m.
Hypothesis p_dt : ignores_datatype p.
Hypothesis m_dt : ignores_datatype m.

Lemma kept_refl (u : elem) : kept p m u u.
Proof. split; [apply stable_refl|auto]. Qed.

Lemma stable_typed (a : elem) (value dt : string) :
  stable p m a (set_attr dt_dt dt (set_text (Some value) a)).
Proof.
  split; [apply p_dt|]. split; [apply m_dt|].
  destruct a. split; reflexivity.
Qed.

Lemma removable_datatype : ignores_datatype removable.
Proof.
  intros dt v e. unfold removable, is_last_order_date, named_attribute,
    is_custom_attribute, is_last_logged_in, is_tag, has_attr, get.
  cbn [set_attr set_text tag attrib].
  now rewrite attr_get_set_other by discriminate.
Qed.

Lemma leaves_typed (a : elem) (value dt : string) :
  forallb leaf_if_removable (iter a) = true ->
  forallb leaf_if_removable
    (iter (set_attr dt_dt dt (set_text (Some value) a))) = true.
Proof.
  rewrite !iter_unfold. cbn [forallb]. unfold leaf_if_removable at 1 3.
  rewrite removable_datatype. destruct a. exact (fun H => H).
Qed.

Lemma leaves_iter_replace_first pc c c' e :
  forallb leaf_if_removable (iter c') = true ->
  find pc e = Some c ->
  forallb leaf_if_removable (iter e) = true ->
  forallb leaf_if_removable (iter (replace_first pc c' e)) = true.
Proof.
  intros Hc' Hc. rewrite !iter_unfold. cbn [forallb].
  intros [Hq Hd]%andb_true_iff.
  fold (leaf_entries e) in Hd.
  pose proof (leaves_replace_first pc c c' e Hc' Hc Hd) as Hd'.
  unfold leaf_entries in Hd'. rewrite Hd', andb_true_r.
  unfold leaf_if_removable in *.
  rewrite (q_replace_first removable removable_label).
  destruct (removable e); [|reflexivity]. cbn [negb orb] in *.
  unfold is_leaf in Hq. destruct e as [t a x [|k0 kk]];
    [discriminate Hc | discriminate Hq].
Qed.

Lemma kept_typed (a : elem) (value dt : string) :
  Forall2 (kept p m) (users (iter a))
    (users (iter (set_attr dt_dt dt (set_text (Some value) a)))).
Proof.
  rewrite !(users_iter).
  assert (Eu : is_user (set_attr dt_dt dt (set_text (Some value) a))
               = is_user a) by (destruct a; reflexivity).
  assert (Ed : descendants (set_attr dt_dt dt (set_text (Some value) a))
               = descendants a) by (destruct a; reflexivity).
  rewrite Eu, Ed.
  apply Forall2_app; [|apply (users_same _ kept_refl)].
  destruct (is_user a); [|constructor].
  constructor; [|constructor]. split; [apply stable_typed|].
  unfold leaf_entries. now rewrite Ed.
Qed.

Lemma kept_put_attribute (name value dt : string) (g g' : elem) :
  is_custom_attributes g = true ->
  neutral p m (new_attribute name value dt) ->
  put_attribute name value dt g = Ret g' ->
  stable p m g g'
  /\ (forallb leaf_if_removable (iter g) = true ->
      forallb leaf_if_removable (iter g') = true)
  /\ Forall2 (kept p m) (users (iter g)) (users (iter g')).
Proof.
  intros Hg Hnew. unfold put_attribute.
  destruct (find (named_attribute name) g) as [a|] eqn:Ha.
  - rewrite update_found_spec, Ha. cbn [fmap result_fmap]. intros [= <-].
    set (a' := set_attr dt_dt dt (set_text (Some value) a)).
    assert (Hs : stable p m g (replace_first (named_attribute name) a' g))
      by (apply (stable_replace_first p m p_label m_label _ a a');
          [apply stable_typed|exact Ha]).
    assert (Hl : forallb leaf_if_removable (iter g) = true ->
                 forallb leaf_if_removable
                   (iter (replace_first (named_attribute name) a' g)) = true).
    { intros H. apply (leaves_iter_replace_first _ a a'); [|exact Ha|exact H].
      apply leaves_typed. eapply forallb_incl; [|exact H].
      rewrite (iter_unfold g). apply incl_tl. now apply (found_sub _ _ _ Ha). }
    split; [exact Hs|]. split; [exact Hl|].
    rewrite !users_iter, (q_replace_first is_user (is_tag_label _)).
    apply Forall2_app.
    + destruct (is_user g); [|constructor]. constructor; [|constructor].
      split; [exact Hs|]. unfold leaf_entries. intros H.
      apply (leaves_replace_first _ a a'); [|exact Ha|exact H].
      apply leaves_typed. eapply forallb_incl; [|exact H].
      now apply (found_sub _ _ _ Ha).
    + apply (users_replace_first (kept p m) kept_refl _ a a');
        [apply kept_typed| |exact Ha].
      intros k _ Hk. split.
      * apply (stable_replace_first p m p_label m_label _ a a');
          [apply stable_typed|exact Hk].
      * intros H. apply (leaves_replace_first _ a a'); [|exact Hk|exact H].
        apply leaves_typed. eapply forallb_incl; [|exact H].
        now apply (found_sub _ _ _ Hk).
  - intros [= <-]. split; [now apply stable_append|]. split.
    + intros H.
      apply (leaves_set_children (i_ "custom-attributes"));
        [destruct g; exact Hg|reflexivity|reflexivity|].
      rewrite flat_map_app, forallb_app. cbn [flat_map].
      rewrite app_nil_r, (iter_leaves_children _ H). cbn [andb].
      rewrite iter_unfold. unfold new_attribute, descendants, leaf_if_removable,
        is_leaf. cbn [children flat_map forallb]. now rewrite orb_true_r.
    + rewrite !users_iter.
      assert (E : users (descendants (append_child
                                        (new_attribute name value dt) g))
                  = users (descendants g)).
      { unfold descendants, append_child. cbn [children set_children].
        rewrite flat_map_app, users_app. cbn [flat_map].
        now rewrite app_nil_r. }
      rewrite E.
      assert (Eu : is_user (append_child (new_attribute name value dt) g)
                   = is_user g) by (destruct g; reflexivity).
      rewrite Eu. unfold is_custom_attributes, is_user, is_tag in *.
      apply String.eqb_eq in Hg. rewrite Hg. cbn.
      apply (users_same _ kept_refl).
Qed.

Lemma kept_trans (u1 u2 u3 : elem) :
  kept p m u1 u2 -> kept p m u2 u3 -> kept p m u1 u3.
Proof.
  intros [S1 L1] [S2 L2]. split; [|auto].
  eapply (stable_trans p m); eassumption.
Qed.

Lemma kept_insert_attribute (name value dt : string) (c c' : elem) :
  neutral p m (new_attribute name value dt) ->
  insert_attribute name value dt c = Ret c' ->
  Forall2 (kept p m) (findall is_user c) (findall is_user c').
Proof.
  intros Hnew. unfold insert_attribute. change (findall is_user) with
    (fun e => users (descendants e)). cbn beta.
  destruct (find is_custom_attributes c) as [g|] eqn:Hg.
  - rewrite update_found_spec, Hg.
    destruct (put_attribute name value dt g) as [g'| |] eqn:Hp;
      try discriminate.
    cbn [fmap result_fmap]. intros [= <-].
    destruct (kept_put_attribute name value dt g g' (find_holds _ _ _ Hg)
                Hnew Hp) as (Hs & Hl & Hu).
    apply (users_replace_first (kept p m) kept_refl _ g g');
      [exact Hu| |exact Hg].
    intros k _ Hk. split.
    + now apply (stable_replace_first p m p_label m_label _ g g').
    + intros H. apply (leaves_replace_first _ g g'); [|exact Hk|exact H].
      apply Hl. eapply forallb_incl; [|exact H].
      now apply (found_sub _ _ _ Hk).
  - destruct (put_attribute name value dt
                (Elem (i_ "custom-attributes") [] None [])) as [g'| |] eqn:Hp;
      try discriminate.
    cbn [mbind result_bind mret result_ret]. intros [= <-].
    destruct (kept_put_attribute name value dt
                (Elem (i_ "custom-attributes") [] None []) g'
                (String.eqb_refl _) Hnew Hp) as (_ & _ & Hu).
    change (users (iter (Elem (i_ "custom-attributes") [] None [])))
      with (@nil elem) in Hu.
    apply Forall2_nil_inv_l in Hu.
    unfold descendants, append_child. cbn [children set_children].
    rewrite flat_map_app, users_app. cbn [flat_map].
    rewrite app_nil_r, Hu, app_nil_r. apply (users_same _ kept_refl).
Qed.

Lemma kept_rewrite_attributes (s1 s2 s3 mr d : cell) (c : elem) :
  Forall2 (kept p m) (findall is_user c)
    (findall is_user (rewrite_attributes s1 s2 s3 mr d c)).
Proof.
  unfold findall. rewrite descendants_rewrite_attributes.
  induction (descendants c) as [|k l IH]; [constructor|].
  cbn [map]. rewrite !(filter_cons (fun x : elem => is_user x = true)).
  assert (Eu : is_user (map_text (rewrite_text s1 s2 s3 mr d) k) = is_user k)
    by (destruct k; reflexivity).
  rewrite Eu. destruct (decide (is_user k = true)); [|exact IH].
  constructor; [|exact IH]. split; [now apply stable_map_text|].
  unfold leaf_entries. rewrite descendants_map_text.
  induction (descendants k) as [|y ys IHy]; [auto|].
  cbn [map forallb]. rewrite leaf_map_text.
  intros [Hy Hys]%andb_true_iff. rewrite Hy. now apply IHy.
Qed.

(** The accounts the account loop is handed are the accounts of the
    record, in order, each as good as before for the two tests. *)
Lemma stages_kept (b1 b2 : bool) n s1 s2 s3 mr d v1 v2 (c c2 c3 : elem) :
  (forall value dt,
     neutral p m (new_attribute "MEK_DefaultDeliveryday" value dt)) ->
  (forall value dt,
     neutral p m (new_attribute "MEK_CustomerOrderNumberMandatory" value dt)) ->
  (if b1
   then insert_attribute "MEK_DefaultDeliveryday" v1 "string"
          (rewrite_attributes s1 s2 s3 mr d (set_attr "id" (Cell.str n) c))
   else Ret (rewrite_attributes s1 s2 s3 mr d (set_attr "id" (Cell.str n) c)))
  = Ret c2 ->
  (if b2
   then insert_attribute "MEK_CustomerOrderNumberMandatory" v2 "boolean" c2
   else Ret c2) = Ret c3 ->
  Forall2 (kept p m) (findall is_user c) (findall is_user c3).
Proof.
  intros N1 N2 H2 H3.
  set (c0 := set_attr "id" (Cell.str n) c) in *.
  set (c1 := rewrite_attributes s1 s2 s3 mr d c0) in *.
  assert (H01 : Forall2 (kept p m) (findall is_user c) (findall is_user c1)).
  { change (findall is_user c) with (findall is_user c0).
    apply kept_rewrite_attributes. }
  assert (H12 : Forall2 (kept p m) (findall is_user c1) (findall is_user c2)).
  { destruct b1.
    - eapply kept_insert_attribute; [apply N1|exact H2].
    - injection H2 as <-. apply (users_same _ kept_refl). }
  assert (H23 : Forall2 (kept p m) (findall is_user c2) (findall is_user c3)).
  { destruct b2.
    - eapply kept_insert_attribute; [apply N2|exact H3].
    - injection H3 as <-. apply (users_same _ kept_refl). }
  eapply Forall2_trans; [|exact H01|].
  { intros u1 u2 u3. apply kept_trans. }
  eapply Forall2_trans; [|exact H12|exact H23].
  intros u1 u2 u3. apply kept_trans.
Qed.

End KeptSteps.

(** *** The accounts of a transformed record *)

Section TransformedAccounts.
Import Xml Migrate Accounts Samples.
Local Open Scope nat_scope.

Lemma transform_inv today id n s1 s2 s3 mr d (c c' : elem) :
  transform today id n s1 s2 s3 mr d c = Ret c' ->
  exists (b1 b2 : bool) (c2 c3 : elem),
    (if b1
     then insert_attribute "MEK_DefaultDeliveryday" (Cell.str d) "string"
            (rewrite_attributes s1 s2 s3 mr d (set_attr "id" (Cell.str n) c))
     else Ret (rewrite_attributes s1 s2 s3 mr d
                 (set_attr "id" (Cell.str n) c))) = Ret c2
    /\ (if b2
        then insert_attribute "MEK_CustomerOrderNumberMandatory"
               (Text.lower (Cell.str mr)) "boolean" c2
        else Ret c2) = Ret c3
    /\ migrate_users today id n c3 = Ret c'.
Proof.
  unfold transform. intros H.
  apply result_bind_inv in H as (c2 & H2 & H).
  apply result_bind_inv in H as (c3 & H3 & H4).
  eexists _, _, c2, c3. split; [exact H2|]. split; [exact H3|exact H4].
Qed.

Lemma accounts_get_their_turn today id n (c c' : elem) :
  migrate_users today id n c = Ret c' ->
  Forall2 (fun u u' => migrate_user today id n u = Ret u')
    (findall is_user c) (findall is_user c').
Proof.
  unfold migrate_users. destruct (nested_users c) eqn:Hn; [discriminate|].
  apply (every_user (migrate_user today id n) (migrate_user_keeps today id n)).
  unfold nested_users in Hn. apply Forall_forall. intros u Hu.
  destruct (count is_user (descendants u)) eqn:E; [reflexivity|]. exfalso.
  assert (Hex : existsb (fun u => existsb is_user (descendants u))
                  (findall is_user c) = true).
  { apply existsb_exists. exists u. split; [now apply list_elem_of_In|].
    rewrite existsb_count, E. reflexivity. }
  congruence.
Qed.

Lemma is_tag_datatype (t : string) : ignores_datatype (is_tag t).
Proof. intros dt v e. reflexivity. Qed.

Lemma marked_datatype : ignores_datatype marked.
Proof.
  intros dt v e. unfold marked, is_user_group, is_tag, has_attr, get.
  cbn [set_attr set_text tag attrib].
  now rewrite attr_get_set_other by discriminate.
Qed.

Lemma last_order_date_datatype : ignores_datatype is_last_order_date.
Proof.
  intros dt v e. unfold is_last_order_date, named_attribute,
    is_custom_attribute, is_tag, has_attr, get.
  cbn [set_attr set_text tag attrib].
  now rewrite attr_get_set_other by discriminate.
Qed.

(** A transformed record, account by account, for the two tests [p] and
    [m]: the account of the source, what the account loop was handed, and
    the account of the result. *)
Lemma transformed_accounts (p m : elem -> bool)
    today id n s1 s2 s3 mr d (c c' : elem) :
  label_only p -> label_only m ->
  ignores_datatype p -> ignores_datatype m ->
  (forall name value dt, p (new_attribute name value dt) = false) ->
  (forall value dt,
     m (new_attribute "MEK_DefaultDeliveryday" value dt) = false) ->
  (forall value dt,
     m (new_attribute "MEK_CustomerOrderNumberMandatory" value dt) = false) ->
  transform today id n s1 s2 s3 mr d c = Ret c' ->
  Forall2 (fun u u' =>
             exists u3, kept p m u u3
                        /\ migrate_user today id n u3 = Ret u')
    (findall is_user c) (findall is_user c').
Proof.
  intros Lp Lm Dp Dm Np N1 N2 H.
  apply transform_inv in H as (b1 & b2 & c2 & c3 & H2 & H3 & H4).
  apply accounts_get_their_turn in H4.
  eapply Forall2_trans; [|eapply (stages_kept p m Lp Lm Dp Dm); eauto|exact H4].
  - intros u u3 u' Hk Hm. now exists u3.
  - intros value dt. apply (leaf_is_neutral p m); auto.
  - intros value dt. apply (leaf_is_neutral p m); auto.
Qed.

End TransformedAccounts.

(** *** Markers and stale fields in a transformed record *)

Section TransformedRecord.
Import Xml Migrate Accounts Samples.
Local Open Scope nat_scope.

(** C7 (as amended). Take a record whose transformation (lines 152-254)
    ends; its accounts are then those of the source, one for one and in
    document order. For each account whose LastOrderDate entries and
    last-logged-in fields hold no elements: in the transformed record its
    first group-membership collection holds the marker once if it held none
    in the source, and as often as in the source if it held any; an account
    without such a collection still has none. Running the membership step
    on the transformed account changes nothing. *)
Theorem membership_marker_is_added_when_absent
  (today id : string) (n s1 s2 s3 m d : cell) (c c' : elem) :
  transform today id n s1 s2 s3 m d c = Ret c' ->
  Forall2
    (fun u u' =>
       leaf_entries u = true ->
       match find is_user_groups u with
       | None => find is_user_groups u' = None
       | Some g =>
           exists g', find is_user_groups u' = Some g'
                      /\ markers g' = Nat.max 1 (markers g)
       end
       /\ add_membership u' = Ret u')
    (findall is_user c) (findall is_user c').
Proof.
  intros H.
  eapply Forall2_impl;
    [apply (transformed_accounts is_user_groups marked today id n s1 s2 s3 m d
              c c' (is_tag_label _) marked_label (is_tag_datatype _)
              marked_datatype); [reflexivity..|exact H]|].
  intros u u' (u3 & [(_ & _ & _ & Hc) Hl] & Hm) Hu. cbn beta in *.
  specialize (Hl Hu).
  pose proof (migrate_user_markers _ _ _ _ _ Hl Hm) as Hk.
  rewrite Hc in Hk. apply census_reading in Hk.
  destruct (find is_user_groups u) as [g|] eqn:Hg.
  - destruct Hk as (g' & Hg' & Hn). rewrite <- !markers_census in Hn. split.
    + now exists g'.
    + apply (add_membership_again u' g' Hg'). lia.
  - split; [exact Hk|].
    unfold add_membership. now rewrite update_found_spec, Hk.
Qed.

Lemma membership_marker_is_added_when_absent_witness :
  transform_by today "1001" good_row two_account_customer
  = Ret (migrated "1001" good_row two_account_customer)
  /\ forallb leaf_entries (findall is_user two_account_customer) = true
  /\ map (fun u => map markers (findall is_user_groups u))
       (findall is_user two_account_customer) = [[0]; [1]]
  /\ map (fun u => map markers (findall is_user_groups u))
       (findall is_user (migrated "1001" good_row two_account_customer))
     = [[1]; [1]]
  /\ Forall2
       (fun u u' =>
          leaf_entries u = true ->
          match find is_user_groups u with
          | None => find is_user_groups u' = None
          | Some g =>
              exists g', find is_user_groups u' = Some g'
                         /\ markers g' = Nat.max 1 (markers g)
          end
          /\ add_membership u' = Ret u')
       (findall is_user two_account_customer)
       (findall is_user (migrated "1001" good_row two_account_customer)).
Proof.
  split; [vm_compute; reflexivity|]. split; [reflexivity|].
  split; [reflexivity|]. split; [reflexivity|].
  apply (membership_marker_is_added_when_absent today "1001" (CInt 9001)
           (CInt 77) (CStr "Store A") (CStr "SRC1") (CBool true) (CStr "-2D")
           two_account_customer (migrated "1001" good_row two_account_customer)).
  vm_compute; reflexivity.
Defined.

(** C7 as stated fails. An account that holds the marker twice in the
    source holds it twice in the output. And where the first
    group-membership collection of an account sits inside a LastOrderDate
    entry, the marker goes into that collection and leaves with the entry:
    the collection the output shows for the account holds no marker. *)
Lemma marker_held_twice_or_not_at_all :
  (exists a,
     run today (export [twice_marked_customer]) [good_row] = Ret a
     /\ migration_log a = [LogRow "1001" "9001" OK FoundInSource]
     /\ map (fun c => map (fun u => map markers (findall is_user_groups u))
                        (findall is_user c))
          (children (output_xml a)) = [[[2]]])
  /\ (exists a,
        run today (export [hidden_groups_customer]) [good_row] = Ret a
        /\ migration_log a = [LogRow "1001" "9001" OK FoundInSource]
        /\ leaf_entries hidden_groups_account = false
        /\ map (fun u => map markers (findall is_user_groups u))
             (findall is_user hidden_groups_customer) = [[0; 0]]
        /\ map (fun c => map (fun u => map markers (findall is_user_groups u))
                           (findall is_user c))
             (children (output_xml a)) = [[[0]]]).
Proof.
  split; eexists; (split; [vm_compute; reflexivity | repeat split]).
Qed.

(** C8 (as amended). Take a record whose transformation (lines 152-254)
    ends; its accounts are then those of the source, one for one and in
    document order. For each account whose LastOrderDate entries and
    last-logged-in fields hold no elements: in the transformed record its
    first custom-attribute collection holds no LastOrderDate entry, however
    many it held, and its first credentials hold one last-logged-in field
    fewer than in the source: none if they held at most one, n - 1 if they
    held n. An account without the collection, or without credentials,
    still has none. *)
Theorem stale_fields_removal
  (today id : string) (n s1 s2 s3 m d : cell) (c c' : elem) :
  transform today id n s1 s2 s3 m d c = Ret c' ->
  Forall2
    (fun u u' =>
       leaf_entries u = true ->
       match find is_custom_attributes u with
       | None => find is_custom_attributes u' = None
       | Some _ =>
           exists a', find is_custom_attributes u' = Some a'
                      /\ findall is_last_order_date a' = []
       end
       /\ match find is_credentials u with
          | None => find is_credentials u' = None
          | Some k =>
              exists k', find is_credentials u' = Some k'
                         /\ length (findall is_last_logged_in k')
                            = pred (length (findall is_last_logged_in k))
          end)
    (findall is_user c) (findall is_user c').
Proof.
  intros H.
  pose proof (transformed_accounts is_custom_attributes is_last_order_date
                today id n s1 s2 s3 m d c c' (is_tag_label _)
                last_order_date_label (is_tag_datatype _)
                last_order_date_datatype (fun _ _ _ => eq_refl)
                (fun _ _ => eq_refl) (fun _ _ => eq_refl) H) as Ha.
  pose proof (transformed_accounts is_credentials is_last_logged_in
                today id n s1 s2 s3 m d c c' (is_tag_label _)
                (is_tag_label _) (is_tag_datatype _) (is_tag_datatype _)
                (fun _ _ _ => eq_refl) (fun _ _ => eq_refl)
                (fun _ _ => eq_refl) H) as Hk.
  clear H. revert Hk.
  induction Ha as [|u u' us us' Hu Ha IH]; intros Hk;
    inversion Hk as [|? ? ? ? Hu2 Hk2]; subst; constructor; [|now apply IH].
  clear IH Ha Hk Hk2. intros Hl. split.
  - destruct Hu as (u3 & [(_ & _ & _ & Hc) Hl3] & Hm).
    pose proof (migrate_user_last_order_date _ _ _ _ _ (Hl3 Hl) Hm) as Hr.
    rewrite Hc in Hr. apply census_reading in Hr.
    destruct (find is_custom_attributes u) as [a|]; [|exact Hr].
    destruct Hr as (a' & Ha' & Hn). exists a'. split; [exact Ha'|].
    now apply findall_nil_count.
  - destruct Hu2 as (u3 & [(_ & _ & _ & Hc) Hl3] & Hm).
    pose proof (migrate_user_last_logged_in _ _ _ _ _ (Hl3 Hl) Hm) as Hr.
    rewrite Hc in Hr. apply census_reading in Hr.
    destruct (find is_credentials u) as [k|]; [|exact Hr].
    destruct Hr as (k' & Hk' & Hn). exists k'. split; [exact Hk'|].
    now rewrite !count_findall.
Qed.

Lemma stale_fields_removal_witness :
  transform_by today "1001" good_row twice_logged_customer
  = Ret (migrated "1001" good_row twice_logged_customer)
  /\ forallb leaf_entries (findall is_user twice_logged_customer) = true
  /\ map (fun u => (length (findall is_last_order_date u),
                    length (findall is_last_logged_in u)))
       (findall is_user twice_logged_customer) = [(2, 2)]
  /\ map (fun u => (length (findall is_last_order_date u),
                    length (findall is_last_logged_in u)))
       (findall is_user (migrated "1001" good_row twice_logged_customer))
     = [(0, 1)]
  /\ Forall2
       (fun u u' =>
          leaf_entries u = true ->
          match find is_custom_attributes u with
          | None => find is_custom_attributes u' = None
          | Some _ =>
              exists a', find is_custom_attributes u' = Some a'
                         /\ findall is_last_order_date a' = []
          end
          /\ match find is_credentials u with
             | None => find is_credentials u' = None
             | Some k =>
                 exists k', find is_credentials u' = Some k'
                            /\ length (findall is_last_logged_in k')
                               = pred (length (findall is_last_logged_in k))
             end)
       (findall is_user twice_logged_customer)
       (findall is_user (migrated "1001" good_row twice_logged_customer)).
Proof.
  split; [vm_compute; reflexivity|]. split; [reflexivity|].
  split; [reflexivity|]. split; [reflexivity|].
  apply (stale_fields_removal today "1001" (CInt 9001)
           (CInt 77) (CStr "Store A") (CStr "SRC1") (CBool true) (CStr "-2D")
           twice_logged_customer (migrated "1001" good_row twice_logged_customer)).
  vm_compute; reflexivity.
Defined.

(** C8 as stated fails. Of two last-logged-in fields the second stays in
    the output (the two LastOrderDate entries are both gone). And where the
    first custom-attribute collection of an account sits inside a
    last-logged-in field, that collection is the one cleared and it leaves
    with the field: the collection the output shows for the account still
    holds its LastOrderDate entry. *)
Lemma stale_fields_that_stay :
  (exists a,
     run today (export [twice_logged_customer]) [good_row] = Ret a
     /\ migration_log a = [LogRow "1001" "9001" OK FoundInSource]
     /\ map (fun c => map (fun cr => map text (findall is_last_logged_in cr))
                        (findall is_credentials c))
          (children (output_xml a)) = [[[Some "2023"]]]
     /\ map (fun c => length (findall is_last_order_date c))
          (children (output_xml a)) = [0])
  /\ (exists a,
        run today (export [hidden_attributes_customer]) [good_row] = Ret a
        /\ migration_log a = [LogRow "1001" "9001" OK FoundInSource]
        /\ leaf_entries hidden_attributes_account = false
        /\ map (fun c =>
                  map (fun u =>
                         map (fun g => map text (findall is_last_order_date g))
                           (findall is_custom_attributes u))
                    (findall is_user c))
             (children (output_xml a)) = [[[[Some "2022"]]]]).
Proof.
  split; eexists; (split; [vm_compute; reflexivity | repeat split]).
Qed.

End TransformedRecord.

(** *** A located record whose stripped id the table does not list *)

Section StaleVerdict.
Import Xml Migrate Samples.

Lemma process_rows_app today csv (st : state) (rows1 rows2 : list row) :
  process_rows today csv st (rows1 ++ rows2)
  = (st' ← process_rows today csv st rows1; process_rows today csv st' rows2).
Proof.
  revert st. induction rows1 as [|r rows1 IH]; intros st; [reflexivity|].
  cbn [app process_rows].
  destruct (process_row today csv st r) as [st1|x|]; cbn [mbind result_bind];
    [apply IH|reflexivity|reflexivity].
Qed.

(** C9. Take a table, one of its rows, and the state the loop is in when it
    reaches that row. If the record is found under the id of the row, and
    that id, once stripped, is not among the ids of the table, lines 123-257
    are skipped and the status check of line 259 reads an [error_flag] this
    iteration never assigned. When no earlier row assigned it, the run ends
    there with NameError and writes nothing. Otherwise the loop goes on with
    the verdict of the last row that did assign it: the row is logged with
    that verdict and counted as found, and no record is appended. *)
Theorem unlisted_match_reads_stale_flag
    (today : string) (root : elem) (before after : list row) (r : row)
    (st : state) (customer : elem) :
  let csv := before ++ r :: after in
  let id := Cell.str (current_customer_id r) in
  let new_id := Text.strip (Cell.str (new_customer_id r)) in
  process_rows today csv (initial root) before = Ret st ->
  Text.has_dquote id = false ->
  find (is_customer_with id) (st_root st) = Some customer ->
  Text.strip id ∉ customer_ids_from_csv csv ->
  (st_error_flag st = None -> run today root csv = Raise NameError)
  /\ (st_error_flag st = Some false ->
      process_rows today csv (initial root) (before ++ [r])
      = Ret (State (st_root st) (st_out st)
               (st_log st ++ [LogRow id new_id OK NoReason])
               (S (st_found st)) (Some false) (st_error_reason st)))
  /\ (forall w, st_error_flag st = Some true -> st_error_reason st = Some w ->
      process_rows today csv (initial root) (before ++ [r])
      = Ret (State (st_root st) (st_out st)
               (st_log st ++ [LogRow id new_id NotOK (InvalidValue w)])
               (S (st_found st)) (Some true) (Some w))).
Proof.
  intros csv id new_id Hb Hq Hf Hn.
  assert (Hp : process_row today csv st r
    = (l ← finish_log (st_error_flag st) (st_error_reason st)
             (LogRow id new_id OK NoReason);
       mret (State (st_root st) (st_out st) (st_log st ++ [l]) (S (st_found st))
               (st_error_flag st) (st_error_reason st)))).
  { apply (process_row_unlisted today csv st r customer); [|exact Hn].
    fold id. rewrite find_customer_plain by exact Hq. now rewrite Hf. }
  split; [|split].
  - intros Hflag. unfold run. fold csv. unfold csv at 2.
    rewrite process_rows_app, Hb. cbn [mbind result_bind process_rows].
    rewrite Hp, Hflag. reflexivity.
  - intros Hflag. rewrite process_rows_app, Hb.
    cbn [mbind result_bind process_rows]. rewrite Hp, Hflag. reflexivity.
  - intros w Hflag Hw. rewrite process_rows_app, Hb.
    cbn [mbind result_bind process_rows]. rewrite Hp, Hflag, Hw. reflexivity.
Qed.

(** The record with the blank in its id: alone in the table it ends the
    run; after a plain row it is logged with the verdict of that row,
    counted as found and left out of the output. *)
Lemma unlisted_match_reads_stale_flag_witness :
  run today (export [spaced_customer]) [spaced_row] = Raise NameError
  /\ (exists st',
        process_rows today plain_then_spaced
          (initial (export [plain_customer; spaced_customer])) plain_then_spaced
        = Ret st'
        /\ st_log st'
           = [LogRow "1001" "9001" OK FoundInSource;
              LogRow " A1" "9001" OK NoReason]
        /\ map (get "id") (st_out st') = [Some "9001"]
        /\ st_found st' = 2%nat).
Proof.
  split.
  - apply (unlisted_match_reads_stale_flag today (export [spaced_customer])
             [] [] spaced_row (initial (export [spaced_customer]))
             spaced_customer);
      [reflexivity | reflexivity | reflexivity | vm_compute; set_solver
      | reflexivity].
  - destruct (unlisted_match_reads_stale_flag today
                (export [plain_customer; spaced_customer])
                [good_row] [] spaced_row
                (after_row plain_then_spaced
                   (initial (export [plain_customer; spaced_customer]))
                   good_row)
                spaced_customer) as (_ & H & _);
      [vm_compute; reflexivity | reflexivity | vm_compute; reflexivity
      | vm_compute; set_solver |].
    eexists. split; [exact (H eq_refl)|].
    split; [vm_compute; reflexivity|]. split; vm_compute; reflexivity.
Defined.

End StaleVerdict.

(** *** A delivery day that goes on after the pattern *)

Section TrailingText.
Import Xml Migrate Samples.

(** C3. The delivery day "-1D x" is not of the form '-', digit, 'D', yet the
    check of line 148 lets it pass: the pattern is matched at the start of
    the text and nothing asks for the text to end after the 'D'. The row is
    logged OK and the text becomes the record's default delivery day. *)
Theorem trailing_text_passes_the_delivery_day_check :
  Text.match_delivery_day "-1D x" = true
  /\ validate trailing_day_row = Verdict false None (CStr "-1D x")
  /\ exists a,
       run today (export [plain_customer]) [trailing_day_row] = Ret a
       /\ migration_log a = [LogRow "1001" "9001" OK FoundInSource]
       /\ map (attribute_texts "MEK_DefaultDeliveryday")
            (children (output_xml a)) = [[Some "-1D x"]].
Proof.
  split; [reflexivity|]. split; [reflexivity|].
  eexists. split; [vm_compute; reflexivity|]. split; reflexivity.
Qed.

End TrailingText.
